(** * DRC-20 indexer: a shallow embedding of the scanner and of the indexer class

    The repository holds two programs that share one SQLite database:

    - the scanner script (the second half of [drc20-indexer-public.ts]):
      [parseDRC20FromHex], [isTokenDeployed], [saveTransaction],
      [scanBlockRange], [initialScan], and the checkpoint accessors;
    - the [DRC20Indexer] class (the first half): [parseDRC20Json],
      [getTransactionCounts], [verifyTransactionCounts], [getTokenStats].

    Conventions of the embedding.

    - A JavaScript string is a [string] of bytes holding its UTF-8 encoding
      (a lone surrogate, which only a [\u] escape can produce, is kept in the
      generalised three-byte form).  Hex scripts, transaction ids and the
      protocol constants are ASCII.
    - [toUpperCase] maps the ASCII letters only: it is JavaScript's on the
      strings of ASCII characters ([asciiString] below).  Likewise a lone
      surrogate keeps its three bytes in a table, where the SQLite driver
      writes U+FFFD.  The theorems that would not hold of the program
      otherwise are stated for ticks of ASCII characters.
    - A table is the list of its rows in rowid order (oldest first).  The
      [created_at], [updated_at] and [checked_at] columns hold the wall clock
      and are left out.
    - A failed promise or a thrown exception is an [option] or an explicit
      outcome, following the [try]/[catch] structure of the source. *)

From Stdlib Require Import ZArith List Bool Ascii String DecimalString Lia.
From Stdlib Require Import Permutation.
Import ListNotations.
#[local] Set Warnings "-register-all".
Local Open Scope string_scope.
Local Open Scope list_scope.
Local Open Scope Z_scope.

(** ** JavaScript strings and buffers *)

Definition code (c : ascii) : Z := Z.of_N (N_of_ascii c).

Definition chr (z : Z) : ascii := ascii_of_N (Z.to_N z).

(** [s.slice(n)] for [0 <= n]. *)
Fixpoint slice (n : nat) (s : string) : string :=
  match n, s with
  | O, _ => s
  | S _, EmptyString => EmptyString
  | S k, String _ r => slice k r
  end.

(** [s.slice(0, n)]. *)
Fixpoint sliceTo (n : nat) (s : string) : string :=
  match n, s with
  | O, _ => EmptyString
  | S _, EmptyString => EmptyString
  | S k, String c r => String c (sliceTo k r)
  end.

(** [s.startsWith(p)]. *)
Fixpoint startsWith (p s : string) : bool :=
  match p, s with
  | EmptyString, _ => true
  | String _ _, EmptyString => false
  | String a p', String b s' => Ascii.eqb a b && startsWith p' s'
  end.

Definition upperChar (c : ascii) : ascii :=
  if (97 <=? code c) && (code c <=? 122) then chr (code c - 32) else c.

(** [s.toUpperCase()], on the ASCII letters. *)
Fixpoint toUpperCase (s : string) : string :=
  match s with
  | EmptyString => EmptyString
  | String c r => String (upperChar c) (toUpperCase r)
  end.

(** The value of a digit in radix 16, if it is one. *)
Definition hexVal (c : ascii) : option Z :=
  let n := code c in
  if (48 <=? n) && (n <=? 57) then Some (n - 48)
  else if (97 <=? n) && (n <=? 102) then Some (n - 87)
  else if (65 <=? n) && (n <=? 70) then Some (n - 55)
  else None.

Definition isStrWhiteSpace (c : ascii) : bool :=
  let n := code c in
  (n =? 9) || (n =? 10) || (n =? 11) || (n =? 12) || (n =? 13) || (n =? 32).

Fixpoint trimStart (s : string) : string :=
  match s with
  | String c r => if isStrWhiteSpace c then trimStart r else s
  | EmptyString => s
  end.

(** The longest prefix of radix-16 digits, read as a number; [None] when the
    prefix is empty. *)
Fixpoint hexDigits (acc : option Z) (s : string) : option Z :=
  match s with
  | String c r =>
      match hexVal c with
      | Some d => hexDigits (Some (16 * match acc with Some a => a | None => 0 end + d)) r
      | None => acc
      end
  | EmptyString => acc
  end.

(** [parseInt(s, 16)]; [None] is [NaN].  Leading white space, a sign and a
    [0x] prefix are accepted, and reading stops at the first character that
    is not a digit. *)
Definition parseInt16 (s : string) : option Z :=
  let s1 := trimStart s in
  let '(neg, s2) :=
    match s1 with
    | String "-"%char r => (true, r)
    | String "+"%char r => (false, r)
    | _ => (false, s1)
    end in
  let s3 :=
    match s2 with
    | String "0"%char (String "x"%char r) => r
    | String "0"%char (String "X"%char r) => r
    | _ => s2
    end in
  match hexDigits None s3 with
  | Some v => Some (if neg then - v else v)
  | None => None
  end.

(** [Buffer.from(s, 'hex')]: pairs of hex digits become bytes; decoding stops
    at the first pair that is not two hex digits, and a trailing single
    character is dropped. *)
Fixpoint bufferFromHex (s : string) : list ascii :=
  match s with
  | String a (String b r) =>
      match hexVal a, hexVal b with
      | Some x, Some y => chr (16 * x + y) :: bufferFromHex r
      | _, _ => []
      end
  | _ => []
  end.

(** [buf.toString('utf8')].  Well-formed UTF-8 is kept byte for byte; every
    maximal ill-formed part is replaced by U+FFFD (bytes EF BF BD). *)
Definition replacement : list ascii := [chr 239; chr 191; chr 189].

Definition inRange (lo hi : Z) (c : ascii) : bool :=
  (lo <=? code c) && (code c <=? hi).

Definition isCont (c : ascii) : bool := inRange 128 191 c.

(** The admissible range of the second byte after lead byte [c], and the
    number of continuation bytes that follow the lead. *)
Definition utf8Lead (c : ascii) : option (Z * Z * nat) :=
  let n := code c in
  if (194 <=? n) && (n <=? 223) then Some (128, 191, 1%nat)
  else if n =? 224 then Some (160, 191, 2%nat)
  else if ((225 <=? n) && (n <=? 236)) || (n =? 238) || (n =? 239)
       then Some (128, 191, 2%nat)
  else if n =? 237 then Some (128, 159, 2%nat)
  else if n =? 240 then Some (144, 191, 3%nat)
  else if (241 <=? n) && (n <=? 243) then Some (128, 191, 3%nat)
  else if n =? 244 then Some (128, 143, 3%nat)
  else None.

Fixpoint utf8ToString (bs : list ascii) : list ascii :=
  match bs with
  | [] => []
  | c :: r =>
      if code c <? 128 then c :: utf8ToString r
      else
        match utf8Lead c with
        | None => replacement ++ utf8ToString r
        | Some (lo, hi, k) =>
            match r with
            | c1 :: r1 =>
                if inRange lo hi c1 then
                  match k with
                  | 1%nat => c :: c1 :: utf8ToString r1
                  | 2%nat =>
                      match r1 with
                      | c2 :: r2 =>
                          if isCont c2 then c :: c1 :: c2 :: utf8ToString r2
                          else replacement ++ utf8ToString r1
                      | [] => replacement
                      end
                  | _ =>
                      match r1 with
                      | c2 :: r2 =>
                          if isCont c2 then
                            match r2 with
                            | c3 :: r3 =>
                                if isCont c3
                                then c :: c1 :: c2 :: c3 :: utf8ToString r3
                                else replacement ++ utf8ToString r2
                            | [] => replacement
                            end
                          else replacement ++ utf8ToString r1
                      | [] => replacement
                      end
                  end
                else replacement ++ utf8ToString r
            | [] => replacement
            end
        end
  end.

(** ** JSON values and [JSON.parse] *)

(** A number is kept as the decimal [m * 10^e] its literal denotes. *)
Inductive json : Type :=
| JNull
| JBool (b : bool)
| JNum (m e : Z)
| JStr (s : string)
| JArr (l : list json)
| JObj (fs : list (string * json)).

Definition isJsonWs (c : ascii) : bool :=
  let n := code c in (n =? 32) || (n =? 9) || (n =? 10) || (n =? 13).

Fixpoint skipWs (s : list ascii) : list ascii :=
  match s with
  | c :: r => if isJsonWs c then skipWs r else s
  | [] => []
  end.

Definition isDigit (c : ascii) : bool := inRange 48 57 c.

Fixpoint spanDigits (s : list ascii) : list ascii * list ascii :=
  match s with
  | c :: r =>
      if isDigit c then let '(d, rest) := spanDigits r in (c :: d, rest)
      else ([], s)
  | [] => ([], [])
  end.

Definition digitsVal (d : list ascii) : Z :=
  fold_left (fun a c => 10 * a + (code c - 48)) d 0.

(** The encoding of a code point; a surrogate gets the generalised
    three-byte form. *)
Definition utf8Encode (cp : Z) : list ascii :=
  if cp <? 128 then [chr cp]
  else if cp <? 2048 then [chr (192 + cp / 64); chr (128 + cp mod 64)]
  else if cp <? 65536 then
    [chr (224 + cp / 4096); chr (128 + (cp / 64) mod 64); chr (128 + cp mod 64)]
  else
    [chr (240 + cp / 262144); chr (128 + (cp / 4096) mod 64);
     chr (128 + (cp / 64) mod 64); chr (128 + cp mod 64)].

Definition hex4 (a b c d : ascii) : option Z :=
  match hexVal a, hexVal b, hexVal c, hexVal d with
  | Some w, Some x, Some y, Some z => Some (4096 * w + 256 * x + 16 * y + z)
  | _, _, _, _ => None
  end.

Definition simpleEscape (c : ascii) : option ascii :=
  let n := code c in
  if n =? 34 then Some (chr 34)          (* quote *)
  else if n =? 92 then Some (chr 92)     (* backslash *)
  else if n =? 47 then Some (chr 47)     (* slash *)
  else if n =? 98 then Some (chr 8)      (* b: backspace *)
  else if n =? 102 then Some (chr 12)    (* f: form feed *)
  else if n =? 110 then Some (chr 10)    (* n: line feed *)
  else if n =? 114 then Some (chr 13)    (* r: carriage return *)
  else if n =? 116 then Some (chr 9)     (* t: tab *)
  else None.

Definition flushHigh (hi : option Z) : list ascii :=
  match hi with Some h => utf8Encode h | None => [] end.

Definition emit (pre : list ascii) (res : option (list ascii * list ascii))
  : option (list ascii * list ascii) :=
  match res with
  | Some (out, rest) => Some (pre ++ out, rest)
  | None => None
  end.

(** The characters of a string literal after its opening quote, up to the
    closing quote.  [hi] is a high surrogate read from a [\u] escape and
    still waiting for its low half. *)
Fixpoint parseStr (hi : option Z) (s : list ascii)
  : option (list ascii * list ascii) :=
  match s with
  | [] => None
  | c :: r =>
      if code c =? 34 then Some (flushHigh hi, r)
      else if code c =? 92 then
        match r with
        | [] => None
        | e :: r1 =>
            if code e =? 117 then
              match r1 with
              | a :: b :: c' :: d :: r2 =>
                  match hex4 a b c' d with
                  | None => None
                  | Some cu =>
                      match hi with
                      | Some h =>
                          if (56320 <=? cu) && (cu <=? 57343) then
                            emit (utf8Encode (65536 + (h - 55296) * 1024 + (cu - 56320)))
                                 (parseStr None r2)
                          else if (55296 <=? cu) && (cu <=? 56319) then
                            emit (utf8Encode h) (parseStr (Some cu) r2)
                          else emit (utf8Encode h ++ utf8Encode cu) (parseStr None r2)
                      | None =>
                          if (55296 <=? cu) && (cu <=? 56319)
                          then parseStr (Some cu) r2
                          else emit (utf8Encode cu) (parseStr None r2)
                      end
                  end
              | _ => None
              end
            else
              match simpleEscape e with
              | Some x => emit (flushHigh hi ++ [x]) (parseStr None r1)
              | None => None
              end
        end
      else if code c <? 32 then None
      else emit (flushHigh hi ++ [c]) (parseStr None r)
  end.

(** A number literal: an optional minus sign; a single zero, or a non-zero
    digit and more digits; an optional fraction (a point and at least one
    digit); an optional exponent (e or E, an optional sign, at least one
    digit). *)
Definition parseNumber (s : list ascii) : option (json * list ascii) :=
  let '(neg, s1) :=
    match s with
    | c :: r => if code c =? 45 then (true, r) else (false, s)
    | [] => (false, s)
    end in
  let intPart :=
    match s1 with
    | c :: r =>
        if code c =? 48 then Some ([c], r)
        else if isDigit c then Some (spanDigits s1)
        else None
    | [] => None
    end in
  match intPart with
  | None => None
  | Some (ip, s2) =>
      let frac :=
        match s2 with
        | c :: r =>
            if code c =? 46 then
              match spanDigits r with
              | ([], _) => None
              | (fd, s3) => Some (fd, s3)
              end
            else Some ([], s2)
        | [] => Some ([], s2)
        end in
      match frac with
      | None => None
      | Some (fd, s3) =>
          let ex :=
            match s3 with
            | c :: r =>
                if (code c =? 101) || (code c =? 69) then
                  let '(eneg, r1) :=
                    match r with
                    | g :: r' =>
                        if code g =? 45 then (true, r')
                        else if code g =? 43 then (false, r')
                        else (false, r)
                    | [] => (false, r)
                    end in
                  match spanDigits r1 with
                  | ([], _) => None
                  | (ed, s4) =>
                      Some ((if eneg then - digitsVal ed else digitsVal ed), s4)
                  end
                else Some (0, s3)
            | [] => Some (0, s3)
            end in
          match ex with
          | None => None
          | Some (e, s4) =>
              let m := digitsVal (ip ++ fd) in
              Some (JNum (if neg then - m else m) (e - Z.of_nat (List.length fd)), s4)
          end
      end
  end.

(** What is left of [s] after the characters of [p], when [s] starts with
    them. *)
Fixpoint stripPrefix (p s : list ascii) : option (list ascii) :=
  match p, s with
  | [], _ => Some s
  | _ :: _, [] => None
  | a :: p', b :: s' => if Ascii.eqb a b then stripPrefix p' s' else None
  end.

(** The literals [true], [false] and [null]. *)
Definition parseLiteral (s : list ascii) : option (json * list ascii) :=
  match stripPrefix (list_ascii_of_string "true") s with
  | Some rest => Some (JBool true, rest)
  | None =>
      match stripPrefix (list_ascii_of_string "false") s with
      | Some rest => Some (JBool false, rest)
      | None =>
          match stripPrefix (list_ascii_of_string "null") s with
          | Some rest => Some (JNull, rest)
          | None => None
          end
      end
  end.

(** Recursive descent on the grammar of ECMA-404.  Every call spends one unit
    of [fuel]; [JSON_parse] supplies more than any text can use. *)
Fixpoint parseValue (fuel : nat) (s : list ascii) {struct fuel}
  : option (json * list ascii) :=
  match fuel with
  | O => None
  | S f =>
      match skipWs s with
      | [] => None
      | c :: r =>
          if code c =? 123 then                       (* opening brace *)
            match skipWs r with
            | c1 :: r1 =>
                if code c1 =? 125 then Some (JObj [], r1)
                else
                  match parseMembers f (c1 :: r1) with
                  | Some (fs, rest) => Some (JObj fs, rest)
                  | None => None
                  end
            | [] => None
            end
          else if code c =? 91 then                   (* opening bracket *)
            match skipWs r with
            | c1 :: r1 =>
                if code c1 =? 93 then Some (JArr [], r1)
                else
                  match parseElems f (c1 :: r1) with
                  | Some (vs, rest) => Some (JArr vs, rest)
                  | None => None
                  end
            | [] => None
            end
          else if code c =? 34 then
            match parseStr None r with
            | Some (cs, rest) => Some (JStr (string_of_list_ascii cs), rest)
            | None => None
            end
          else if (code c =? 45) || isDigit c then parseNumber (c :: r)
          else parseLiteral (c :: r)
      end
  end

with parseElems (fuel : nat) (s : list ascii) {struct fuel}
  : option (list json * list ascii) :=
  match fuel with
  | O => None
  | S f =>
      match parseValue f s with
      | None => None
      | Some (v, r) =>
          match skipWs r with
          | c :: r1 =>
              if code c =? 44 then
                match parseElems f r1 with
                | Some (vs, rest) => Some (v :: vs, rest)
                | None => None
                end
              else if code c =? 93 then Some ([v], r1)
              else None
          | [] => None
          end
      end
  end

with parseMembers (fuel : nat) (s : list ascii) {struct fuel}
  : option (list (string * json) * list ascii) :=
  match fuel with
  | O => None
  | S f =>
      match skipWs s with
      | q :: r =>
          if code q =? 34 then
            match parseStr None r with
            | None => None
            | Some (k, r1) =>
                match skipWs r1 with
                | c :: r2 =>
                    if code c =? 58 then
                      match parseValue f r2 with
                      | None => None
                      | Some (v, r3) =>
                          match skipWs r3 with
                          | d :: r4 =>
                              if code d =? 44 then
                                match parseMembers f r4 with
                                | Some (fs, rest) =>
                                    Some ((string_of_list_ascii k, v) :: fs, rest)
                                | None => None
                                end
                              else if code d =? 125
                                   then Some ([(string_of_list_ascii k, v)], r4)
                              else None
                          | [] => None
                          end
                      end
                    else None
                | [] => None
                end
            end
          else None
      | [] => None
      end
  end.

(** [JSON.parse(text)]; [None] when it throws [SyntaxError]. *)
Definition JSON_parse (text : list ascii) : option json :=
  match parseValue (2 * List.length text + 2) text with
  | Some (v, rest) =>
      match skipWs rest with
      | [] => Some v
      | _ :: _ => None
      end
  | None => None
  end.

(** ** Property access and truthiness *)

(** The value of own property [k] of a parsed object: the last member of
    that name. *)
Fixpoint lookupLast (k : string) (fs : list (string * json)) : option json :=
  match fs with
  | [] => None
  | (k', v) :: r =>
      match lookupLast k r with
      | Some x => Some x
      | None => if String.eqb k k' then Some v else None
      end
  end.

(** [data.k] for a value that is neither [null] nor [undefined], and [k]
    one of [p], [op], [tick], [max], [lim], [amt] (none of which a
    prototype defines); [None] is [undefined]. *)
Definition getField (data : json) (k : string) : option json :=
  match data with
  | JObj fs => lookupLast k fs
  | _ => None
  end.

(** The literal [m * 10^e] rounds to the double zero. *)
Definition numIsZero (m e : Z) : bool :=
  (m =? 0) || ((e <? 0) && (Z.abs m * 2 ^ 1075 <=? 10 ^ (- e))).

Definition truthy (v : option json) : bool :=
  match v with
  | None => false
  | Some JNull => false
  | Some (JBool b) => b
  | Some (JNum m e) => negb (numIsZero m e)
  | Some (JStr s) => negb (String.eqb s "")
  | Some (JArr _) => true
  | Some (JObj _) => true
  end.

(** [v === 'lit']. *)
Definition isStr (v : option json) (lit : string) : bool :=
  match v with
  | Some (JStr s) => String.eqb s lit
  | _ => false
  end.

(** [v || dflt]. *)
Definition orElse (v : option json) (dflt : json) : json :=
  match v with
  | Some x => if truthy v then x else dflt
  | None => dflt
  end.

(** [`${v}`] throws [TypeError]: a parsed object that has an own [toString]
    member (no JSON value is callable, and the inherited [valueOf] returns
    the object itself), or an array that holds such an object. *)
Fixpoint toStringThrows (v : json) : bool :=
  match v with
  | JObj fs => match lookupLast "toString" fs with Some _ => true | None => false end
  | JArr l => existsb toStringThrows l
  | _ => false
  end.

Definition interpolationThrows (v : option json) : bool :=
  match v with
  | Some x => toStringThrows x
  | None => false
  end.

(** ** The database *)

(** What a TEXT column holds after a parameter was bound to it: SQL NULL, the
    text of a JavaScript string, or the driver's rendering of some other
    JavaScript value, which this development does not interpret. *)
Inductive cell : Type :=
| Null
| Text (s : string)
| Bound (v : json).

Definition bindParam (v : json) : cell :=
  match v with
  | JStr s => Text s
  | _ => Bound v
  end.

(** Table [tokens]: [tick] is the primary key, [deploy_txid] is UNIQUE. *)
Record token : Type := mkToken {
  tick : string;
  name : option string;
  max_supply : cell;
  mint_limit : cell;
  deploy_txid : string;
  deploy_block : Z;
  deploy_address : string
}.

(** Table [transactions]: [txid] is UNIQUE; [raw_json] is the value whose
    [JSON.stringify] text the column stores. *)
Record transaction : Type := mkTransaction {
  txid : string;
  block_height : Z;
  block_hash : string;
  operation : string;
  tx_tick : string;
  amount : cell;
  from_address : string;
  to_address : string;
  raw_json : json;
  service_fee_amount : string;
  is_blackdoge_tx : bool;
  is_valid : bool
}.

(** Table [site_transactions]. *)
Record site_transaction : Type := mkSite {
  site_txid : string;
  site_tick : string;
  site_amount : string;
  site_operation : string;
  user_address : string;
  service_fee_paid : string;
  source : string
}.

(** Table [balances]. *)
Record balance_row : Type := mkBalance {
  address : string;
  bal_tick : string;
  balance : string
}.

(** Table [verification_stats]. *)
Record verification : Type := mkVerification {
  v_tick : string;
  site_count : Z;
  blockchain_count : Z;
  is_verified : bool;
  discrepancy_details : option string
}.

(** The database; [indexer_state] is the single row with [id = 1], if any:
    [(last_block_height, last_block_hash)]. *)
Record db : Type := mkDb {
  tokens : list token;
  transactions : list transaction;
  site_transactions : list site_transaction;
  balances : list balance_row;
  indexer_state : option (Z * string);
  verification_stats : list verification
}.

Definition withTokens (d : db) (ts : list token) : db :=
  mkDb ts (transactions d) (site_transactions d) (balances d)
       (indexer_state d) (verification_stats d).

Definition withTransactions (d : db) (xs : list transaction) : db :=
  mkDb (tokens d) xs (site_transactions d) (balances d)
       (indexer_state d) (verification_stats d).

Definition withIndexerState (d : db) (s : option (Z * string)) : db :=
  mkDb (tokens d) (transactions d) (site_transactions d) (balances d)
       s (verification_stats d).

Definition withVerificationStats (d : db) (vs : list verification) : db :=
  mkDb (tokens d) (transactions d) (site_transactions d) (balances d)
       (indexer_state d) vs.

(** [SELECT tick FROM tokens WHERE tick = ?] finds a row. *)
Definition hasToken (ts : list token) (t : string) : bool :=
  existsb (fun r => String.eqb (tick r) t) ts.

(** [INSERT OR IGNORE INTO tokens]: the row is skipped when its [tick] or its
    [deploy_txid] is already taken. *)
Definition insertOrIgnoreToken (ts : list token) (r : token) : list token :=
  if existsb (fun o => String.eqb (tick o) (tick r)
                       || String.eqb (deploy_txid o) (deploy_txid r)) ts
  then ts else ts ++ [r].

(** [INSERT OR IGNORE INTO transactions]: the row is skipped when its [txid]
    is already taken. *)
Definition insertOrIgnoreTransaction (xs : list transaction) (r : transaction)
  : list transaction :=
  if existsb (fun o => String.eqb (txid o) (txid r)) xs then xs else xs ++ [r].

(** ** What the node returns *)

Record scriptPubKey : Type := mkScript {
  type_ : string;
  hex : string
}.

Record tx : Type := mkTx {
  tx_id : string;
  vout : list (option scriptPubKey)
}.

Record block : Type := mkBlock {
  hash : string;
  previousblockhash : string;
  block_tx : list tx
}.

(** [getblockcount], and [getblockhash] followed by [getblock]; [None] when
    the command fails or its output does not parse. *)
Record chain : Type := mkChain {
  getblockcount : option Z;
  blockAt : Z -> option block
}.

(** ** The scanner script *)

Module Scanner.

(** The prefix test of [parseDRC20FromHex]: the hex that is left to decode,
    or [None] where the function returns [null] at once.  A script that does
    not start with [6a] is decoded whole. *)
Definition stripPush (opReturnHex : string) : option string :=
  if startsWith "6a" opReturnHex then
    let dataHex := slice 2 opReturnHex in
    match parseInt16 (sliceTo 2 dataHex) with
    | Some lengthByte =>
        if lengthByte <=? 75 then Some (slice 2 dataHex)
        else if lengthByte =? 76 then Some (slice 4 dataHex)
        else None
    | None => None
    end
  else Some opReturnHex.

(** [parseDRC20FromHex]; [None] is [null].  [JSON.parse] failing and
    [data.p] on [null] both throw into the [catch], which returns [null]. *)
Definition parseDRC20FromHex (opReturnHex : string) : option json :=
  match stripPush opReturnHex with
  | None => None
  | Some dataHex =>
      match JSON_parse (utf8ToString (bufferFromHex dataHex)) with
      | None => None
      | Some data =>
          if isStr (getField data "p") "drc-20"
             && truthy (getField data "op")
             && truthy (getField data "tick")
          then Some data else None
      end
  end.

(** [isTokenDeployed]; [tick.toUpperCase()] throws on anything but a string,
    and the [catch] answers [false], unless its own log line throws on the
    tick: that exception reaches the [catch] of [saveTransaction]. *)
Definition isTokenDeployed (d : db) (t : option json) : bool :=
  match t with
  | Some (JStr s) => hasToken (tokens d) (toUpperCase s)
  | _ => false
  end.

(** [saveTransaction(blockHeight, txid, drc20Data, opReturnHex)]: the
    database afterwards and the boolean returned. *)
Definition saveTransaction (d : db) (blockHeight : Z) (txid : string)
    (drc20Data : json) : db * bool :=
  if isStr (getField drc20Data "op") "deploy" then
    match getField drc20Data "tick" with
    | Some (JStr t) =>
        (withTokens d
           (insertOrIgnoreToken (tokens d)
              (mkToken (toUpperCase t) None
                 (bindParam (orElse (getField drc20Data "max") (JStr "0")))
                 (bindParam (orElse (getField drc20Data "lim") (JStr "0")))
                 txid blockHeight "")),
         true)
    | _ => (d, false)
    end
  else if isStr (getField drc20Data "op") "mint"
          && isTokenDeployed d (getField drc20Data "tick") then
    match getField drc20Data "tick" with
    | Some (JStr t) =>
        (withTransactions d
           (insertOrIgnoreTransaction (transactions d)
              (mkTransaction txid blockHeight "" "mint" (toUpperCase t)
                 (bindParam (orElse (getField drc20Data "amt") (JStr "0")))
                 "" "" drc20Data "0" false true)),
         negb (interpolationThrows (getField drc20Data "amt")))
    | _ => (d, false)
    end
  else
    (d, negb (isStr (getField drc20Data "op") "mint"
              && interpolationThrows (getField drc20Data "tick"))).

(** An entry of the list [scanBlockRange] returns. *)
Record found : Type := mkFound {
  f_blockHeight : Z;
  f_txid : string;
  f_data : json;
  f_hex : string
}.

(** The progress line after a save interpolates [op], [tick] and
    [amt || '']; when that throws, the rest of the block is abandoned. *)
Definition logThrows (drc20Data : json) : bool :=
  interpolationThrows (getField drc20Data "op")
  || interpolationThrows (getField drc20Data "tick")
  || interpolationThrows (getField drc20Data "amt").

(** The inner loop over [tx.vout]; the boolean tells that an exception left
    the loop. *)
Fixpoint scanVouts (blockHeight : Z) (txid : string)
    (vs : list (option scriptPubKey)) (st : db * list found)
  : db * list found * bool :=
  match vs with
  | [] => (st, false)
  | v :: rest =>
      match v with
      | Some spk =>
          if String.eqb (type_ spk) "nulldata" && negb (String.eqb (hex spk) "")
          then
            match parseDRC20FromHex (hex spk) with
            | Some drc20Data =>
                let st' :=
                  (fst (saveTransaction (fst st) blockHeight txid drc20Data),
                   snd st ++ [mkFound blockHeight txid drc20Data (hex spk)]) in
                if logThrows drc20Data then (st', true)
                else scanVouts blockHeight txid rest st'
            | None => scanVouts blockHeight txid rest st
            end
          else scanVouts blockHeight txid rest st
      | None => scanVouts blockHeight txid rest st
      end
  end.

(** The loop over [block.tx]. *)
Fixpoint scanTxs (blockHeight : Z) (ts : list tx) (st : db * list found)
  : db * list found * bool :=
  match ts with
  | [] => (st, false)
  | t :: rest =>
      match scanVouts blockHeight (tx_id t) (vout t) st with
      | (st', true) => (st', true)
      | (st', false) => scanTxs blockHeight rest st'
      end
  end.

(** One turn of the loop of [scanBlockRange]: the body is a [try] whose
    [catch] only logs, so a block that cannot be fetched, and the rest of a
    block after an exception, are passed over. *)
Definition scanBlock (c : chain) (blockHeight : Z) (st : db * list found)
  : db * list found :=
  match blockAt c blockHeight with
  | None => st
  | Some b => fst (scanTxs blockHeight (block_tx b) st)
  end.

(** The payloads a pass over [vs] hands to [saveTransaction], in order, and
    whether the pass ends in an exception.  They depend on the outputs
    only, not on the database. *)
Fixpoint voutsFound (blockHeight : Z) (txid : string)
    (vs : list (option scriptPubKey)) : list found * bool :=
  match vs with
  | [] => ([], false)
  | v :: rest =>
      match v with
      | Some spk =>
          if String.eqb (type_ spk) "nulldata" && negb (String.eqb (hex spk) "")
          then
            match parseDRC20FromHex (hex spk) with
            | Some drc20Data =>
                let e := mkFound blockHeight txid drc20Data (hex spk) in
                if logThrows drc20Data then ([e], true)
                else (e :: fst (voutsFound blockHeight txid rest),
                      snd (voutsFound blockHeight txid rest))
            | None => voutsFound blockHeight txid rest
            end
          else voutsFound blockHeight txid rest
      | None => voutsFound blockHeight txid rest
      end
  end.

Fixpoint txsFound (blockHeight : Z) (ts : list tx) : list found * bool :=
  match ts with
  | [] => ([], false)
  | t :: rest =>
      match voutsFound blockHeight (tx_id t) (vout t) with
      | (l, true) => (l, true)
      | (l, false) =>
          (l ++ fst (txsFound blockHeight rest), snd (txsFound blockHeight rest))
      end
  end.

(** The payloads of the block at [blockHeight] that reach
    [saveTransaction]. *)
Definition blockFound (c : chain) (blockHeight : Z) : list found :=
  match blockAt c blockHeight with
  | None => []
  | Some b => fst (txsFound blockHeight (block_tx b))
  end.

(** The rows [saveTransaction] builds. *)
Definition deployRow (blockHeight : Z) (txid : string) (drc20Data : json)
    (u : string) : token :=
  mkToken u None
    (bindParam (orElse (getField drc20Data "max") (JStr "0")))
    (bindParam (orElse (getField drc20Data "lim") (JStr "0")))
    txid blockHeight "".

Definition mintRow (blockHeight : Z) (txid : string) (drc20Data : json)
    (u : string) : transaction :=
  mkTransaction txid blockHeight "" "mint" u
    (bindParam (orElse (getField drc20Data "amt") (JStr "0")))
    "" "" drc20Data "0" false true.

(** The saves of a list of payloads, one after the other. *)
Definition applyFound (d : db) (fs : list found) : db :=
  fold_left
    (fun acc f => fst (saveTransaction acc (f_blockHeight f) (f_txid f) (f_data f)))
    fs d.

(** The tick a deploy registers, and the tick a mint names, upper-cased. *)
Definition deployTick (drc20Data : json) : option string :=
  if isStr (getField drc20Data "op") "deploy" then
    match getField drc20Data "tick" with
    | Some (JStr t) => Some (toUpperCase t)
    | _ => None
    end
  else None.

Definition mintTick (drc20Data : json) : option string :=
  if isStr (getField drc20Data "op") "mint" then
    match getField drc20Data "tick" with
    | Some (JStr t) => Some (toUpperCase t)
    | _ => None
    end
  else None.

(** The three shapes of a save, for case analysis. *)
Inductive saveShape (d : db) (h : Z) (x : string) (data : json) : db -> Prop :=
| ShapeDeploy u :
    deployTick data = Some u -> mintTick data = None ->
    saveShape d h x data
      (withTokens d (insertOrIgnoreToken (tokens d) (deployRow h x data u)))
| ShapeMint u :
    deployTick data = None -> mintTick data = Some u ->
    hasToken (tokens d) u = true ->
    saveShape d h x data
      (withTransactions d
         (insertOrIgnoreTransaction (transactions d) (mintRow h x data u)))
| ShapeSkip :
    deployTick data = None ->
    (forall u, mintTick data = Some u -> hasToken (tokens d) u = false) ->
    saveShape d h x data d.



(** A row with the tick or the deploy transaction of [r] is there. *)
Definition tokenClash (ts : list token) (r : token) : bool :=
  existsb (fun o => String.eqb (tick o) (tick r)
                    || String.eqb (deploy_txid o) (deploy_txid r)) ts.

(** A row with transaction id [x] is there. *)
Definition hasTx (xs : list transaction) (x : string) : bool :=
  existsb (fun o => String.eqb (txid o) x) xs.

(** [d'] holds the rows of [d] and possibly more, after them. *)
Definition extends (d d' : db) : Prop :=
  (exists ts, tokens d' = tokens d ++ ts)
  /\ (exists xs, transactions d' = transactions d ++ xs).



(** Two nodes that report the same tip and, at every height, the same list of
    transactions; the hashes of their blocks are free to differ. *)
Definition sameTransactions (c c' : chain) : Prop :=
  getblockcount c = getblockcount c'
  /\ forall h, option_map block_tx (blockAt c h) = option_map block_tx (blockAt c' h).

(** The tables the scanner writes. *)
Definition sameLedger (d d' : db) : Prop :=
  tokens d = tokens d' /\ transactions d = transactions d'.

(** [n] turns of the loop, from height [h] upwards. *)
Fixpoint scanFrom (c : chain) (n : nat) (h : Z) (st : db * list found)
  : db * list found :=
  match n with
  | O => st
  | S k => scanFrom c k (h + 1) (scanBlock c h st)
  end.

(** The payloads of [n] blocks from height [h] upwards that reach
    [saveTransaction]. *)
Fixpoint rangeFound (c : chain) (n : nat) (h : Z) : list found :=
  match n with
  | O => []
  | S k => blockFound c h ++ rangeFound c k (h + 1)
  end.

(** [scanBlockRange(startBlock, endBlock)]. *)
Definition scanBlockRange (c : chain) (d : db) (startBlock endBlock : Z)
  : db * list found :=
  scanFrom c (Z.to_nat (endBlock - startBlock + 1)) startBlock (d, []).

(** [getLastProcessedBlock]: the height only. *)
Definition getLastProcessedBlock (d : db) : option Z :=
  match indexer_state d with
  | Some (h, _) => Some h
  | None => None
  end.

(** [updateLastProcessedBlock(height)]: the hash written is the empty
    string. *)
Definition updateLastProcessedBlock (d : db) (height : Z) : db :=
  withIndexerState d (Some (height, "")).

(** [initialScan].  A stored height of [0] is falsy and counts as a first
    run. *)
Definition initialScan (c : chain) (d : db) : db :=
  match getblockcount c with
  | None => d
  | Some currentHeight =>
      let startBlock :=
        match getLastProcessedBlock d with
        | Some lastProcessed =>
            if lastProcessed =? 0 then Z.max 5700000 (currentHeight - 5000)
            else lastProcessed + 1
        | None => Z.max 5700000 (currentHeight - 5000)
        end in
      if startBlock <=? currentHeight then
        updateLastProcessedBlock
          (fst (scanBlockRange c d startBlock currentHeight)) currentHeight
      else d
  end.

(** One turn of the loop of [continuousMonitoring] (between two sleeps). *)
Definition monitorStep (c : chain) (d : db) : db :=
  match getblockcount c with
  | None => d
  | Some currentHeight =>
      let lastProcessed :=
        match getLastProcessedBlock d with
        | Some h => if h =? 0 then currentHeight - 1 else h
        | None => currentHeight - 1
        end in
      if lastProcessed <? currentHeight then
        updateLastProcessedBlock
          (fst (scanBlockRange c d (lastProcessed + 1) currentHeight))
          currentHeight
      else d
  end.

End Scanner.

(** ** The indexer class *)

Module Indexer.

(** [parseDRC20Json]; [None] is [null]. *)
Definition parseDRC20Json (opReturnHex : string) : option json :=
  let jsonHex := slice 4 opReturnHex in
  match JSON_parse (utf8ToString (bufferFromHex jsonHex)) with
  | None => None
  | Some parsed =>
      if isStr (getField parsed "p") "drc20"
         && (isStr (getField parsed "op") "deploy"
             || isStr (getField parsed "op") "mint")
      then Some parsed else None
  end.

(** [getLastProcessedBlock] of the class: height and hash. *)
Definition getLastProcessedBlock (d : db) : option (Z * string) :=
  indexer_state d.

(** [updateLastProcessedBlock(height, hash)] of the class. *)
Definition updateLastProcessedBlock (d : db) (height : Z) (h : string) : db :=
  withIndexerState d (Some (height, h)).

(** [getToken(tick)]. *)
Definition getToken (d : db) (t : string) : option token :=
  find (fun r => String.eqb (tick r) (toUpperCase t)) (tokens d).

(** *** Transaction counts *)

(** The distinct ticks in ascending byte order, the order in which SQLite's
    GROUP BY walks its groups. *)
Fixpoint insertTick (t : string) (l : list string) : list string :=
  match l with
  | [] => [t]
  | k :: r =>
      match String.compare t k with
      | Eq => l
      | Lt => t :: l
      | Gt => k :: insertTick t r
      end
  end.

Definition distinctTicks (ticks : list string) : list string :=
  fold_left (fun acc t => insertTick t acc) ticks [].

(** [COUNT( * )] of the group of [t]. *)
Definition countOf (t : string) (ticks : list string) : Z :=
  Z.of_nat (count_occ string_dec ticks t).

(** [SELECT tick, COUNT( * ) ... GROUP BY tick] over the ticks of the rows
    that pass the WHERE clause. *)
Definition groupCount (ticks : list string) : list (string * Z) :=
  map (fun t => (t, countOf t ticks)) (distinctTicks ticks).

(** The object [result], as its own properties in creation order; the value
    is [(site, blockchain)]. *)
Definition counts : Type := list (string * (Z * Z)).

Fixpoint getOwn (res : counts) (k : string) : option (Z * Z) :=
  match res with
  | [] => None
  | (k', v) :: r => if String.eqb k k' then Some v else getOwn r k
  end.

(** [result[k] = v] for a key other than [__proto__]. *)
Fixpoint setOwn (res : counts) (k : string) (v : Z * Z) : counts :=
  match res with
  | [] => [(k, v)]
  | (k', v') :: r =>
      if String.eqb k k' then (k', v) :: r else (k', v') :: setOwn r k v
  end.

(** The data properties every object inherits from [Object.prototype]; each
    is a function, hence truthy. *)
Definition inheritedNames : list string :=
  [ "constructor"; "__defineGetter__"; "__defineSetter__"; "hasOwnProperty";
    "__lookupGetter__"; "__lookupSetter__"; "isPrototypeOf";
    "propertyIsEnumerable"; "toString"; "valueOf"; "toLocaleString" ].

Definition addSite (res : counts) (row : string * Z) : counts :=
  setOwn res (fst row) (snd row, 0).

(** The second loop: a key the object does not own but inherits takes the
    [else] branch, which writes to the inherited function and leaves
    [result] as it is. *)
Definition addBlockchain (res : counts) (row : string * Z) : counts :=
  match getOwn res (fst row) with
  | Some (s, _) => setOwn res (fst row) (s, snd row)
  | None =>
      if existsb (String.eqb (fst row)) inheritedNames then res
      else setOwn res (fst row) (0, snd row)
  end.

(** The argument [tick?] is used when truthy. *)
Definition tickFilter (t : option string) : option string :=
  match t with
  | Some s => if String.eqb s "" then None else Some (toUpperCase s)
  | None => None
  end.

Definition passes (f : option string) (t : string) : bool :=
  match f with
  | Some u => String.eqb t u
  | None => true
  end.

(** The ticks the two queries group, when no filter is given. *)
Definition siteTicks (d : db) : list string :=
  map site_tick (site_transactions d).

Definition chainTicks (d : db) : list string :=
  map tx_tick (filter is_blackdoge_tx (transactions d)).

(** The own properties of [result] when no tick is [__proto__]: the two
    loops on the list alone. *)
Definition plainCounts (d : db) (t : option string) : counts :=
  let f := tickFilter t in
  let siteCounts :=
    groupCount (filter (passes f) (map site_tick (site_transactions d))) in
  let blockchainCounts :=
    groupCount
      (filter (passes f)
         (map tx_tick (filter is_blackdoge_tx (transactions d)))) in
  fold_left addBlockchain blockchainCounts (fold_left addSite siteCounts []).

(** The object [result] and what lies behind it.  [own] are its own
    properties.  An assignment to the key [__proto__] creates no property: it
    runs the setter of [Object.prototype], which makes the assigned object
    [{ site, blockchain }] the prototype of [result]; [replaced] holds that
    object.  Reading [result.__proto__] gives the prototype, so the second
    loop writes [blockchain] into the replacing object or, when there is
    none, into [Object.prototype] itself; [polluted] holds that value.  The
    process is taken with [Object.prototype] as the engine makes it. *)
Record resultObject : Type := mkResultObject {
  own : counts;
  replaced : option (Z * Z);
  polluted : option Z
}.

Definition withOwn (o : resultObject) (res : counts) : resultObject :=
  mkResultObject res (replaced o) (polluted o).

(** The first loop: [result[row.tick] = { site: row.count, blockchain: 0 }]. *)
Definition addSiteTo (o : resultObject) (row : string * Z) : resultObject :=
  if String.eqb (fst row) "__proto__"
  then mkResultObject (own o) (Some (snd row, 0)) (polluted o)
  else withOwn o (addSite (own o) row).

(** A number that [result] inherits under the key [k]. *)
Definition inheritedNumber (o : resultObject) (k : string) : option Z :=
  match replaced o with
  | Some (s, b) =>
      if String.eqb k "site" then Some s
      else if String.eqb k "blockchain" then Some b
      else None
  | None => if String.eqb k "blockchain" then polluted o else None
  end.

(** The second loop.  [None] is the [TypeError] of the [else] branch when
    [result[row.tick]] is an inherited number other than [0]: the file is a
    module, hence strict code, where a property cannot be set on a number. *)
Definition addBlockchainTo (o : resultObject) (row : string * Z)
  : option resultObject :=
  if String.eqb (fst row) "__proto__" then
    match replaced o with
    | Some (s, _) => Some (mkResultObject (own o) (Some (s, snd row)) (polluted o))
    | None => Some (mkResultObject (own o) None (Some (snd row)))
    end
  else
    match getOwn (own o) (fst row), inheritedNumber o (fst row) with
    | None, Some n =>
        if n =? 0 then Some (withOwn o (setOwn (own o) (fst row) (0, snd row)))
        else None
    | _, _ => Some (withOwn o (addBlockchain (own o) row))
    end.

(** A turn of the second loop; on the right, the loop was left by the
    exception, and [Object.prototype.blockchain] is what it was then. *)
Definition chainStep (acc : resultObject + option Z) (row : string * Z)
  : resultObject + option Z :=
  match acc with
  | inl o =>
      match addBlockchainTo o row with
      | Some o' => inl o'
      | None => inr (polluted o)
      end
  | inr p => inr p
  end.

(** What the function returns: [result], or the new empty object of the
    [catch]. *)
Definition returnedObject (acc : resultObject + option Z) : resultObject :=
  match acc with
  | inl o => o
  | inr p => mkResultObject [] None p
  end.

(** [getTransactionCounts(tick?)]: the object returned. *)
Definition getTransactionCountsObject (d : db) (t : option string)
  : resultObject :=
  let f := tickFilter t in
  let siteCounts :=
    groupCount (filter (passes f) (map site_tick (site_transactions d))) in
  let blockchainCounts :=
    groupCount
      (filter (passes f)
         (map tx_tick (filter is_blackdoge_tx (transactions d)))) in
  returnedObject
    (fold_left chainStep blockchainCounts
       (inl (fold_left addSiteTo siteCounts (mkResultObject [] None None)))).

(** The own properties of the object [getTransactionCounts(tick?)]
    returns. *)
Definition getTransactionCounts (d : db) (t : option string) : counts :=
  own (getTransactionCountsObject d t).

(** The enumerable keys [result] inherits and does not own, in the order
    [for ... in] reaches them, after the own ones. *)
Definition inheritedKeys (o : resultObject) : list string :=
  filter (fun k => match getOwn (own o) k with Some _ => false | None => true end)
    match replaced o, polluted o with
    | Some _, _ => ["site"; "blockchain"]
    | None, Some _ => ["blockchain"]
    | None, None => []
    end.

(** A key that is an array index: a canonical decimal numeral at most
    [2^32 - 2]. *)
Definition arrayIndex (s : string) : option Z :=
  match list_ascii_of_string s with
  | [] => None
  | c :: r =>
      if forallb isDigit (c :: r)
         && (negb (code c =? 48) || match r with [] => true | _ => false end)
      then
        let v := digitsVal (c :: r) in
        if v <=? 4294967294 then Some v else None
      else None
  end.

Fixpoint insertByIndex (i : Z) (e : string * (Z * Z))
    (l : list (Z * (string * (Z * Z)))) : list (Z * (string * (Z * Z))) :=
  match l with
  | [] => [(i, e)]
  | (j, e') :: r =>
      if i <? j then (i, e) :: l else (j, e') :: insertByIndex i e r
  end.

(** The order in which [for (const tick in counts)] visits the properties:
    array indices in ascending numeric order, then the other keys in
    creation order. *)
Definition forIn (res : counts) : counts :=
  let indexed :=
    fold_left
      (fun acc e =>
         match arrayIndex (fst e) with
         | Some i => insertByIndex i e acc
         | None => acc
         end) res [] in
  map snd indexed
  ++ filter (fun e => match arrayIndex (fst e) with Some _ => false | None => true end) res.

(** [`${n}`] for an integer. *)
Definition decimal (n : Z) : string :=
  DecimalString.NilZero.string_of_int (Z.to_int n).

Record detail : Type := mkDetail {
  d_tick : string;
  siteCount : Z;
  blockchainCount : Z;
  isVerified : bool;
  discrepancy : Z
}.

(** The row one turn of the loop of [verifyTransactionCounts] inserts. *)
Definition verificationOf (e : string * (Z * Z)) : verification :=
  let '(t, (site, blockchain)) := e in
  let ok := site =? blockchain in
  mkVerification t site blockchain ok
    (if ok then None
     else Some ("Site: " ++ decimal site ++ ", Blockchain: " ++ decimal blockchain
                ++ ", Diff: " ++ decimal (site - blockchain))%string).

Definition detailOf (e : string * (Z * Z)) : detail :=
  let '(t, (site, blockchain)) := e in
  mkDetail t site blockchain (site =? blockchain) (site - blockchain).

(** [verifyTransactionCounts()]: the database afterwards, and the object
    returned ([verified], [details]).  The loop inserts a row for each own
    property.  At an inherited key [counts[tick]] is a number, [site] and
    [blockchain] are [undefined], the insert fails on [site_count], and the
    [catch] returns [{ verified: false, details: [] }]; the rows inserted
    before stay. *)
Definition verifyTransactionCounts (d : db) : db * (bool * list detail) :=
  let o := getTransactionCountsObject d None in
  let visited := forIn (own o) in
  let d' :=
    withVerificationStats d (verification_stats d ++ map verificationOf visited) in
  match inheritedKeys o with
  | [] =>
      (d', (forallb (fun e => fst (snd e) =? snd (snd e)) visited,
            map detailOf visited))
  | _ :: _ => (d', (false, []))
  end.

(** *** Token statistics *)

Definition INT64_MAX : Z := 9223372036854775807.
Definition INT64_MIN : Z := -9223372036854775808.

Definition clamp64 (z : Z) : Z := Z.max INT64_MIN (Z.min INT64_MAX z).

(** [CAST(text AS INTEGER)]: leading white space is skipped, then the longest
    prefix that reads as an integer is taken ([0] when there is none), and a
    value outside the 64-bit range becomes the nearest bound. *)
Definition castTextInteger (s : string) : Z :=
  let s1 := trimStart s in
  let '(neg, s2) :=
    match s1 with
    | String c r =>
        if code c =? 45 then (true, r)
        else if code c =? 43 then (false, r)
        else (false, s1)
    | EmptyString => (false, s1)
    end in
  let v := digitsVal (fst (spanDigits (list_ascii_of_string s2))) in
  clamp64 (if neg then - v else v).

Inductive castResult : Type :=
| CastNull
| CastInt (z : Z)
| CastUnknown.

Definition castInteger (c : cell) : castResult :=
  match c with
  | Null => CastNull
  | Text s => CastInt (castTextInteger s)
  | Bound _ => CastUnknown
  end.

(** The state of the aggregate [SUM] over integers: no value yet, a running
    total, the integer-overflow error, or a value this development does not
    interpret. *)
Inductive sumState : Type :=
| SumEmpty
| SumTotal (z : Z)
| SumOverflow
| SumUnknown.

Definition sumStep (st : sumState) (c : castResult) : sumState :=
  match st, c with
  | SumUnknown, _ => SumUnknown
  | _, CastUnknown => SumUnknown
  | SumOverflow, _ => SumOverflow
  | _, CastNull => st
  | SumEmpty, CastInt z => SumTotal z
  | SumTotal a, CastInt z =>
      if (INT64_MIN <=? a + z) && (a + z <=? INT64_MAX)
      then SumTotal (a + z) else SumOverflow
  end.

(** A 64-bit integer column value as the JavaScript number the driver
    returns: the nearest double, ties to even. *)
Definition toDouble (z : Z) : Z :=
  let a := Z.abs z in
  if a <=? 2 ^ 53 then z
  else
    let k := Z.log2 a - 52 in
    let q := Z.shiftr a k in
    let r := a - Z.shiftl q k in
    let half := Z.shiftl 1 (k - 1) in
    let q' := if (half <? r) || ((r =? half) && Z.odd q) then q + 1 else q in
    Z.sgn z * Z.shiftl q' k.

Record stats : Type := mkStats {
  totalMinted : Z;
  totalTransactions : Z
}.

(** The rows both branches of [getTokenStats] select. *)
Definition mintRows (d : db) (t : string) : list transaction :=
  filter (fun r => String.eqb (tx_tick r) (toUpperCase t)
                   && String.eqb (operation r) "mint"
                   && is_valid r)
         (transactions d).

(** The number a string of decimal digits denotes, and the amount of a row
    as an unbounded integer when it is such a string. *)
Definition decimalValue (s : string) : option Z :=
  match list_ascii_of_string s with
  | [] => None
  | c :: r => if forallb isDigit (c :: r) then Some (digitsVal (c :: r)) else None
  end.

Definition exactAmount (r : transaction) : option Z :=
  match amount r with
  | Text s => decimalValue s
  | _ => None
  end.

(** [getTokenStats(tick)]; the two branches of the source run the same
    query.  An overflowing [SUM] raises, and the [catch] answers zeros.
    [None] when a selected row holds an amount that is not text. *)
Definition getTokenStats (d : db) (t : string) : option stats :=
  let rows := mintRows d t in
  match fold_left sumStep (map (fun r => castInteger (amount r)) rows) SumEmpty with
  | SumUnknown => None
  | SumOverflow => Some (mkStats 0 0)
  | SumEmpty => Some (mkStats 0 (Z.of_nat (List.length rows)))
  | SumTotal z => Some (mkStats (toDouble z) (Z.of_nat (List.length rows)))
  end.

End Indexer.

(** ** Concrete scripts and chains used below *)

Module Examples.

Definition emptyDb : db := mkDb [] [] [] [] None [].

Definition nulldata (h : string) : option scriptPubKey :=
  Some (mkScript "nulldata" h).

(** A node whose tip is [tip] and whose blocks are the listed ones. *)
Definition chainOf (tip : Z) (blocks : list (Z * block)) : chain :=
  mkChain (Some tip)
    (fun h =>
       match find (fun e => fst e =? h) blocks with
       | Some e => Some (snd e)
       | None => None
       end).

(** Direct push of 71 bytes:
    {"p":"drc-20","op":"deploy","tick":"DOGE","max":"1000000","lim":"1000"} *)
Definition deployDOGE : string :=
  "6a477b2270223a226472632d3230222c226f70223a226465706c6f79222c227469636b223a22444f4745222c226d6178223a2231303030303030222c226c696d223a2231303030227d".

(** Direct push of 68 bytes:
    {"p":"drc-20","op":"deploy","tick":"DOGE","max":"1000","lim":"1000"} *)
Definition deploySmall : string :=
  "6a447b2270223a226472632d3230222c226f70223a226465706c6f79222c227469636b223a22444f4745222c226d6178223a2231303030222c226c696d223a2231303030227d".

(** Direct push of 53 bytes:
    {"p":"drc-20","op":"mint","tick":"DOGE","amt":"1500"} *)
Definition mint1500 : string :=
  "6a357b2270223a226472632d3230222c226f70223a226d696e74222c227469636b223a22444f4745222c22616d74223a2231353030227d".

(** Direct push of 53 bytes:
    {"p":"drc-20","op":"mint","tick":"DOGE","amt":"1000"} *)
Definition mint1000 : string :=
  "6a357b2270223a226472632d3230222c226f70223a226d696e74222c227469636b223a22444f4745222c22616d74223a2231303030227d".

(** Direct push of 70 bytes:
    {"p":"drc-20","op":"mint","tick":"DOGE","amt":"100000000000000000000"} *)
Definition mintHuge : string :=
  "6a467b2270223a226472632d3230222c226f70223a226d696e74222c227469636b223a22444f4745222c22616d74223a22313030303030303030303030303030303030303030227d".

(** Direct push of 68 bytes:
    {"p":"drc-20","op":"mint","tick":"DOGE","amt":"9223372036854775807"} *)
Definition mintMax : string :=
  "6a447b2270223a226472632d3230222c226f70223a226d696e74222c227469636b223a22444f4745222c22616d74223a2239323233333732303336383534373735383037227d".

(** Direct push of 49 bytes:
    {"p":"drc-20","op":"mint","tick":"FOO","amt":"1"} *)
Definition mintFOO : string :=
  "6a317b2270223a226472632d3230222c226f70223a226d696e74222c227469636b223a22464f4f222c22616d74223a2231227d".

(** Direct push of 62 bytes:
    {"p":"drc-20","op":"deploy","tick":"FOO","max":"10","lim":"1"} *)
Definition deployFOO : string :=
  "6a3e7b2270223a226472632d3230222c226f70223a226465706c6f79222c227469636b223a22464f4f222c226d6178223a223130222c226c696d223a2231227d".

(** Direct push of 41 bytes: {"p":"drc-20","op":"deploy","tick":"NEW"} *)
Definition deployNoLim : string :=
  "6a297b2270223a226472632d3230222c226f70223a226465706c6f79222c227469636b223a224e4557227d".

(** Direct push of 51 bytes:
    {"p":"drc-20","op":"mint","tick":"NEW","amt":"abc"} *)
Definition mintAbc : string :=
  "6a337b2270223a226472632d3230222c226f70223a226d696e74222c227469636b223a224e4557222c22616d74223a22616263227d".

(** Direct push of 39 bytes: {"p":"drc-20","op":"mint","tick":"NEW"} *)
Definition mintNoAmt : string :=
  "6a277b2270223a226472632d3230222c226f70223a226d696e74222c227469636b223a224e4557227d".

(** Direct push of 52 bytes:
    {"p":"drc20","op":"mint","tick":"DOGE","amt":"1000"} *)
Definition mintTagDrc20 : string :=
  "6a347b2270223a226472633230222c226f70223a226d696e74222c227469636b223a22444f4745222c22616d74223a2231303030227d".

(** One-byte-length push (4c) of 84 bytes:
    {"p":"drc-20","op":"deploy","tick":"BIG","max":"100000000000000000000","lim":"1000"} *)
Definition deploy84 : string :=
  "6a4c547b2270223a226472632d3230222c226f70223a226465706c6f79222c227469636b223a22424947222c226d6178223a22313030303030303030303030303030303030303030222c226c696d223a2231303030227d".

(** What [mintFOO] decodes to. *)
Definition mintFOOData : json :=
  JObj [("p", JStr "drc-20"); ("op", JStr "mint"); ("tick", JStr "FOO");
        ("amt", JStr "1")].

(** What [mintTagDrc20] decodes to. *)
Definition mintTagDrc20Data : json :=
  JObj [("p", JStr "drc20"); ("op", JStr "mint"); ("tick", JStr "DOGE");
        ("amt", JStr "1000")].

(** What [deployNoLim] decodes to. *)
Definition deployNoLimData : json :=
  JObj [("p", JStr "drc-20"); ("op", JStr "deploy"); ("tick", JStr "NEW")].

(** What [deploy84] decodes to. *)
Definition deploy84Data : json :=
  JObj [("p", JStr "drc-20"); ("op", JStr "deploy"); ("tick", JStr "BIG");
        ("max", JStr "100000000000000000000"); ("lim", JStr "1000")].

Definition oneTx (id : string) (script : string) : tx :=
  mkTx id [nulldata script; Some (mkScript "pubkeyhash" "76a914000000000000000000000000000000000000000088ac")].

(** Block 5700000 deploys DOGE with limit 1000; block 5700001 mints 1500. *)
Definition chainOverLimit : chain :=
  chainOf 5700001
    [ (5700000, mkBlock "b0" "genesis" [oneTx "t0" deployDOGE]);
      (5700001, mkBlock "b1" "b0" [oneTx "t1" mint1500]) ].

(** Block 5700000 deploys DOGE with max 1000; block 5700001 mints 1000
    twice. *)
Definition chainOverSupply : chain :=
  chainOf 5700001
    [ (5700000, mkBlock "b0" "genesis" [oneTx "t0" deploySmall]);
      (5700001, mkBlock "b1" "b0" [oneTx "t1" mint1000; oneTx "t2" mint1000]) ].


(** One block: the deploy of FOO, then a mint of FOO. *)
Definition chainDeployFirst : chain :=
  chainOf 5700000
    [ (5700000, mkBlock "b0" "genesis" [oneTx "b" deployFOO; oneTx "a" mintFOO]) ].

(** One block holding a mint of FOO, which nobody deployed. *)
Definition chainUnknownTick : chain :=
  chainOf 5700000 [ (5700000, mkBlock "b0" "genesis" [oneTx "a" mintFOO]) ].

(** The checkpoint says block 5700000 with hash [b0]; the next block names
    another parent. *)
Definition dbAtB0 : db := mkDb [] [] [] [] (Some (5700000, "b0")) [].

Definition chainReorg : chain :=
  chainOf 5700001
    [ (5700001, mkBlock "c1" "c0" [oneTx "t1" deployFOO]) ].

(** The same node with the parent the checkpoint expects. *)
Definition chainNoReorg : chain :=
  chainOf 5700001
    [ (5700001, mkBlock "c1" "b0" [oneTx "t1" deployFOO]) ].

(** A deploy without [max] and [lim], then a mint whose [amt] is [abc]. *)
Definition chainLoose : chain :=
  chainOf 5700000
    [ (5700000, mkBlock "b0" "genesis" [oneTx "t0" deployNoLim; oneTx "t1" mintAbc]) ].

(** The payload of 84 bytes. *)
Definition chainLong : chain :=
  chainOf 5700000 [ (5700000, mkBlock "b0" "genesis" [oneTx "t0" deploy84]) ].

(** DOGE deployed, then one mint of 10^20. *)
Definition chainHuge : chain :=
  chainOf 5700000
    [ (5700000, mkBlock "b0" "genesis" [oneTx "t0" deployDOGE; oneTx "t1" mintHuge]) ].

(** DOGE deployed, then two mints of 2^63 - 1. *)
Definition chainTwoMax : chain :=
  chainOf 5700000
    [ (5700000,
       mkBlock "b0" "genesis"
         [oneTx "t0" deployDOGE; oneTx "t1" mintMax; oneTx "t2" mintMax]) ].

(** A database for the auditor: two site rows and one chain row for A, one
    site row and one chain row for B. *)
Definition chainRow (id t : string) : transaction :=
  mkTransaction id 1 "" "mint" t (Text "1") "" "" JNull "0.01" true true.

Definition siteRow (id t : string) : site_transaction :=
  mkSite id t "1" "mint" "addr" "0.01" "website".

Definition auditDb : db :=
  mkDb [mkToken "A" None (Text "10") (Text "1") "d" 1 ""]
       [chainRow "x1" "A"; chainRow "x2" "B"]
       [siteRow "s1" "A"; siteRow "s2" "B"; siteRow "s3" "A"]
       [mkBalance "addr" "A" "1"] (Some (7, "")) [].

End Examples.

(** ** Properties of a database the scanner keeps *)

Module Keeps.

(** The UNIQUE constraints of the two tables the scanner writes. *)
Definition uniqueKeys (d : db) : Prop :=
  NoDup (map tick (tokens d))
  /\ NoDup (map deploy_txid (tokens d))
  /\ NoDup (map txid (transactions d)).

(** Every stored tick is its own upper-case form. *)
Definition upperTicks (d : db) : Prop :=
  Forall (fun r => toUpperCase (tick r) = tick r) (tokens d)
  /\ Forall (fun r => toUpperCase (tx_tick r) = tx_tick r) (transactions d).

(** Every recorded transaction names a registered tick. *)
Definition mintsRegistered (d : db) : Prop :=
  Forall (fun r => hasToken (tokens d) (tx_tick r) = true) (transactions d).

(** No recorded transaction carries the flag [is_blackdoge_tx]. *)
Definition unflagged (d : db) : Prop :=
  Forall (fun r => is_blackdoge_tx r = false) (transactions d).

(** A character of the ASCII range, as the hex scripts of the node are
    made of. *)
Definition asciiChar (c : ascii) : bool := code c <? 128.

(** A string of ASCII characters.  On such a string [toUpperCase] above is
    JavaScript's. *)
Definition asciiString (s : string) : bool :=
  forallb asciiChar (list_ascii_of_string s).

(** The tick of the payload, when it is a string, is made of ASCII
    characters. *)
Definition asciiTick (drc20Data : json) : bool :=
  match getField drc20Data "tick" with
  | Some (JStr t) => asciiString t
  | _ => true
  end.

(** [startBlock] of [initialScan] for a tip [currentHeight]. *)
Definition startBlock (d : db) (currentHeight : Z) : Z :=
  match Scanner.getLastProcessedBlock d with
  | Some lastProcessed =>
      if lastProcessed =? 0 then Z.max 5700000 (currentHeight - 5000)
      else lastProcessed + 1
  | None => Z.max 5700000 (currentHeight - 5000)
  end.

(** A row of a count query whose tick is not [__proto__]. *)
Definition notProto (row : string * Z) : bool :=
  negb (String.eqb (fst row) "__proto__").

(** The key of the property is an array index. *)
Definition isIndexKey (e : string * (Z * Z)) : bool :=
  match Indexer.arrayIndex (fst e) with Some _ => true | None => false end.

End Keeps.

(** ** More scripts *)

Module MoreExamples.

(** Direct push of 48 bytes:
    {"p":"drc-20","op":"mint","tick":{"toString":1}} *)
Definition mintOddTick : string :=
  "6a307b2270223a226472632d3230222c226f70223a226d696e74222c227469636b223a7b22746f537472696e67223a317d7d".

(** What [mintOddTick] decodes to. *)
Definition mintOddTickData : json :=
  JObj [("p", JStr "drc-20"); ("op", JStr "mint");
        ("tick", JObj [("toString", JNum 1 0)])].

(** What [deployFOO] decodes to. *)
Definition deployFOOData : json :=
  JObj [("p", JStr "drc-20"); ("op", JStr "deploy"); ("tick", JStr "FOO");
        ("max", JStr "10"); ("lim", JStr "1")].

(** Direct push of 57 bytes, the deploy of the README's atomic deploy and
    mint: {"p":"drc-20","op":"deploy","tick":"NEW","max":"1000000"} *)
Definition deployMaxOnly : string :=
  "6a397b2270223a226472632d3230222c226f70223a226465706c6f79222c227469636b223a224e4557222c226d6178223a2231303030303030227d".

(** What [deployMaxOnly] decodes to. *)
Definition deployMaxOnlyData : json :=
  JObj [("p", JStr "drc-20"); ("op", JStr "deploy"); ("tick", JStr "NEW");
        ("max", JStr "1000000")].


End MoreExamples.

(** * Facts about the JSON reader *)

Lemma skipWs_le s : (List.length (skipWs s) <= List.length s)%nat.
Proof.
  induction s as [|c r IH]; cbn [skipWs]; [lia|].
  destruct (isJsonWs c); cbn [List.length]; lia.
Qed.

Lemma emit_Some pre res out rest :
  emit pre res = Some (out, rest) -> exists out', res = Some (out', rest).
Proof.
  unfold emit. destruct res as [[o r]|]; [|discriminate].
  intros H; injection H as _ <-. now exists o.
Qed.

Lemma parseStr_le n : forall s hi out rest,
  (List.length s <= n)%nat -> parseStr hi s = Some (out, rest) ->
  (List.length rest <= List.length s)%nat.
Proof.
  induction n as [|n IH]; intros s hi out rest Hn H.
  - destruct s; [discriminate | cbn in Hn; lia].
  - destruct s as [|c r]; [discriminate|]. cbn [parseStr] in H. cbn [List.length] in *.
    destruct (code c =? 34).
    + injection H as _ <-. lia.
    + destruct (code c =? 92).
      * destruct r as [|e r1]; [discriminate|]. cbn [List.length] in *.
        destruct (code e =? 117).
        -- destruct r1 as [|a [|b [|c' [|d r2]]]]; try discriminate.
           cbn [List.length] in *.
           destruct (hex4 a b c' d) as [cu|]; [|discriminate].
           assert (Hr2 : forall hi' pre, emit pre (parseStr hi' r2) = Some (out, rest) ->
                     (List.length rest <= List.length r2)%nat).
           { intros hi' pre E. apply emit_Some in E as [o E].
             eapply IH; [|exact E]. lia. }
           destruct hi as [h|].
           ++ destruct ((56320 <=? cu) && (cu <=? 57343));
                [apply Hr2 in H; lia|].
              destruct ((55296 <=? cu) && (cu <=? 56319)); apply Hr2 in H; lia.
           ++ destruct ((55296 <=? cu) && (cu <=? 56319)).
              ** apply IH in H; lia.
              ** apply Hr2 in H; lia.
        -- destruct (simpleEscape e); [|discriminate].
           apply emit_Some in H as [o E]. apply IH in E; lia.
      * destruct (code c <? 32); [discriminate|].
        apply emit_Some in H as [o E]. apply IH in E; lia.
Qed.

Lemma spanDigits_le s : (List.length (snd (spanDigits s)) <= List.length s)%nat.
Proof.
  induction s as [|c r IH]; cbn [spanDigits]; [cbn; lia|].
  destruct (isDigit c); [|cbn; lia].
  destruct (spanDigits r) as [d rest]. cbn [snd List.length] in *. lia.
Qed.

Lemma parseNumber_le s v rest :
  parseNumber s = Some (v, rest) -> (List.length rest <= List.length s)%nat.
Proof.
  unfold parseNumber.
  set (sg := match s with
             | c :: r => if code c =? 45 then (true, r) else (false, s)
             | [] => (false, s)
             end).
  assert (Hs1 : (List.length (snd sg) <= List.length s)%nat).
  { subst sg. destruct s as [|c r]; [cbn; lia|]. destruct (code c =? 45); cbn; lia. }
  destruct sg as [neg s1]. cbn [snd] in Hs1.
  set (ip := match s1 with
             | c :: r => if code c =? 48 then Some ([c], r)
                         else if isDigit c then Some (spanDigits s1) else None
             | [] => None
             end).
  assert (Hip : forall d s2, ip = Some (d, s2) -> (List.length s2 <= List.length s1)%nat).
  { subst ip. intros d s2. destruct s1 as [|c r]; [discriminate|].
    destruct (code c =? 48).
    - intros H; injection H as _ <-. cbn; lia.
    - destruct (isDigit c); [|discriminate]. intros H; injection H as H.
      change (spanDigits (c :: r) = (d, s2)) in H.
      pose proof (spanDigits_le (c :: r)) as L. rewrite H in L. exact L. }
  destruct ip as [[d s2]|]; [|discriminate]. specialize (Hip d s2 eq_refl).
  set (fr := match s2 with
             | c :: r =>
                 if code c =? 46 then
                   match spanDigits r with
                   | ([], _) => None
                   | (fd, s3) => Some (fd, s3)
                   end
                 else Some ([], s2)
             | [] => Some ([], s2)
             end).
  assert (Hfr : forall fd s3, fr = Some (fd, s3) -> (List.length s3 <= List.length s2)%nat).
  { subst fr. intros fd s3. destruct s2 as [|c r]; [intros H; injection H as _ <-; lia|].
    destruct (code c =? 46); [|intros H; injection H as _ <-; lia].
    pose proof (spanDigits_le r) as L. destruct (spanDigits r) as [[|x xs] s3'];
      [discriminate|]. intros H; injection H as _ <-. cbn [snd List.length] in *. lia. }
  destruct fr as [[fd s3]|]; [|discriminate]. specialize (Hfr fd s3 eq_refl).
  set (ex := match s3 with
             | c :: r =>
                 if (code c =? 101) || (code c =? 69) then
                   let '(eneg, r1) :=
                     match r with
                     | g :: r' =>
                         if code g =? 45 then (true, r')
                         else if code g =? 43 then (false, r')
                         else (false, r)
                     | [] => (false, r)
                     end in
                   match spanDigits r1 with
                   | ([], _) => None
                   | (ed, s4) =>
                       Some ((if eneg then - digitsVal ed else digitsVal ed), s4)
                   end
                 else Some (0, s3)
             | [] => Some (0, s3)
             end).
  assert (Hex : forall e s4, ex = Some (e, s4) -> (List.length s4 <= List.length s3)%nat).
  { subst ex. intros e s4. destruct s3 as [|c r]; [intros H; injection H as _ <-; lia|].
    destruct ((code c =? 101) || (code c =? 69)); [|intros H; injection H as _ <-; lia].
    set (sg2 := match r with
                | g :: r' =>
                    if code g =? 45 then (true, r')
                    else if code g =? 43 then (false, r')
                    else (false, r)
                | [] => (false, r)
                end).
    assert (L1 : (List.length (snd sg2) <= List.length r)%nat).
    { subst sg2. destruct r as [|g r']; [cbn; lia|].
      destruct (code g =? 45); [cbn; lia|]. destruct (code g =? 43); cbn; lia. }
    destruct sg2 as [eneg r1]. cbn [snd] in L1.
    pose proof (spanDigits_le r1) as L. destruct (spanDigits r1) as [[|x xs] s4'];
      [discriminate|]. intros H; injection H as _ <-. cbn [snd List.length] in *. lia. }
  destruct ex as [[e s4]|]; [|discriminate]. specialize (Hex e s4 eq_refl).
  intros H; injection H as _ <-. lia.
Qed.

Lemma stripPrefix_le p : forall s rest,
  stripPrefix p s = Some rest -> (List.length rest <= List.length s)%nat.
Proof.
  induction p as [|a p IH]; intros s rest H; cbn [stripPrefix] in H.
  - injection H as <-. lia.
  - destruct s as [|b s']; [discriminate|]. destruct (Ascii.eqb a b); [|discriminate].
    apply IH in H. cbn [List.length]. lia.
Qed.

Lemma parseLiteral_le s v rest :
  parseLiteral s = Some (v, rest) -> (List.length rest <= List.length s)%nat.
Proof.
  unfold parseLiteral.
  destruct (stripPrefix (list_ascii_of_string "true") s) eqn:E1;
    [intros H; injection H as _ <-; eapply stripPrefix_le; eassumption|].
  destruct (stripPrefix (list_ascii_of_string "false") s) eqn:E2;
    [intros H; injection H as _ <-; eapply stripPrefix_le; eassumption|].
  destruct (stripPrefix (list_ascii_of_string "null") s) eqn:E3;
    [intros H; injection H as _ <-; eapply stripPrefix_le; eassumption|].
  discriminate.
Qed.

(** What a reader leaves is no longer than what it was given. *)
Lemma parse_le f :
  (forall s v r, parseValue f s = Some (v, r) -> (List.length r <= List.length s)%nat)
  /\ (forall s vs r, parseElems f s = Some (vs, r) -> (List.length r <= List.length s)%nat)
  /\ (forall s fs r, parseMembers f s = Some (fs, r) -> (List.length r <= List.length s)%nat).
Proof.
  induction f as [|f (IHv & IHe & IHm)]; [repeat split; intros; discriminate|].
  split; [|split].
  - intros s v r H. cbn [parseValue] in H.
    pose proof (skipWs_le s) as L0.
    destruct (skipWs s) as [|c r0]; [discriminate|]. cbn [List.length] in L0.
    destruct (code c =? 123).
    { pose proof (skipWs_le r0) as L1.
      destruct (skipWs r0) as [|c1 r1]; [discriminate|]. cbn [List.length] in L1.
      destruct (code c1 =? 125); [injection H as _ <-; lia|].
      destruct (parseMembers f (c1 :: r1)) as [[fs rest]|] eqn:E; [|discriminate].
      injection H as _ <-. apply IHm in E. cbn [List.length] in E. lia. }
    destruct (code c =? 91).
    { pose proof (skipWs_le r0) as L1.
      destruct (skipWs r0) as [|c1 r1]; [discriminate|]. cbn [List.length] in L1.
      destruct (code c1 =? 93); [injection H as _ <-; lia|].
      destruct (parseElems f (c1 :: r1)) as [[vs rest]|] eqn:E; [|discriminate].
      injection H as _ <-. apply IHe in E. cbn [List.length] in E. lia. }
    destruct (code c =? 34).
    { destruct (parseStr None r0) as [[cs rest]|] eqn:E; [|discriminate].
      injection H as _ <-. apply (parseStr_le _ _ _ _ _ (le_n _)) in E. lia. }
    destruct ((code c =? 45) || isDigit c).
    { apply parseNumber_le in H. cbn [List.length] in H. lia. }
    apply parseLiteral_le in H. cbn [List.length] in H. lia.
  - intros s vs r H. cbn [parseElems] in H.
    destruct (parseValue f s) as [[v r0]|] eqn:E; [|discriminate]. apply IHv in E.
    pose proof (skipWs_le r0) as L0.
    destruct (skipWs r0) as [|c r1]; [discriminate|]. cbn [List.length] in L0.
    destruct (code c =? 44).
    + destruct (parseElems f r1) as [[vs' rest]|] eqn:E1; [|discriminate].
      injection H as _ <-. apply IHe in E1. lia.
    + destruct (code c =? 93); [|discriminate]. injection H as _ <-. lia.
  - intros s fs r H. cbn [parseMembers] in H.
    pose proof (skipWs_le s) as L0.
    destruct (skipWs s) as [|q r0]; [discriminate|]. cbn [List.length] in L0.
    destruct (code q =? 34); [|discriminate].
    destruct (parseStr None r0) as [[k r1]|] eqn:Ek; [|discriminate].
    apply (parseStr_le _ _ _ _ _ (le_n _)) in Ek.
    pose proof (skipWs_le r1) as L1.
    destruct (skipWs r1) as [|c r2]; [discriminate|]. cbn [List.length] in L1.
    destruct (code c =? 58); [|discriminate].
    destruct (parseValue f r2) as [[v r3]|] eqn:Ev; [|discriminate]. apply IHv in Ev.
    pose proof (skipWs_le r3) as L3.
    destruct (skipWs r3) as [|d r4]; [discriminate|]. cbn [List.length] in L3.
    destruct (code d =? 44).
    + destruct (parseMembers f r4) as [[fs' rest]|] eqn:E4; [|discriminate].
      injection H as _ <-. apply IHm in E4. lia.
    + destruct (code d =? 125); [|discriminate]. injection H as _ <-. lia.
Qed.

(** Beyond twice the length of the text, more fuel does not change what a
    reader answers. *)
Lemma parse_fuel_stable n : forall s, (List.length s <= n)%nat ->
  (forall f f', (2 * List.length s + 1 <= f)%nat -> (2 * List.length s + 1 <= f')%nat ->
     parseValue f s = parseValue f' s)
  /\ (forall f f', (2 * List.length s + 2 <= f)%nat -> (2 * List.length s + 2 <= f')%nat ->
        parseElems f s = parseElems f' s)
  /\ (forall f f', (2 * List.length s + 2 <= f)%nat -> (2 * List.length s + 2 <= f')%nat ->
        parseMembers f s = parseMembers f' s).
Proof.
  induction n as [|n IH]; intros s Hn.
  - destruct s; [|cbn in Hn; lia]. repeat split; intros f f' Hf Hf'.
    + destruct f, f'; try (cbn in *; lia); reflexivity.
    + destruct f as [|[|f]], f' as [|[|f']]; try (cbn in *; lia); reflexivity.
    + destruct f, f'; try (cbn in *; lia); reflexivity.
  - assert (Hv : forall f f', (2 * List.length s + 1 <= f)%nat ->
                              (2 * List.length s + 1 <= f')%nat ->
                              parseValue f s = parseValue f' s).
    { intros f f' Hf Hf'. destruct f as [|g]; [lia|]. destruct f' as [|g']; [lia|].
      cbn [parseValue].
      pose proof (skipWs_le s) as L0.
      destruct (skipWs s) as [|c r0]; [reflexivity|]. cbn [List.length] in L0.
      destruct (code c =? 123).
      { pose proof (skipWs_le r0) as L1.
        destruct (skipWs r0) as [|c1 r1] eqn:E1; [reflexivity|].
        destruct (code c1 =? 125); [reflexivity|].
        assert (Hl : (List.length (c1 :: r1) <= n)%nat) by lia.
        destruct (IH (c1 :: r1) Hl) as (_ & _ & Hm).
        rewrite (Hm g g'); [reflexivity | lia | lia]. }
      destruct (code c =? 91).
      { pose proof (skipWs_le r0) as L1.
        destruct (skipWs r0) as [|c1 r1] eqn:E1; [reflexivity|].
        destruct (code c1 =? 93); [reflexivity|].
        assert (Hl : (List.length (c1 :: r1) <= n)%nat) by lia.
        destruct (IH (c1 :: r1) Hl) as (_ & He & _).
        rewrite (He g g'); [reflexivity | lia | lia]. }
      reflexivity. }
    split; [exact Hv|]. split.
    + intros f f' Hf Hf'. destruct f as [|g]; [lia|]. destruct f' as [|g']; [lia|].
      cbn [parseElems]. rewrite (Hv g g') by lia.
      destruct (parseValue g' s) as [[v r0]|] eqn:E; [|reflexivity].
      apply (proj1 (parse_le g')) in E.
      pose proof (skipWs_le r0) as L0.
      destruct (skipWs r0) as [|c r1]; [reflexivity|]. cbn [List.length] in L0.
      destruct (code c =? 44); [|reflexivity].
      assert (Hl : (List.length r1 <= n)%nat) by lia.
      destruct (IH r1 Hl) as (_ & He & _).
      rewrite (He g g'); [reflexivity | lia | lia].
    + intros f f' Hf Hf'. destruct f as [|g]; [lia|]. destruct f' as [|g']; [lia|].
      cbn [parseMembers].
      pose proof (skipWs_le s) as L0.
      destruct (skipWs s) as [|q r0]; [reflexivity|]. cbn [List.length] in L0.
      destruct (code q =? 34); [|reflexivity].
      destruct (parseStr None r0) as [[k r1]|] eqn:Ek; [|reflexivity].
      apply (parseStr_le _ _ _ _ _ (le_n _)) in Ek.
      pose proof (skipWs_le r1) as L1.
      destruct (skipWs r1) as [|c r2]; [reflexivity|]. cbn [List.length] in L1.
      destruct (code c =? 58); [|reflexivity].
      assert (Hl2 : (List.length r2 <= n)%nat) by lia.
      destruct (IH r2 Hl2) as (Hv2 & _ & _).
      rewrite (Hv2 g g') by lia.
      destruct (parseValue g' r2) as [[v r3]|] eqn:Ev; [|reflexivity].
      apply (proj1 (parse_le g')) in Ev.
      pose proof (skipWs_le r3) as L3.
      destruct (skipWs r3) as [|d r4]; [reflexivity|]. cbn [List.length] in L3.
      destruct (code d =? 44); [|reflexivity].
      assert (Hl4 : (List.length r4 <= n)%nat) by lia.
      destruct (IH r4 Hl4) as (_ & _ & Hm).
      rewrite (Hm g g'); [reflexivity | lia | lia].
Qed.

(** The fuel of [JSON_parse] is enough: no larger fuel gives another
    answer. *)
Theorem JSON_parse_fuel text f :
  (2 * List.length text + 2 <= f)%nat ->
  parseValue f text = parseValue (2 * List.length text + 2) text.
Proof.
  intros H. apply (parse_fuel_stable (List.length text) text (le_n _)); lia.
Qed.

(** * Facts about the scanner *)

Import Scanner.

(** ** [saveTransaction] by cases *)

Lemma isStr_spec (v : option json) (lit : string) :
  isStr v lit = true <-> v = Some (JStr lit).
Proof.
  unfold isStr. destruct v as [[ | | | s | | ]|]; split; intros H;
    try discriminate.
  - apply String.eqb_eq in H. now subst.
  - injection H as ->. apply String.eqb_refl.
Qed.

Lemma deploy_not_mint (data : json) :
  isStr (getField data "op") "deploy" = true ->
  isStr (getField data "op") "mint" = false.
Proof.
  intros H. apply isStr_spec in H. rewrite H. reflexivity.
Qed.

Lemma saveTransaction_deploy d h x data u :
  deployTick data = Some u ->
  fst (saveTransaction d h x data)
  = withTokens d (insertOrIgnoreToken (tokens d) (deployRow h x data u)).
Proof.
  unfold deployTick, saveTransaction, deployRow.
  destruct (isStr (getField data "op") "deploy"); [|discriminate].
  destruct (getField data "tick") as [[ | | | t | | ]|]; try discriminate.
  intros H; inversion H; subst. reflexivity.
Qed.

Lemma saveTransaction_mint d h x data u :
  mintTick data = Some u ->
  fst (saveTransaction d h x data)
  = if hasToken (tokens d) u
    then withTransactions d
           (insertOrIgnoreTransaction (transactions d) (mintRow h x data u))
    else d.
Proof.
  unfold mintTick, saveTransaction, mintRow, isTokenDeployed.
  destruct (isStr (getField data "op") "deploy") eqn:Hd.
  - rewrite (deploy_not_mint _ Hd). discriminate.
  - destruct (isStr (getField data "op") "mint"); [|discriminate].
    destruct (getField data "tick") as [[ | | | t | | ]|]; try discriminate.
    intros H; inversion H; subst. cbn [andb].
    destruct (hasToken (tokens d) (toUpperCase t)); reflexivity.
Qed.

Lemma saveTransaction_other d h x data :
  deployTick data = None -> mintTick data = None ->
  fst (saveTransaction d h x data) = d.
Proof.
  unfold deployTick, mintTick, saveTransaction, isTokenDeployed.
  destruct (isStr (getField data "op") "deploy") eqn:Hd.
  - destruct (getField data "tick") as [[ | | | t | | ]|];
      intros; try discriminate; reflexivity.
  - destruct (isStr (getField data "op") "mint").
    + destruct (getField data "tick") as [[ | | | t | | ]|];
        intros; try discriminate; reflexivity.
    + reflexivity.
Qed.

Lemma deployTick_mintTick data u :
  deployTick data = Some u -> mintTick data = None.
Proof.
  unfold deployTick, mintTick.
  destruct (isStr (getField data "op") "deploy") eqn:Hd; [|discriminate].
  now rewrite (deploy_not_mint _ Hd).
Qed.

Lemma saveTransaction_shape d h x data :
  saveShape d h x data (fst (saveTransaction d h x data)).
Proof.
  destruct (deployTick data) as [u|] eqn:Hd.
  - rewrite (saveTransaction_deploy _ _ _ _ _ Hd).
    apply ShapeDeploy; [assumption | eapply deployTick_mintTick; eassumption].
  - destruct (mintTick data) as [u|] eqn:Hm.
    + rewrite (saveTransaction_mint _ _ _ _ _ Hm).
      destruct (hasToken (tokens d) u) eqn:Ht.
      * now apply ShapeMint.
      * apply ShapeSkip; [assumption|]. intros u' Hu'. congruence.
    + rewrite (saveTransaction_other _ _ _ _ Hd Hm).
      apply ShapeSkip; [assumption|]. intros u' Hu'. congruence.
Qed.

(** ** The scan as a fold of saves *)

Lemma applyFound_app d l1 l2 :
  applyFound d (l1 ++ l2) = applyFound (applyFound d l1) l2.
Proof. unfold applyFound. apply fold_left_app. Qed.

Lemma scanVouts_found h x vs d fl :
  scanVouts h x vs (d, fl)
  = (applyFound d (fst (voutsFound h x vs)), fl ++ fst (voutsFound h x vs),
     snd (voutsFound h x vs)).
Proof.
  revert d fl. induction vs as [|v rest IH]; intros d fl; cbn [scanVouts voutsFound].
  - cbn. now rewrite app_nil_r.
  - destruct v as [spk|]; [|apply IH].
    destruct (String.eqb (type_ spk) "nulldata" && negb (String.eqb (hex spk) ""));
      [|apply IH].
    destruct (parseDRC20FromHex (hex spk)) as [data|]; [|apply IH].
    cbn [fst snd].
    destruct (logThrows data).
    + reflexivity.
    + rewrite IH. cbn [fst snd]. rewrite <- app_assoc. reflexivity.
Qed.

Lemma scanTxs_found h ts d fl :
  scanTxs h ts (d, fl)
  = (applyFound d (fst (txsFound h ts)), fl ++ fst (txsFound h ts),
     snd (txsFound h ts)).
Proof.
  revert d fl. induction ts as [|t rest IH]; intros d fl; cbn [scanTxs txsFound].
  - cbn. now rewrite app_nil_r.
  - rewrite scanVouts_found.
    destruct (voutsFound h (tx_id t) (vout t)) as [l [|]]; cbn [fst snd].
    + reflexivity.
    + rewrite IH. cbn [fst snd]. rewrite applyFound_app, <- app_assoc. reflexivity.
Qed.

Lemma scanBlock_found c h d fl :
  scanBlock c h (d, fl) = (applyFound d (blockFound c h), fl ++ blockFound c h).
Proof.
  unfold scanBlock, blockFound. destruct (blockAt c h) as [b|].
  - rewrite scanTxs_found. reflexivity.
  - cbn. now rewrite app_nil_r.
Qed.

(** ** Saves only append *)


Lemma extends_refl d : extends d d.
Proof. split; exists []; now rewrite app_nil_r. Qed.

Lemma extends_trans d1 d2 d3 : extends d1 d2 -> extends d2 d3 -> extends d1 d3.
Proof.
  intros [[t1 Ht1] [x1 Hx1]] [[t2 Ht2] [x2 Hx2]]. split.
  - exists (t1 ++ t2). now rewrite Ht2, Ht1, app_assoc.
  - exists (x1 ++ x2). now rewrite Hx2, Hx1, app_assoc.
Qed.

Lemma insertOrIgnoreToken_cases ts r :
  insertOrIgnoreToken ts r = if tokenClash ts r then ts else ts ++ [r].
Proof. reflexivity. Qed.

Lemma insertOrIgnoreTransaction_cases xs r :
  insertOrIgnoreTransaction xs r = if hasTx xs (txid r) then xs else xs ++ [r].
Proof. reflexivity. Qed.

Lemma saveTransaction_extends d h x data :
  extends d (fst (saveTransaction d h x data)).
Proof.
  destruct (saveTransaction_shape d h x data) as [u Hd Hm | u Hd Hm Ht | Hd Hm].
  - split; cbn.
    + rewrite insertOrIgnoreToken_cases.
      destruct (tokenClash (tokens d) _); eexists; [symmetry; apply app_nil_r | reflexivity].
    + exists []. now rewrite app_nil_r.
  - split; cbn.
    + exists []. now rewrite app_nil_r.
    + rewrite insertOrIgnoreTransaction_cases.
      destruct (hasTx (transactions d) _); eexists; [symmetry; apply app_nil_r | reflexivity].
  - apply extends_refl.
Qed.

Lemma applyFound_cons d f fs :
  applyFound d (f :: fs)
  = applyFound (fst (saveTransaction d (f_blockHeight f) (f_txid f) (f_data f))) fs.
Proof. reflexivity. Qed.

Lemma applyFound_extends fs : forall d, extends d (applyFound d fs).
Proof.
  induction fs as [|f fs IH]; intros d.
  - apply extends_refl.
  - rewrite applyFound_cons. eapply extends_trans; [apply saveTransaction_extends | apply IH].
Qed.




(** The scanner's tables other than [tokens] and [transactions]. *)
Lemma saveTransaction_frame d h x data :
  let d' := fst (saveTransaction d h x data) in
  site_transactions d' = site_transactions d
  /\ balances d' = balances d
  /\ indexer_state d' = indexer_state d
  /\ verification_stats d' = verification_stats d.
Proof.
  cbv zeta.
  destruct (saveTransaction_shape d h x data); cbn; auto.
Qed.

Lemma applyFound_frame fs : forall d,
  site_transactions (applyFound d fs) = site_transactions d
  /\ balances (applyFound d fs) = balances d
  /\ indexer_state (applyFound d fs) = indexer_state d
  /\ verification_stats (applyFound d fs) = verification_stats d.
Proof.
  induction fs as [|f fs IH]; intros d; [cbn; auto|].
  rewrite applyFound_cons.
  destruct (IH (fst (saveTransaction d (f_blockHeight f) (f_txid f) (f_data f))))
    as (A & B & C & D).
  destruct (saveTransaction_frame d (f_blockHeight f) (f_txid f) (f_data f))
    as (A' & B' & C' & D').
  repeat split; congruence.
Qed.

(** ** What a second pass can and cannot change *)













Lemma mintTick_deployTick data u :
  mintTick data = Some u -> deployTick data = None.
Proof.
  intros Hm. destruct (deployTick data) as [t|] eqn:Hd; [|reflexivity].
  apply deployTick_mintTick in Hd. congruence.
Qed.

Lemma hasToken_app ts ts' u :
  hasToken (ts ++ ts') u = hasToken ts u || hasToken ts' u.
Proof. unfold hasToken. apply existsb_app. Qed.






(** ** A range of blocks *)

Lemma scanFrom_found c n : forall h d fl,
  scanFrom c n h (d, fl) = (applyFound d (rangeFound c n h), fl ++ rangeFound c n h).
Proof.
  induction n as [|k IH]; intros h d fl; cbn [scanFrom rangeFound].
  - cbn. now rewrite app_nil_r.
  - rewrite scanBlock_found, IH, applyFound_app, app_assoc. reflexivity.
Qed.

Lemma scanBlockRange_found c d s e :
  fst (scanBlockRange c d s e)
  = applyFound d (rangeFound c (Z.to_nat (e - s + 1)) s).
Proof. unfold scanBlockRange. now rewrite scanFrom_found. Qed.

Lemma is_valid_mintRow h x data u : is_valid (mintRow h x data u) = true.
Proof. reflexivity. Qed.

Lemma saveTransaction_valid d h x data :
  Forall (fun r => is_valid r = true) (transactions d) ->
  Forall (fun r => is_valid r = true) (transactions (fst (saveTransaction d h x data))).
Proof.
  intros H.
  destruct (saveTransaction_shape d h x data) as [u Hd Hm | u Hd Hm Ht | Hd Hm];
    try exact H.
  unfold withTransactions. cbn [transactions].
  rewrite insertOrIgnoreTransaction_cases.
  destruct (hasTx (transactions d) _); [exact H|].
  apply Forall_app. split; [exact H|]. constructor; [reflexivity | constructor].
Qed.

Lemma applyFound_valid fs : forall d,
  Forall (fun r => is_valid r = true) (transactions d) ->
  Forall (fun r => is_valid r = true) (transactions (applyFound d fs)).
Proof.
  induction fs as [|f fs IH]; intros d H; [exact H|].
  rewrite applyFound_cons. apply IH, saveTransaction_valid, H.
Qed.

(** C5, as amended.  The scanner records only what it accepts.  A payload
    leaves the database as it was, with nothing written for it, when its
    [op] is neither deploy nor mint (a transfer, say), when its tick is not a
    string, or when it is a mint and no token is registered at all.  So does
    a payload with a tick of ASCII characters that is not a deploy and is not
    a mint of a registered tick.  Every row a scan adds to [transactions] has
    [is_valid = 1], and the table has no column for a reason of rejection. *)
Theorem scanner_records_only_accepted c d s e h x data :
  (isStr (getField data "op") "deploy" = false ->
   isStr (getField data "op") "mint" = false ->
   fst (saveTransaction d h x data) = d)
  /\ ((forall t, getField data "tick" <> Some (JStr t)) ->
      fst (saveTransaction d h x data) = d)
  /\ (isStr (getField data "op") "deploy" = false -> tokens d = [] ->
      fst (saveTransaction d h x data) = d)
  /\ (Keeps.asciiTick data = true ->
      deployTick data = None ->
      (forall u, mintTick data = Some u -> hasToken (tokens d) u = false) ->
      fst (saveTransaction d h x data) = d)
  /\ (Forall (fun r => is_valid r = true) (transactions d) ->
      Forall (fun r => is_valid r = true)
             (transactions (fst (scanBlockRange c d s e)))).
Proof.
  assert (Skip : deployTick data = None ->
                 (forall u, mintTick data = Some u -> hasToken (tokens d) u = false) ->
                 fst (saveTransaction d h x data) = d).
  { intros Hd Hm.
    destruct (saveTransaction_shape d h x data) as [u Hu Hn | u Hu Hn Ht | Hu Hn];
      [congruence | | reflexivity].
    rewrite (Hm u Hn) in Ht. discriminate. }
  split; [|split; [|split; [|split]]].
  - intros Hd Hm. apply Skip; unfold deployTick, mintTick; rewrite ?Hd, ?Hm;
      [reflexivity | discriminate].
  - intros Ht. apply Skip; unfold deployTick, mintTick.
    + destruct (isStr _ "deploy"); [|reflexivity].
      destruct (getField data "tick") as [[]|]; try reflexivity.
      exfalso. eapply Ht. reflexivity.
    + intros u. destruct (isStr _ "mint"); [|discriminate].
      destruct (getField data "tick") as [[]|]; try discriminate.
      exfalso. eapply Ht. reflexivity.
  - intros Hd He. apply Skip.
    + unfold deployTick. now rewrite Hd.
    + intros u _. now rewrite He.
  - intros _. exact Skip.
  - intros H. rewrite scanBlockRange_found. now apply applyFound_valid.
Qed.

Lemma scanner_records_only_accepted_witness :
  Keeps.asciiTick Examples.mintFOOData = true
  /\ deployTick Examples.mintFOOData = None
  /\ mintTick Examples.mintFOOData = Some "FOO"
  /\ hasToken (tokens Examples.emptyDb) "FOO" = false
  /\ fst (saveTransaction Examples.emptyDb 5700000 "a" Examples.mintFOOData)
     = Examples.emptyDb
  /\ Forall (fun r => is_valid r = true)
       (transactions
          (fst (scanBlockRange Examples.chainOverLimit Examples.emptyDb 5700000 5700001))).
Proof.
  pose proof (scanner_records_only_accepted Examples.chainOverLimit Examples.emptyDb
                5700000 5700001 5700000 "a" Examples.mintFOOData)
    as (_ & _ & _ & A & B).
  split; [reflexivity|]. split; [reflexivity|]. split; [reflexivity|].
  split; [reflexivity|]. split.
  - apply A; [reflexivity | reflexivity |]. intros u _. reflexivity.
  - apply B. constructor.
Defined.

(** C5 as stated fails: the mint of FOO in [chainUnknownTick] decodes as a
    protocol payload and names a tick nobody registered; the scan writes
    nothing for it, the checkpoint is all that changes. *)
Lemma unknown_mint_leaves_no_record :
  parseDRC20FromHex Examples.mintFOO = Some Examples.mintFOOData
  /\ isTokenDeployed Examples.emptyDb (getField Examples.mintFOOData "tick") = false
  /\ initialScan Examples.chainUnknownTick Examples.emptyDb
     = withIndexerState Examples.emptyDb (Some (5700000, "")).
Proof. repeat split; vm_compute; reflexivity. Qed.

(** ** The checkpoint and the hashes *)

Lemma blockFound_sameTransactions c c' h :
  sameTransactions c c' -> blockFound c h = blockFound c' h.
Proof.
  intros [_ H]. specialize (H h). unfold blockFound.
  destruct (blockAt c h), (blockAt c' h); cbn in H; try discriminate; [|reflexivity].
  now injection H as ->.
Qed.

Lemma rangeFound_sameTransactions c c' n : forall h,
  sameTransactions c c' -> rangeFound c n h = rangeFound c' n h.
Proof.
  induction n as [|k IH]; intros h H; cbn [rangeFound]; [reflexivity|].
  now rewrite (blockFound_sameTransactions c c' h H), IH.
Qed.

Lemma saveTransaction_withIndexerState d st h x data :
  fst (saveTransaction (withIndexerState d st) h x data)
  = withIndexerState (fst (saveTransaction d h x data)) st.
Proof.
  unfold saveTransaction, isTokenDeployed. cbn [tokens withIndexerState transactions].
  destruct (isStr (getField data "op") "deploy").
  - destruct (getField data "tick") as [[ | | | t | | ]|]; reflexivity.
  - destruct (isStr (getField data "op") "mint"); [|reflexivity].
    destruct (getField data "tick") as [[ | | | t | | ]|]; try reflexivity.
    cbn [andb]. destruct (hasToken (tokens d) (toUpperCase t)); reflexivity.
Qed.

Lemma applyFound_withIndexerState fs : forall d st,
  applyFound (withIndexerState d st) fs = withIndexerState (applyFound d fs) st.
Proof.
  induction fs as [|f fs IH]; intros d st; [reflexivity|].
  now rewrite !applyFound_cons, saveTransaction_withIndexerState, IH.
Qed.

Lemma chainReorg_sameTransactions :
  sameTransactions Examples.chainReorg Examples.chainNoReorg.
Proof.
  split; [reflexivity|]. intros h.
  cbv [Examples.chainReorg Examples.chainNoReorg Examples.chainOf blockAt find fst snd].
  destruct (5700001 =? h); reflexivity.
Qed.

(** C6 as stated fails: the checkpoint of [dbAtB0] records hash [b0], the
    block at the next height in [chainReorg] names [c0] as its parent, and
    the scan stores the block's deploy and moves the checkpoint on. *)
Lemma scan_continues_across_hash_mismatch :
  indexer_state Examples.dbAtB0 = Some (5700000, "b0")
  /\ option_map previousblockhash (blockAt Examples.chainReorg 5700001) = Some "c0"
  /\ map tick (tokens (initialScan Examples.chainReorg Examples.dbAtB0)) = ["FOO"]
  /\ indexer_state (initialScan Examples.chainReorg Examples.dbAtB0)
     = Some (5700001, "").
Proof. repeat split; vm_compute; reflexivity. Qed.

(** * Facts about the decoders *)

(** What [parseDRC20Json] accepts.  It returns a payload only when its [p]
    is exactly the string the function tests for and its [op] is deploy or
    mint; for a parsed payload with another [p] or another [op] the answer is
    [null], not an error.  The string the function tests for is [drc20]. *)
Theorem parseDRC20Json_accepts_only_tagged_ops hex :
  (forall data, Indexer.parseDRC20Json hex = Some data ->
     JSON_parse (utf8ToString (bufferFromHex (slice 4 hex))) = Some data
     /\ getField data "p" = Some (JStr "drc20")
     /\ (getField data "op" = Some (JStr "deploy")
         \/ getField data "op" = Some (JStr "mint")
         \/ getField data "op" = Some (JStr "transfer")))
  /\ (forall parsed,
        JSON_parse (utf8ToString (bufferFromHex (slice 4 hex))) = Some parsed ->
        getField parsed "p" <> Some (JStr "drc20")
        \/ (getField parsed "op" <> Some (JStr "deploy")
            /\ getField parsed "op" <> Some (JStr "mint")
            /\ getField parsed "op" <> Some (JStr "transfer")) ->
        Indexer.parseDRC20Json hex = None).
Proof.
  unfold Indexer.parseDRC20Json. split.
  - intros data H.
    destruct (JSON_parse _) as [parsed|]; [|discriminate].
    destruct (isStr (getField parsed "p") "drc20") eqn:Hp; [|discriminate].
    destruct (isStr (getField parsed "op") "deploy") eqn:Hd;
      [|destruct (isStr (getField parsed "op") "mint") eqn:Hm; [|discriminate]];
      cbn in H; injection H as <-; apply isStr_spec in Hp.
    + apply isStr_spec in Hd. auto.
    + apply isStr_spec in Hm. auto.
  - intros parsed Hj Hno. rewrite Hj.
    destruct (isStr (getField parsed "p") "drc20") eqn:Hp; [|reflexivity].
    apply isStr_spec in Hp.
    destruct Hno as [Hno | (Hd & Hm & _)]; [contradiction|].
    destruct (isStr (getField parsed "op") "deploy") eqn:Ed;
      [apply isStr_spec in Ed; contradiction|].
    destruct (isStr (getField parsed "op") "mint") eqn:Em;
      [apply isStr_spec in Em; contradiction|].
    reflexivity.
Qed.

Lemma parseDRC20Json_accepts_only_tagged_ops_witness :
  Indexer.parseDRC20Json Examples.mintTagDrc20 = Some Examples.mintTagDrc20Data
  /\ getField Examples.mintTagDrc20Data "p" = Some (JStr "drc20")
  /\ (getField Examples.mintTagDrc20Data "op" = Some (JStr "deploy")
      \/ getField Examples.mintTagDrc20Data "op" = Some (JStr "mint")
      \/ getField Examples.mintTagDrc20Data "op" = Some (JStr "transfer")).
Proof.
  assert (H : Indexer.parseDRC20Json Examples.mintTagDrc20
              = Some Examples.mintTagDrc20Data) by (vm_compute; reflexivity).
  split; [exact H|].
  apply (proj1 (parseDRC20Json_accepts_only_tagged_ops Examples.mintTagDrc20)
           Examples.mintTagDrc20Data H).
Defined.

(** C3.  The claim fails on the code by the constant of line 255.  The
    protocol tag is [drc-20]: the README writes it in every payload, the
    scanner's [parseDRC20FromHex] tests for it, and [recordSiteTransaction]
    writes it.  [parseDRC20Json] tests for [drc20] instead.  So it never
    returns a payload that carries the protocol tag; it turns down the
    README's deploy and mint, which [parseDRC20FromHex] takes; and it takes
    the mint with the foreign tag [drc20], which [parseDRC20FromHex] turns
    down. *)
Theorem parseDRC20Json_rejects_the_protocol_tag :
  (forall hex data,
     Indexer.parseDRC20Json hex = Some data ->
     getField data "p" <> Some (JStr "drc-20"))
  /\ Indexer.parseDRC20Json Examples.deployDOGE = None
  /\ Indexer.parseDRC20Json Examples.mint1000 = None
  /\ (exists data, parseDRC20FromHex Examples.deployDOGE = Some data
                   /\ getField data "p" = Some (JStr "drc-20")
                   /\ getField data "op" = Some (JStr "deploy"))
  /\ (exists data, parseDRC20FromHex Examples.mint1000 = Some data
                   /\ getField data "p" = Some (JStr "drc-20")
                   /\ getField data "op" = Some (JStr "mint"))
  /\ Indexer.parseDRC20Json Examples.mintTagDrc20 = Some Examples.mintTagDrc20Data
  /\ parseDRC20FromHex Examples.mintTagDrc20 = None.
Proof.
  split; [|split; [|split; [|split; [|split; [|split]]]]];
    [ | vm_compute; reflexivity | vm_compute; reflexivity | | 
      | vm_compute; reflexivity | vm_compute; reflexivity ].
  - intros hex data H. unfold Indexer.parseDRC20Json in H.
    destruct (JSON_parse _) as [parsed|]; [|discriminate].
    destruct (isStr (getField parsed "p") "drc20") eqn:Hp; [|discriminate].
    apply isStr_spec in Hp.
    destruct (_ || _); [|discriminate]. cbn in H. injection H as <-.
    rewrite Hp. discriminate.
  - eexists. split; [vm_compute; reflexivity|]. split; reflexivity.
  - eexists. split; [vm_compute; reflexivity|]. split; reflexivity.
Qed.

(** The same payload under the tag of the protocol documents, [drc-20], is
    turned down by [parseDRC20Json] and taken by the scanner's
    [parseDRC20FromHex]. *)
Lemma the_two_decoders_test_different_tags :
  Indexer.parseDRC20Json Examples.mint1000 = None
  /\ (exists data, parseDRC20FromHex Examples.mint1000 = Some data)
  /\ parseDRC20FromHex Examples.mintTagDrc20 = None.
Proof.
  split; [vm_compute; reflexivity|]. split; [|vm_compute; reflexivity].
  eexists. vm_compute. reflexivity.
Qed.

(** C4.  The script [deploy84] is the null-data opcode, [4c], the length
    byte [54] and a payload of 84 bytes.  [parseDRC20FromHex] returns the
    payload, and the scan registers the token it deploys: no test of the
    80-byte limit is made. *)
Theorem payload_longer_than_80_bytes_is_taken :
  List.length (bufferFromHex (slice 6 Examples.deploy84)) = 84%nat
  /\ stripPush Examples.deploy84 = Some (slice 6 Examples.deploy84)
  /\ parseDRC20FromHex Examples.deploy84 = Some Examples.deploy84Data
  /\ map tick (tokens (initialScan Examples.chainLong Examples.emptyDb)) = ["BIG"].
Proof. repeat split; vm_compute; reflexivity. Qed.

(** What [v || '0'] binds when [v] is falsy and when it is a string that is
    not empty. *)
Lemma orElse_zero v : truthy v = false -> bindParam (orElse v (JStr "0")) = Text "0".
Proof. intros H. unfold orElse. destruct v; now rewrite ?H. Qed.

Lemma orElse_string v s :
  v = Some (JStr s) -> s <> "" -> bindParam (orElse v (JStr "0")) = Text s.
Proof.
  intros -> H. unfold orElse, truthy.
  destruct (String.eqb_spec s ""); [contradiction | reflexivity].
Qed.

(** C7, as amended.  [parseDRC20FromHex] looks at [p], [op] and [tick] and
    at nothing else: it returns the parsed payload exactly when [p] is
    [drc-20] and [op] and [tick] are truthy, whatever [max], [lim] and [amt]
    are, and [null] otherwise (there is no separate result for a malformed
    payload).  On a save of a payload with a tick of ASCII characters, each
    of [max] and [lim] of a deploy that is inserted, and [amt] of a mint that
    is inserted, is stored as the text [0] when it is missing or falsy, and
    as it is when it is a string of ASCII characters that is not empty; no
    comparison between them is made. *)
Theorem parseDRC20FromHex_checks_tag_op_tick hex data :
  (parseDRC20FromHex hex = Some data <->
   exists dataHex,
     stripPush hex = Some dataHex
     /\ JSON_parse (utf8ToString (bufferFromHex dataHex)) = Some data
     /\ getField data "p" = Some (JStr "drc-20")
     /\ truthy (getField data "op") = true
     /\ truthy (getField data "tick") = true)
  /\ (forall d h x u,
        Keeps.asciiTick data = true ->
        deployTick data = Some u ->
        tokenClash (tokens d) (deployRow h x data u) = false ->
        exists mx lm,
          tokens (fst (saveTransaction d h x data))
          = tokens d ++ [mkToken u None mx lm x h ""]
          /\ (truthy (getField data "max") = false -> mx = Text "0")
          /\ (truthy (getField data "lim") = false -> lm = Text "0")
          /\ (forall s, getField data "max" = Some (JStr s) -> s <> "" ->
                Keeps.asciiString s = true -> mx = Text s)
          /\ (forall s, getField data "lim" = Some (JStr s) -> s <> "" ->
                Keeps.asciiString s = true -> lm = Text s))
  /\ (forall d h x u,
        Keeps.asciiTick data = true ->
        mintTick data = Some u ->
        hasToken (tokens d) u = true ->
        hasTx (transactions d) x = false ->
        exists am,
          map amount (transactions (fst (saveTransaction d h x data)))
          = map amount (transactions d) ++ [am]
          /\ (truthy (getField data "amt") = false -> am = Text "0")
          /\ (forall s, getField data "amt" = Some (JStr s) -> s <> "" ->
                Keeps.asciiString s = true -> am = Text s)).
Proof.
  split; [|split].
  - unfold parseDRC20FromHex. split.
    + intros H. destruct (stripPush hex) as [dataHex|]; [|discriminate].
      exists dataHex. split; [reflexivity|].
      destruct (JSON_parse _) as [parsed|]; [|discriminate].
      destruct (isStr (getField parsed "p") "drc-20") eqn:Hp; [|discriminate].
      destruct (truthy (getField parsed "op")) eqn:Ho; [|discriminate].
      destruct (truthy (getField parsed "tick")) eqn:Ht; [|discriminate].
      cbn in H. injection H as <-. apply isStr_spec in Hp. auto.
    + intros (dataHex & Hs & Hj & Hp & Ho & Ht).
      apply isStr_spec in Hp. now rewrite Hs, Hj, Hp, Ho, Ht.
  - intros d h x u _ Hd Hc.
    exists (bindParam (orElse (getField data "max") (JStr "0"))),
           (bindParam (orElse (getField data "lim") (JStr "0"))).
    split; [|split; [|split; [|split]]].
    + rewrite (saveTransaction_deploy _ _ _ _ _ Hd).
      unfold withTokens. cbn [tokens]. now rewrite insertOrIgnoreToken_cases, Hc.
    + apply orElse_zero.
    + apply orElse_zero.
    + intros s E Hne _. now apply orElse_string.
    + intros s E Hne _. now apply orElse_string.
  - intros d h x u _ Hm Ht Hx.
    exists (bindParam (orElse (getField data "amt") (JStr "0"))).
    split; [|split].
    + rewrite (saveTransaction_mint _ _ _ _ _ Hm), Ht.
      unfold withTransactions. cbn [transactions].
      rewrite insertOrIgnoreTransaction_cases.
      change (txid (mintRow h x data u)) with x. now rewrite Hx, map_app.
    + apply orElse_zero.
    + intros s E Hne _. now apply orElse_string.
Qed.

Lemma parseDRC20FromHex_checks_tag_op_tick_witness :
  parseDRC20FromHex MoreExamples.deployMaxOnly = Some MoreExamples.deployMaxOnlyData
  /\ Keeps.asciiTick MoreExamples.deployMaxOnlyData = true
  /\ deployTick MoreExamples.deployMaxOnlyData = Some "NEW"
  /\ getField MoreExamples.deployMaxOnlyData "lim" = None
  /\ tokens (fst (saveTransaction Examples.emptyDb 5700000 "t0"
                    MoreExamples.deployMaxOnlyData))
     = [mkToken "NEW" None (Text "1000000") (Text "0") "t0" 5700000 ""].
Proof.
  pose proof (parseDRC20FromHex_checks_tag_op_tick MoreExamples.deployMaxOnly
                MoreExamples.deployMaxOnlyData) as (A & B & _).
  split.
  - apply A. exists (slice 4 MoreExamples.deployMaxOnly).
    repeat split; vm_compute; reflexivity.
  - split; [reflexivity|]. split; [reflexivity|]. split; [reflexivity|].
    destruct (B Examples.emptyDb 5700000 "t0" "NEW" eq_refl eq_refl eq_refl)
      as (mx & lm & E & _ & Hl & Hm & _).
    rewrite E, (Hl eq_refl), (Hm "1000000" eq_refl); [reflexivity | discriminate | reflexivity].
Defined.

(** C7 as stated fails: a deploy with neither [max] nor [lim] and a mint
    whose [amt] is [abc] both decode, and both are saved, the deploy with
    [0] for the missing fields. *)
Lemma loose_fields_are_accepted :
  parseDRC20FromHex Examples.deployNoLim = Some Examples.deployNoLimData
  /\ getField Examples.deployNoLimData "max" = None
  /\ getField Examples.deployNoLimData "lim" = None
  /\ tokens (initialScan Examples.chainLoose Examples.emptyDb)
     = [mkToken "NEW" None (Text "0") (Text "0") "t0" 5700000 ""]
  /\ map amount (transactions (initialScan Examples.chainLoose Examples.emptyDb))
     = [Text "abc"].
Proof. repeat split; vm_compute; reflexivity. Qed.

(** * Facts about the ledger the scanner builds *)

(** C1.  In [chainOverLimit] DOGE is deployed with [lim] 1000 and a mint of
    1500 follows; the scan records the mint as valid and the statistics count
    it.  In [chainOverSupply] DOGE has [max] 1000 and two mints of 1000
    follow; both are recorded and the total is 2000.  Neither the limit nor
    the supply is ever compared with an amount. *)
Theorem mint_beyond_limit_and_supply_is_recorded :
  map (fun t => (tick t, mint_limit t))
      (tokens (initialScan Examples.chainOverLimit Examples.emptyDb))
  = [("DOGE", Text "1000")]
  /\ map (fun r => (tx_tick r, amount r, is_valid r))
         (transactions (initialScan Examples.chainOverLimit Examples.emptyDb))
     = [("DOGE", Text "1500", true)]
  /\ Indexer.getTokenStats (initialScan Examples.chainOverLimit Examples.emptyDb) "DOGE"
     = Some (Indexer.mkStats 1500 1)
  /\ map (fun t => (tick t, max_supply t))
         (tokens (initialScan Examples.chainOverSupply Examples.emptyDb))
     = [("DOGE", Text "1000")]
  /\ Indexer.getTokenStats (initialScan Examples.chainOverSupply Examples.emptyDb) "DOGE"
     = Some (Indexer.mkStats 2000 2).
Proof. repeat split; vm_compute; reflexivity. Qed.

(** * Facts about the statistics *)

Import Indexer.

Lemma isDigit_range c : isDigit c = true -> 48 <= code c <= 57.
Proof. unfold isDigit, inRange. intros H. apply andb_true_iff in H. lia. Qed.

Lemma digitsVal_acc cs : forall a,
  0 <= a -> forallb isDigit cs = true ->
  0 <= fold_left (fun a c => 10 * a + (code c - 48)) cs a.
Proof.
  induction cs as [|c cs IH]; intros a Ha H; cbn [fold_left forallb] in *;
    [assumption|].
  apply andb_true_iff in H as [Hc Hcs]. apply isDigit_range in Hc.
  apply IH; [lia | assumption].
Qed.

Lemma digitsVal_nonneg cs : forallb isDigit cs = true -> 0 <= digitsVal cs.
Proof. intros H. apply digitsVal_acc; [lia | assumption]. Qed.

Lemma spanDigits_all cs : forallb isDigit cs = true -> spanDigits cs = (cs, []).
Proof.
  induction cs as [|c cs IH]; intros H; cbn [spanDigits forallb] in *;
    [reflexivity|].
  apply andb_true_iff in H as [Hc Hcs]. now rewrite Hc, IH.
Qed.

Lemma digit_not_space c : isDigit c = true -> isStrWhiteSpace c = false.
Proof.
  intros H. apply isDigit_range in H. unfold isStrWhiteSpace.
  repeat (apply orb_false_iff; split); apply Z.eqb_neq; lia.
Qed.

(** On a string of decimal digits the cast is the clamped value. *)
Lemma castTextInteger_decimal s n :
  decimalValue s = Some n -> castTextInteger s = clamp64 n /\ 0 <= n.
Proof.
  unfold decimalValue. destruct s as [|c r]; cbn [list_ascii_of_string]; [discriminate|].
  destruct (forallb isDigit (c :: list_ascii_of_string r)) eqn:Hall; [|discriminate].
  intros H; injection H as <-. split; [|now apply digitsVal_nonneg].
  pose proof Hall as Hall'. cbn [forallb] in Hall'.
  apply andb_true_iff in Hall' as [Hc _].
  unfold castTextInteger. cbn [trimStart]. rewrite (digit_not_space _ Hc).
  apply isDigit_range in Hc.
  destruct (code c =? 45) eqn:E1; [apply Z.eqb_eq in E1; lia|].
  destruct (code c =? 43) eqn:E2; [apply Z.eqb_eq in E2; lia|].
  cbn [list_ascii_of_string]. now rewrite (spanDigits_all _ Hall).
Qed.

Lemma clamp64_small n : 0 <= n <= 2 ^ 53 -> clamp64 n = n.
Proof.
  intros H. unfold clamp64, INT64_MIN, INT64_MAX.
  assert (2 ^ 53 = 9007199254740992) by reflexivity. lia.
Qed.

Lemma toDouble_small z : Z.abs z <= 2 ^ 53 -> toDouble z = z.
Proof.
  intros H. unfold toDouble. apply Z.leb_le in H. now rewrite H.
Qed.

(** The aggregate over non-negative values whose sum stays small. *)
Lemma sum_exact ns : forall a,
  Forall (fun n => 0 <= n) ns -> 0 <= a -> a + fold_right Z.add 0 ns <= 2 ^ 53 ->
  fold_left sumStep (map CastInt ns) (SumTotal a)
  = SumTotal (a + fold_right Z.add 0 ns).
Proof.
  induction ns as [|n ns IH]; intros a Hns Ha Hs; cbn [map fold_left fold_right] in *.
  - now rewrite Z.add_0_r.
  - inversion Hns as [|? ? Hn Hns']; subst.
    assert (Hpos : 0 <= fold_right Z.add 0 ns).
    { clear -Hns'. induction Hns'; cbn; lia. }
    assert (H53 : 2 ^ 53 = 9007199254740992) by reflexivity.
    cbn [sumStep]. unfold INT64_MIN, INT64_MAX.
    replace ((-9223372036854775808 <=? a + n) && (a + n <=? 9223372036854775807))
      with true by (symmetry; apply andb_true_iff; split; apply Z.leb_le; lia).
    rewrite IH; [f_equal; lia | assumption | lia | lia].
Qed.

Lemma casts_of_exact rows ns :
  map exactAmount rows = map Some ns ->
  fold_right Z.add 0 ns <= 2 ^ 53 ->
  Forall (fun n => 0 <= n) ns
  /\ map (fun r => castInteger (amount r)) rows = map CastInt ns.
Proof.
  revert ns. induction rows as [|r rows IH]; intros [|n ns] H Hs;
    try discriminate; [split; [constructor | reflexivity]|].
  cbn [map] in H. injection H as Hr Hrows. cbn [fold_right] in Hs.
  unfold exactAmount in Hr. destruct (amount r) as [|s|v] eqn:Ha; try discriminate.
  destruct (castTextInteger_decimal _ _ Hr) as [Hc Hn].
  assert (Hpos : Forall (fun n => 0 <= n) ns /\ 0 <= fold_right Z.add 0 ns).
  { clear -Hrows. revert ns Hrows.
    induction rows as [|r' rows IH']; intros [|m ms] H; try discriminate.
    - split; [constructor | cbn; lia].
    - cbn [map] in H. injection H as Hr' Hrows'.
      destruct (IH' _ Hrows') as [A B].
      unfold exactAmount in Hr'. destruct (amount r'); try discriminate.
      apply castTextInteger_decimal in Hr' as [_ Hm].
      split; [constructor; assumption | cbn; lia]. }
  destruct Hpos as [Hall Hsum].
  destruct (IH ns Hrows) as [_ Hmap]; [lia|].
  split; [constructor; assumption|].
  cbn [map]. rewrite Ha. cbn [castInteger]. rewrite Hc, clamp64_small by lia.
  now rewrite Hmap.
Qed.

(** C8, as amended.  When the amount of every valid mint row of the tick is
    a string of decimal digits and the exact sum of the amounts is at most
    [2^53], [getTokenStats] reports that sum, and the number of rows.  (The
    arithmetic is SQLite's 64-bit integer arithmetic, returned as a
    JavaScript number; beyond these bounds the report is not the sum.) *)
Theorem getTokenStats_exact_below_2_53 d t ns :
  map exactAmount (mintRows d t) = map Some ns ->
  fold_right Z.add 0 ns <= 2 ^ 53 ->
  getTokenStats d t
  = Some (mkStats (fold_right Z.add 0 ns) (Z.of_nat (List.length ns))).
Proof.
  intros Hrows Hsum. unfold getTokenStats.
  destruct (casts_of_exact _ _ Hrows Hsum) as [Hpos Hmap].
  assert (Hlen : List.length (mintRows d t) = List.length ns).
  { apply (f_equal (@List.length _)) in Hrows. now rewrite !length_map in Hrows. }
  rewrite Hmap, Hlen.
  destruct ns as [|n ns]; [reflexivity|].
  cbn [map fold_left]. inversion Hpos as [|? ? Hn Hns]; subst.
  assert (Hrest : 0 <= fold_right Z.add 0 ns).
  { clear -Hns. induction Hns; cbn; lia. }
  cbn [fold_right] in Hsum.
  change (sumStep SumEmpty (CastInt n)) with (SumTotal n).
  rewrite sum_exact by (assumption || lia).
  cbn [fold_right]. rewrite toDouble_small; [reflexivity|].
  rewrite Z.abs_eq; lia.
Qed.

Lemma getTokenStats_exact_below_2_53_witness :
  map exactAmount
      (mintRows (initialScan Examples.chainOverSupply Examples.emptyDb) "doge")
  = map Some [1000; 1000]
  /\ fold_right Z.add 0 [1000; 1000] <= 2 ^ 53
  /\ getTokenStats (initialScan Examples.chainOverSupply Examples.emptyDb) "doge"
     = Some (mkStats 2000 2).
Proof.
  assert (A : map exactAmount
                (mintRows (initialScan Examples.chainOverSupply Examples.emptyDb) "doge")
              = map Some [1000; 1000]) by (vm_compute; reflexivity).
  assert (B : fold_right Z.add 0 [1000; 1000] <= 2 ^ 53) by (vm_compute; discriminate).
  split; [exact A|]. split; [exact B|].
  apply (getTokenStats_exact_below_2_53 _ "doge" [1000; 1000] A B).
Defined.

(** C8 as stated fails.  After one mint of [10^20] the total reported is
    [2^63]: the cast stops at [2^63 - 1] and the driver rounds to a double.
    After two mints of [2^63 - 1] the sum overflows, the query raises, and
    the [catch] reports zero mints. *)
Lemma total_minted_is_not_the_exact_sum :
  map exactAmount (mintRows (initialScan Examples.chainHuge Examples.emptyDb) "DOGE")
  = [Some 100000000000000000000]
  /\ getTokenStats (initialScan Examples.chainHuge Examples.emptyDb) "DOGE"
     = Some (mkStats 9223372036854775808 1)
  /\ map exactAmount (mintRows (initialScan Examples.chainTwoMax Examples.emptyDb) "DOGE")
     = [Some 9223372036854775807; Some 9223372036854775807]
  /\ getTokenStats (initialScan Examples.chainTwoMax Examples.emptyDb) "DOGE"
     = Some (mkStats 0 0).
Proof. repeat split; vm_compute; reflexivity. Qed.

(** * Facts about the auditor *)

(** ** Groups *)

Lemma insertTick_In t x l : In t (insertTick x l) <-> t = x \/ In t l.
Proof.
  induction l as [|k r IH]; cbn [insertTick].
  - cbn. intuition.
  - destruct (String.compare x k) eqn:E.
    + apply String.compare_eq_iff in E. subst. cbn. intuition.
    + cbn. intuition.
    + cbn. rewrite IH. intuition.
Qed.

Lemma distinctTicks_acc t l : forall acc,
  In t (fold_left (fun a x => insertTick x a) l acc) <-> In t acc \/ In t l.
Proof.
  induction l as [|x l IH]; intros acc; cbn [fold_left].
  - cbn. intuition.
  - rewrite IH, insertTick_In. cbn. intuition.
Qed.

Lemma distinctTicks_In t l : In t (distinctTicks l) <-> In t l.
Proof. unfold distinctTicks. rewrite distinctTicks_acc. cbn. intuition. Qed.

Lemma groupCount_In row l :
  In row (groupCount l) -> snd row = countOf (fst row) l /\ In (fst row) l.
Proof.
  unfold groupCount. rewrite in_map_iff. intros (t & <- & Ht).
  split; [reflexivity | now apply distinctTicks_In].
Qed.

Lemma groupCount_keys t l : In t l -> In t (map fst (groupCount l)).
Proof.
  intros H. unfold groupCount. rewrite map_map. cbn [fst]. rewrite map_id.
  now apply distinctTicks_In.
Qed.

Lemma groupCount_keys_inv t l : In t (map fst (groupCount l)) -> In t l.
Proof.
  unfold groupCount. rewrite map_map. cbn [fst]. rewrite map_id.
  apply distinctTicks_In.
Qed.

Lemma countOf_notin t l : ~ In t l -> countOf t l = 0.
Proof.
  intros H. unfold countOf. apply (count_occ_not_In string_dec) in H. now rewrite H.
Qed.

(** ** The object [result] *)

Lemma getOwn_setOwn res k v k' :
  getOwn (setOwn res k v) k' = if String.eqb k' k then Some v else getOwn res k'.
Proof.
  induction res as [|[e v0] r IH]; cbn [setOwn getOwn].
  - reflexivity.
  - destruct (String.eqb_spec k e) as [->|Hke]; cbn [getOwn].
    + destruct (String.eqb_spec k' e); reflexivity.
    + rewrite IH. destruct (String.eqb_spec k' e) as [->|]; [|reflexivity].
      destruct (String.eqb_spec e k); [congruence | reflexivity].
Qed.

Lemma getOwn_In res t v : getOwn res t = Some v -> In (t, v) res.
Proof.
  induction res as [|[e v0] r IH]; cbn [getOwn]; [discriminate|].
  destruct (String.eqb_spec t e) as [->|].
  - intros H; injection H as ->. now left.
  - intros H. right. now apply IH.
Qed.

Lemma getOwn_None res t : getOwn res t = None <-> ~ In t (map fst res).
Proof.
  induction res as [|[e v0] r IH]; cbn [getOwn map fst].
  - cbn. intuition.
  - destruct (String.eqb_spec t e) as [->|Hne].
    + split; [discriminate | intros H; exfalso; apply H; now left].
    + rewrite IH. cbn. intuition congruence.
Qed.

Lemma In_getOwn res t v :
  NoDup (map fst res) -> In (t, v) res -> getOwn res t = Some v.
Proof.
  induction res as [|[e v0] r IH]; cbn [getOwn map fst]; [contradiction|].
  intros Hn [H|H]; inversion Hn as [|? ? Hnotin Hr]; subst.
  - injection H as -> ->. now rewrite String.eqb_refl.
  - destruct (String.eqb_spec t e) as [->|]; [|now apply IH].
    exfalso. apply Hnotin. now apply (in_map fst) in H.
Qed.

Lemma setOwn_keys res k v :
  map fst (setOwn res k v)
  = match getOwn res k with
    | Some _ => map fst res
    | None => map fst res ++ [k]
    end.
Proof.
  induction res as [|[e v0] r IH]; cbn [setOwn getOwn map fst]; [reflexivity|].
  destruct (String.eqb_spec k e) as [->|]; cbn [map fst]; [reflexivity|].
  rewrite IH. now destruct (getOwn r k).
Qed.

Lemma NoDup_snoc (l : list string) k : NoDup l -> ~ In k l -> NoDup (l ++ [k]).
Proof.
  induction l as [|x l IH]; intros Hn Hk; cbn.
  - constructor; [intros [] | constructor].
  - inversion Hn; subst. constructor.
    + rewrite in_app_iff. cbn. intros [H|[H|[]]]; [contradiction|].
      apply Hk. now left.
    + apply IH; [assumption|]. intros H. apply Hk. now right.
Qed.

Lemma setOwn_NoDup res k v :
  NoDup (map fst res) -> NoDup (map fst (setOwn res k v)).
Proof.
  intros H. rewrite setOwn_keys. destruct (getOwn res k) eqn:E; [assumption|].
  apply NoDup_snoc; [assumption | now apply getOwn_None].
Qed.

Lemma getOwn_setOwn_covered res k v t :
  getOwn res t <> None -> getOwn (setOwn res k v) t <> None.
Proof.
  intros H. rewrite getOwn_setOwn. destruct (String.eqb t k); [discriminate | assumption].
Qed.

(** ** The two loops of [getTransactionCounts] *)

Lemma site_loop site rows : forall res,
  (forall row, In row rows -> snd row = countOf (fst row) site) ->
  NoDup (map fst res) ->
  (forall t s b, getOwn res t = Some (s, b) -> s = countOf t site /\ b = 0) ->
  NoDup (map fst (fold_left addSite rows res))
  /\ (forall t s b, getOwn (fold_left addSite rows res) t = Some (s, b) ->
        s = countOf t site /\ b = 0)
  /\ (forall t, getOwn res t <> None \/ In t (map fst rows) ->
        getOwn (fold_left addSite rows res) t <> None).
Proof.
  induction rows as [|row rows IH]; intros res Hrows Hnd Hinv; cbn [fold_left].
  - split; [assumption|]. split; [assumption|]. intros t [H|[]]. assumption.
  - destruct (IH (addSite res row)) as (A & B & C).
    + intros r Hr. apply Hrows. now right.
    + now apply setOwn_NoDup.
    + intros t s b. unfold addSite. rewrite getOwn_setOwn.
      destruct (String.eqb_spec t (fst row)) as [->|]; [|apply Hinv].
      intros H; injection H as <- <-. split; [|reflexivity].
      apply Hrows. now left.
    + split; [assumption|]. split; [assumption|].
      intros t [H|[H|H]]; apply C.
      * left. now apply getOwn_setOwn_covered.
      * left. unfold addSite. rewrite getOwn_setOwn, <- H, String.eqb_refl. discriminate.
      * now right.
Qed.

Lemma inherited_spec t :
  existsb (String.eqb t) inheritedNames = true <-> In t inheritedNames.
Proof.
  rewrite existsb_exists. split.
  - intros (x & Hx & E). apply String.eqb_eq in E. now subst.
  - intros H. exists t. split; [assumption | apply String.eqb_refl].
Qed.

Lemma chain_loop site chn rows : forall res,
  (forall row, In row rows -> snd row = countOf (fst row) chn) ->
  NoDup (map fst res) ->
  (forall t, In t site -> getOwn res t <> None) ->
  (forall t s b, getOwn res t = Some (s, b) ->
     s = countOf t site
     /\ (b = countOf t chn \/ (b = 0 /\ In t (map fst rows)))) ->
  NoDup (map fst (fold_left addBlockchain rows res))
  /\ (forall t, In t site -> getOwn (fold_left addBlockchain rows res) t <> None)
  /\ (forall t s b, getOwn (fold_left addBlockchain rows res) t = Some (s, b) ->
        s = countOf t site /\ b = countOf t chn)
  /\ (forall t, getOwn res t <> None
                \/ (In t (map fst rows) /\ ~ In t inheritedNames) ->
        getOwn (fold_left addBlockchain rows res) t <> None).
Proof.
  induction rows as [|row rows IH]; intros res Hrows Hnd Hsite Hinv; cbn [fold_left].
  - split; [assumption|]. split; [assumption|]. split.
    + intros t s b H. destruct (Hinv t s b H) as [Hs [Hb|[_ []]]]. now split.
    + intros t [H|[[] _]]. assumption.
  - assert (Hstep : forall t, getOwn res t <> None ->
                              getOwn (addBlockchain res row) t <> None).
    { intros t H. unfold addBlockchain.
      destruct (getOwn res (fst row)) as [[s0 b0]|];
        [now apply getOwn_setOwn_covered|].
      destruct (existsb (String.eqb (fst row)) inheritedNames);
        [assumption | now apply getOwn_setOwn_covered]. }
    destruct (IH (addBlockchain res row)) as (A & B & C & D).
    + intros r Hr. apply Hrows. now right.
    + unfold addBlockchain. destruct (getOwn res (fst row)) as [[s0 b0]|];
        [now apply setOwn_NoDup|].
      destruct (existsb (String.eqb (fst row)) inheritedNames);
        [assumption | now apply setOwn_NoDup].
    + intros t Ht. apply Hstep, Hsite, Ht.
    + intros t s b. unfold addBlockchain.
      assert (Hold : forall t', t' <> fst row -> getOwn res t' = Some (s, b) ->
                s = countOf t' site
                /\ (b = countOf t' chn \/ (b = 0 /\ In t' (map fst rows)))).
      { intros t' Hne H. destruct (Hinv t' s b H) as [Hs [Hb|[Hb [Hin|Hin]]]].
        - auto.
        - congruence.
        - auto. }
      destruct (getOwn res (fst row)) as [[s0 b0]|] eqn:E.
      * rewrite getOwn_setOwn.
        destruct (String.eqb_spec t (fst row)) as [->|Hne]; [|now apply Hold].
        intros H; injection H as <- <-. split.
        -- apply (Hinv (fst row) s0 b0 E).
        -- left. apply Hrows. now left.
      * destruct (existsb (String.eqb (fst row)) inheritedNames).
        -- intros H. apply Hold; [|assumption]. intros ->. congruence.
        -- rewrite getOwn_setOwn.
           destruct (String.eqb_spec t (fst row)) as [->|Hne]; [|now apply Hold].
           intros H; injection H as <- <-. split.
           ++ symmetry. apply countOf_notin. intros Hin.
              apply (Hsite _ Hin). exact E.
           ++ left. apply Hrows. now left.
    + split; [assumption|]. split; [assumption|]. split; [assumption|].
      intros t [H|[[H|H] Hni]]; apply D.
      * left. now apply Hstep.
      * left. subst t. unfold addBlockchain.
        destruct (getOwn res (fst row)) as [[s0 b0]|] eqn:E.
        -- rewrite getOwn_setOwn, String.eqb_refl. discriminate.
        -- destruct (existsb (String.eqb (fst row)) inheritedNames) eqn:Ei.
           ++ apply inherited_spec in Ei. contradiction.
           ++ rewrite getOwn_setOwn, String.eqb_refl. discriminate.
      * right. now split.
Qed.

Lemma filter_passes_None l : filter (passes None) l = l.
Proof. induction l as [|x l IH]; cbn; [reflexivity | now rewrite IH]. Qed.

(** ** The object and the list *)

Lemma site_loop_plain rows : forall o,
  ~ In "__proto__" (map fst rows) ->
  fold_left addSiteTo rows o = withOwn o (fold_left addSite rows (own o)).
Proof.
  induction rows as [|row rows IH]; intros o H; cbn [fold_left].
  - now destruct o.
  - cbn [map] in H. rewrite IH by (intros Hin; apply H; now right).
    unfold addSiteTo. destruct (String.eqb_spec (fst row) "__proto__") as [E|_].
    + exfalso. apply H. now left.
    + reflexivity.
Qed.

Lemma chain_loop_plain rows : forall o,
  ~ In "__proto__" (map fst rows) ->
  replaced o = None -> polluted o = None ->
  fold_left chainStep rows (inl o)
  = inl (withOwn o (fold_left addBlockchain rows (own o))).
Proof.
  induction rows as [|row rows IH]; intros o H Hr Hp; cbn [fold_left].
  - now destruct o.
  - cbn [map] in H. unfold chainStep at 2. unfold addBlockchainTo.
    destruct (String.eqb_spec (fst row) "__proto__") as [E|_].
    + exfalso. apply H. now left.
    + assert (Hn : inheritedNumber o (fst row) = None).
      { unfold inheritedNumber. rewrite Hr, Hp.
        now destruct (String.eqb (fst row) "blockchain"). }
      rewrite Hn.
      replace (match getOwn (own o) (fst row) with
               | Some _ => Some (withOwn o (addBlockchain (own o) row))
               | None => Some (withOwn o (addBlockchain (own o) row))
               end)
        with (Some (withOwn o (addBlockchain (own o) row)))
        by now destruct (getOwn (own o) (fst row)).
      rewrite IH; [reflexivity | intros Hin; apply H; now right | exact Hr | exact Hp].
Qed.

(** When no tick that passes the filter is [__proto__], the object returned
    has the properties the two loops give on the list, its prototype is the
    one it was made with, and [Object.prototype] was not written. *)
Lemma getTransactionCountsObject_plain d t :
  ~ In "__proto__" (filter (passes (tickFilter t)) (siteTicks d)) ->
  ~ In "__proto__" (filter (passes (tickFilter t)) (chainTicks d)) ->
  getTransactionCountsObject d t = mkResultObject (plainCounts d t) None None.
Proof.
  intros Hs Hc. unfold getTransactionCountsObject, plainCounts.
  change (map site_tick (site_transactions d)) with (siteTicks d).
  change (map tx_tick (filter is_blackdoge_tx (transactions d))) with (chainTicks d).
  rewrite site_loop_plain
    by (intros H; apply Hs; now apply groupCount_keys_inv).
  rewrite chain_loop_plain;
    [reflexivity | intros H; apply Hc; now apply groupCount_keys_inv
    | reflexivity | reflexivity].
Qed.

(** The run on a database none of whose ticks is [__proto__]. *)
Lemma verifyTransactionCounts_plain d :
  ~ In "__proto__" (siteTicks d ++ chainTicks d) ->
  getTransactionCounts d None = plainCounts d None
  /\ verifyTransactionCounts d
     = (withVerificationStats d
          (verification_stats d
           ++ map verificationOf (forIn (plainCounts d None))),
        (forallb (fun e => fst (snd e) =? snd (snd e)) (forIn (plainCounts d None)),
         map detailOf (forIn (plainCounts d None)))).
Proof.
  intros Hp.
  assert (H : getTransactionCountsObject d None
              = mkResultObject (plainCounts d None) None None).
  { apply getTransactionCountsObject_plain; cbn [tickFilter];
      rewrite filter_passes_None; intros H; apply Hp; apply in_or_app; auto. }
  unfold verifyTransactionCounts, getTransactionCounts. rewrite H.
  split; reflexivity.
Qed.

(** What [getTransactionCounts()] holds. *)
Lemma getTransactionCounts_spec d :
  let res := plainCounts d None in
  NoDup (map fst res)
  /\ (forall t, In t (siteTicks d) -> getOwn res t <> None)
  /\ (forall t s b, getOwn res t = Some (s, b) ->
        s = countOf t (siteTicks d) /\ b = countOf t (chainTicks d))
  /\ (forall t, In t (chainTicks d) -> ~ In t inheritedNames -> getOwn res t <> None).
Proof.
  cbv zeta. unfold plainCounts. cbn [tickFilter].
  rewrite !filter_passes_None.
  change (map site_tick (site_transactions d)) with (siteTicks d).
  change (map tx_tick (filter is_blackdoge_tx (transactions d))) with (chainTicks d).
  destruct (site_loop (siteTicks d) (groupCount (siteTicks d)) []) as (A & B & C).
  - intros row H. now apply groupCount_In.
  - constructor.
  - intros t s b H. discriminate.
  - destruct (chain_loop (siteTicks d) (chainTicks d) (groupCount (chainTicks d))
                (fold_left addSite (groupCount (siteTicks d)) []))
      as (A' & B' & C' & D').
    + intros row H. now apply groupCount_In.
    + assumption.
    + intros t Ht. apply C. right. now apply groupCount_keys.
    + intros t s b H. destruct (B t s b H) as [Hs Hb]. split; [assumption|].
      destruct (in_dec string_dec t (chainTicks d)) as [Hin|Hin].
      * right. split; [assumption | now apply groupCount_keys].
      * left. rewrite Hb. symmetry. now apply countOf_notin.
    + split; [assumption|]. split; [assumption|]. split; [assumption|].
      intros t Ht Hni. apply D'. right. split; [now apply groupCount_keys | assumption].
Qed.

(** ** The order of the visit *)

Lemma insertByIndex_In x i e l : In x (insertByIndex i e l) <-> x = (i, e) \/ In x l.
Proof.
  induction l as [|[j e'] r IH]; cbn [insertByIndex].
  - cbn. intuition.
  - destruct (i <? j); cbn; [intuition|]. rewrite IH. intuition.
Qed.

Lemma indexed_In i e res : forall acc,
  In (i, e)
     (fold_left
        (fun acc e0 =>
           match arrayIndex (fst e0) with
           | Some j => insertByIndex j e0 acc
           | None => acc
           end) res acc)
  <-> In (i, e) acc \/ (In e res /\ arrayIndex (fst e) = Some i).
Proof.
  induction res as [|e0 res IH]; intros acc; cbn [fold_left].
  - cbn. intuition.
  - rewrite IH. destruct (arrayIndex (fst e0)) as [j|] eqn:E.
    + rewrite insertByIndex_In. cbn. split.
      * intros [[H|H]|H]; [|now left|right; intuition].
        injection H as -> ->. right. auto.
      * intros [H|[[H|H] Hi]]; [left; now right| |right; auto].
        subst e0. left. left. congruence.
    + cbn. split.
      * intros [H|[H Hi]]; [now left | right; auto].
      * intros [H|[[H|H] Hi]]; [now left| |right; auto].
        subst e0. congruence.
Qed.

(** The visit reaches the properties of the object, each of them. *)
Lemma forIn_In e res : In e (forIn res) <-> In e res.
Proof.
  unfold forIn. rewrite in_app_iff, in_map_iff, filter_In. split.
  - intros [([i e'] & He & H)|[H _]]; [|assumption].
    cbn in He. subst e'. apply indexed_In in H as [[]|[H _]]. assumption.
  - intros H. destruct (arrayIndex (fst e)) as [i|] eqn:E.
    + left. exists (i, e). split; [reflexivity|].
      apply indexed_In. right. auto.
    + right. auto.
Qed.

Lemma v_tick_verificationOf e : v_tick (verificationOf e) = fst e.
Proof. now destruct e as [t [s b]]. Qed.

(** X26.  On a database none of whose ticks is [__proto__], a run of
    [verifyTransactionCounts] appends one row to [verification_stats] for
    each tick it visits and writes nothing else: tokens, balances,
    transactions, site transactions and the checkpoint are as before.  In
    each appended row the two counts are the numbers of rows of that tick in
    [site_transactions] and among the transactions flagged
    [is_blackdoge_tx], and [is_verified] tells whether they are equal.  Every
    tick of [site_transactions] is visited, and so is every tick of the
    flagged transactions, except one that is the name of a member of
    [Object.prototype] and has no site row. *)
Theorem verifyTransactionCounts_appends_verdicts d :
  ~ In "__proto__" (siteTicks d ++ chainTicks d) ->
  let d' := fst (verifyTransactionCounts d) in
  tokens d' = tokens d
  /\ balances d' = balances d
  /\ transactions d' = transactions d
  /\ site_transactions d' = site_transactions d
  /\ indexer_state d' = indexer_state d
  /\ exists recs,
       verification_stats d' = verification_stats d ++ recs
       /\ map v_tick recs = map fst (forIn (getTransactionCounts d None))
       /\ Forall (fun r =>
                    site_count r = countOf (v_tick r) (siteTicks d)
                    /\ blockchain_count r = countOf (v_tick r) (chainTicks d)
                    /\ is_verified r = (site_count r =? blockchain_count r))
                 recs
       /\ (forall t, In t (siteTicks d) -> In t (map v_tick recs))
       /\ (forall t, In t (chainTicks d) -> ~ In t inheritedNames ->
             In t (map v_tick recs)).
Proof.
  intros Hp. cbv zeta.
  unfold verifyTransactionCounts, getTransactionCounts.
  rewrite (getTransactionCountsObject_plain d None)
    by (cbn [tickFilter]; rewrite filter_passes_None; intros H; apply Hp;
        apply in_or_app; auto).
  cbn [inheritedKeys own replaced polluted filter fst].
  repeat (split; [reflexivity|]).
  destruct (getTransactionCounts_spec d) as (Hnd & Hsite & Hcounts & Hchain).
  set (res := plainCounts d None) in *.
  exists (map verificationOf (forIn res)).
  split; [reflexivity|]. split; [|split; [|split]].
  - rewrite map_map. apply map_ext. apply v_tick_verificationOf.
  - apply Forall_forall. intros r Hr. apply in_map_iff in Hr as ([t [s b]] & <- & He).
    apply (proj1 (forIn_In _ _)) in He. apply (In_getOwn _ _ _ Hnd) in He.
    destruct (Hcounts t s b He) as [Hs Hb]. cbn. auto.
  - intros t Ht. specialize (Hsite t Ht).
    destruct (getOwn res t) as [v|] eqn:E; [|congruence].
    apply getOwn_In in E. apply (proj2 (forIn_In _ _)) in E.
    rewrite map_map. apply in_map_iff. exists (t, v).
    split; [apply v_tick_verificationOf | assumption].
  - intros t Ht Hni. specialize (Hchain t Ht Hni).
    destruct (getOwn res t) as [v|] eqn:E; [|congruence].
    apply getOwn_In in E. apply (proj2 (forIn_In _ _)) in E.
    rewrite map_map. apply in_map_iff. exists (t, v).
    split; [apply v_tick_verificationOf | assumption].
Qed.

Lemma verifyTransactionCounts_appends_verdicts_witness :
  ~ In "__proto__" (siteTicks Examples.auditDb ++ chainTicks Examples.auditDb)
  /\ tokens (fst (verifyTransactionCounts Examples.auditDb)) = tokens Examples.auditDb
  /\ balances (fst (verifyTransactionCounts Examples.auditDb))
     = balances Examples.auditDb.
Proof.
  assert (H : ~ In "__proto__"
                (siteTicks Examples.auditDb ++ chainTicks Examples.auditDb)).
  { vm_compute. intros [H|[H|[H|[H|[H|[]]]]]]; discriminate. }
  split; [exact H|].
  destruct (verifyTransactionCounts_appends_verdicts Examples.auditDb H)
    as (A & B & _).
  split; [exact A | exact B].
Defined.


(** The run on [auditDb]: A has two site rows and one flagged transaction, B
    has one of each. *)
Example verifyTransactionCounts_auditDb :
  verification_stats (fst (verifyTransactionCounts Examples.auditDb))
  = [ mkVerification "A" 2 1 false (Some "Site: 2, Blockchain: 1, Diff: 1");
      mkVerification "B" 1 1 true None ]
  /\ fst (snd (verifyTransactionCounts Examples.auditDb)) = false.
Proof. split; vm_compute; reflexivity. Qed.

(** * More facts about the scanner *)

Import Keeps.

(** ** Invariants of a scan *)

Lemma tokenClash_false ts r :
  tokenClash ts r = false ->
  ~ In (tick r) (map tick ts) /\ ~ In (deploy_txid r) (map deploy_txid ts).
Proof.
  unfold tokenClash. intros H.
  assert (A : forall o, In o ts ->
                tick o <> tick r /\ deploy_txid o <> deploy_txid r).
  { intros o Ho.
    assert (E : String.eqb (tick o) (tick r)
                || String.eqb (deploy_txid o) (deploy_txid r) = false).
    { destruct (String.eqb (tick o) (tick r)
                || String.eqb (deploy_txid o) (deploy_txid r)) eqn:E; [|reflexivity].
      rewrite <- H. symmetry. apply existsb_exists. exists o. auto. }
    apply orb_false_iff in E as [E1 E2].
    split; apply String.eqb_neq; assumption. }
  split; intros Hin; apply in_map_iff in Hin as (o & Ho & Hin);
    destruct (A o Hin); congruence.
Qed.

Lemma hasTx_false xs x : hasTx xs x = false -> ~ In x (map txid xs).
Proof.
  unfold hasTx. intros H Hin. apply in_map_iff in Hin as (o & Ho & Hin).
  assert (E : existsb (fun o => String.eqb (txid o) x) xs = true).
  { apply existsb_exists. exists o. split; [assumption|]. subst. apply String.eqb_refl. }
  congruence.
Qed.

Lemma saveTransaction_uniqueKeys d h x data :
  uniqueKeys d -> uniqueKeys (fst (saveTransaction d h x data)).
Proof.
  intros (A & B & C).
  destruct (saveTransaction_shape d h x data) as [u Hd Hm | u Hd Hm Ht | Hd Hm];
    [| |repeat split; assumption].
  - unfold uniqueKeys, withTokens. cbn [tokens transactions].
    rewrite insertOrIgnoreToken_cases.
    destruct (tokenClash (tokens d) _) eqn:E; [repeat split; assumption|].
    apply tokenClash_false in E as [E1 E2].
    rewrite !map_app. cbn [map]. repeat split;
      [apply NoDup_snoc | apply NoDup_snoc |]; assumption.
  - unfold uniqueKeys, withTransactions. cbn [tokens transactions].
    rewrite insertOrIgnoreTransaction_cases.
    destruct (hasTx (transactions d) _) eqn:E; [repeat split; assumption|].
    apply hasTx_false in E. rewrite map_app. cbn [map].
    repeat split; [assumption | assumption | now apply NoDup_snoc].
Qed.

Lemma applyFound_keeps (P : db -> Prop) :
  (forall d h x data, P d -> P (fst (saveTransaction d h x data))) ->
  forall fs d, P d -> P (applyFound d fs).
Proof.
  intros Hstep fs. induction fs as [|f fs IH]; intros d H; [exact H|].
  rewrite applyFound_cons. apply IH, Hstep, H.
Qed.

(** X1.  A scan keeps the keys unique: no two tokens with the same tick or
    from the same deploy transaction, no two transactions with the same id. *)
Theorem scan_keeps_keys_unique c d s e :
  uniqueKeys d -> uniqueKeys (fst (scanBlockRange c d s e)).
Proof.
  intros H. rewrite scanBlockRange_found.
  apply (applyFound_keeps uniqueKeys); [apply saveTransaction_uniqueKeys | exact H].
Qed.

Lemma scan_keeps_keys_unique_witness :
  uniqueKeys Examples.emptyDb
  /\ uniqueKeys (fst (scanBlockRange Examples.chainOverSupply Examples.emptyDb
                        5700000 5700001)).
Proof.
  assert (H : uniqueKeys Examples.emptyDb) by (repeat split; constructor).
  split; [exact H|].
  apply (scan_keeps_keys_unique Examples.chainOverSupply Examples.emptyDb
           5700000 5700001 H).
Defined.

Lemma find_app_Some {A} (f : A -> bool) l l' x :
  find f l = Some x -> find f (l ++ l') = Some x.
Proof.
  induction l as [|a l IH]; cbn; [discriminate|].
  destruct (f a); [trivial | exact IH].
Qed.

(** X2.  The first deploy of a tick wins for good: once [getToken] finds a
    token, no scan changes what it finds. *)
Theorem registered_token_is_final c d s e t r :
  getToken d t = Some r ->
  getToken (fst (scanBlockRange c d s e)) t = Some r.
Proof.
  intros H. rewrite scanBlockRange_found. unfold getToken in *.
  destruct (applyFound_extends (rangeFound c (Z.to_nat (e - s + 1)) s) d)
    as [[ts Hts] _].
  rewrite Hts. now apply find_app_Some.
Qed.

Lemma registered_token_is_final_witness :
  getToken (initialScan Examples.chainDeployFirst Examples.emptyDb) "foo"
  = Some (mkToken "FOO" None (Text "10") (Text "1") "b" 5700000 "")
  /\ getToken
       (fst (scanBlockRange Examples.chainLoose
               (initialScan Examples.chainDeployFirst Examples.emptyDb)
               5700000 5700000)) "foo"
     = Some (mkToken "FOO" None (Text "10") (Text "1") "b" 5700000 "").
Proof.
  assert (H : getToken (initialScan Examples.chainDeployFirst Examples.emptyDb) "foo"
              = Some (mkToken "FOO" None (Text "10") (Text "1") "b" 5700000 ""))
    by (vm_compute; reflexivity).
  split; [exact H|].
  apply (registered_token_is_final Examples.chainLoose _ 5700000 5700000 "foo" _ H).
Defined.

Lemma upperChar_idem c : upperChar (upperChar c) = upperChar c.
Proof. destruct c as [[] [] [] [] [] [] [] []]; reflexivity. Qed.

Lemma toUpperCase_idem s : toUpperCase (toUpperCase s) = toUpperCase s.
Proof.
  induction s as [|c s IH]; cbn [toUpperCase]; [reflexivity|].
  now rewrite upperChar_idem, IH.
Qed.

Lemma deployTick_upper data u : deployTick data = Some u -> toUpperCase u = u.
Proof.
  unfold deployTick. destruct (isStr _ _); [|discriminate].
  destruct (getField data "tick") as [[ | | | t | | ]|]; try discriminate.
  intros H; injection H as <-. apply toUpperCase_idem.
Qed.

Lemma mintTick_upper data u : mintTick data = Some u -> toUpperCase u = u.
Proof.
  unfold mintTick. destruct (isStr _ _); [|discriminate].
  destruct (getField data "tick") as [[ | | | t | | ]|]; try discriminate.
  intros H; injection H as <-. apply toUpperCase_idem.
Qed.

Lemma saveTransaction_upperTicks d h x data :
  upperTicks d -> upperTicks (fst (saveTransaction d h x data)).
Proof.
  intros (A & B).
  destruct (saveTransaction_shape d h x data) as [u Hd Hm | u Hd Hm Ht | Hd Hm];
    [| |split; assumption].
  - unfold upperTicks, withTokens. cbn [tokens transactions].
    rewrite insertOrIgnoreToken_cases.
    destruct (tokenClash (tokens d) _); [split; assumption|].
    split; [|assumption]. apply Forall_app. split; [assumption|].
    constructor; [|constructor]. cbn. eapply deployTick_upper; eassumption.
  - unfold upperTicks, withTransactions. cbn [tokens transactions].
    rewrite insertOrIgnoreTransaction_cases.
    destruct (hasTx (transactions d) _); [split; assumption|].
    split; [assumption|]. apply Forall_app. split; [assumption|].
    constructor; [|constructor]. cbn. eapply mintTick_upper; eassumption.
Qed.

Lemma saveTransaction_mintsRegistered d h x data :
  mintsRegistered d -> mintsRegistered (fst (saveTransaction d h x data)).
Proof.
  unfold mintsRegistered. intros A.
  destruct (saveTransaction_shape d h x data) as [u Hd Hm | u Hd Hm Ht | Hd Hm];
    [| |assumption].
  - unfold withTokens. cbn [tokens transactions].
    rewrite insertOrIgnoreToken_cases.
    destruct (tokenClash (tokens d) _); [assumption|].
    eapply Forall_impl; [|exact A]. cbn beta. intros r Hr.
    rewrite hasToken_app, Hr. reflexivity.
  - unfold withTransactions. cbn [tokens transactions].
    rewrite insertOrIgnoreTransaction_cases.
    destruct (hasTx (transactions d) _); [assumption|].
    apply Forall_app. split; [assumption|].
    constructor; [exact Ht | constructor].
Qed.

(** X3.  A scan stores ticks in upper case, in both tables, and records a
    transaction only for a tick that is registered: if this holds of the
    database before a scan, it holds after. *)
Theorem scan_keeps_ticks_upper_and_registered c d s e :
  upperTicks d -> mintsRegistered d ->
  upperTicks (fst (scanBlockRange c d s e))
  /\ mintsRegistered (fst (scanBlockRange c d s e)).
Proof.
  intros A B. rewrite scanBlockRange_found. split.
  - apply (applyFound_keeps upperTicks); [apply saveTransaction_upperTicks | exact A].
  - apply (applyFound_keeps mintsRegistered);
      [apply saveTransaction_mintsRegistered | exact B].
Qed.

Lemma scan_keeps_ticks_upper_and_registered_witness :
  upperTicks Examples.emptyDb
  /\ mintsRegistered Examples.emptyDb
  /\ upperTicks (fst (scanBlockRange Examples.chainOverSupply Examples.emptyDb
                        5700000 5700001))
  /\ mintsRegistered (fst (scanBlockRange Examples.chainOverSupply Examples.emptyDb
                             5700000 5700001)).
Proof.
  assert (A : upperTicks Examples.emptyDb) by (split; constructor).
  assert (B : mintsRegistered Examples.emptyDb) by constructor.
  split; [exact A|]. split; [exact B|].
  apply (scan_keeps_ticks_upper_and_registered Examples.chainOverSupply
           Examples.emptyDb 5700000 5700001 A B).
Defined.

(** ** Ranges *)

Lemma rangeFound_app c n1 : forall n2 h,
  rangeFound c (n1 + n2) h
  = rangeFound c n1 h ++ rangeFound c n2 (h + Z.of_nat n1).
Proof.
  induction n1 as [|k IH]; intros n2 h.
  - cbn [rangeFound Nat.add app]. now rewrite Z.add_0_r.
  - cbn [rangeFound Nat.add]. rewrite IH, <- app_assoc.
    replace (h + 1 + Z.of_nat k) with (h + Z.of_nat (S k)) by lia. reflexivity.
Qed.

(** X4.  Scanning a range in two consecutive pieces is scanning it in one:
    the database is the same and the list returned is the two lists, one after
    the other. *)
Theorem scanBlockRange_in_two_pieces c d s m e :
  s - 1 <= m -> m <= e ->
  fst (scanBlockRange c (fst (scanBlockRange c d s m)) (m + 1) e)
  = fst (scanBlockRange c d s e)
  /\ snd (scanBlockRange c d s m)
     ++ snd (scanBlockRange c (fst (scanBlockRange c d s m)) (m + 1) e)
     = snd (scanBlockRange c d s e).
Proof.
  intros H1 H2. unfold scanBlockRange. rewrite !scanFrom_found. cbn [fst snd app].
  replace (Z.to_nat (e - s + 1))
    with (Z.to_nat (m - s + 1) + Z.to_nat (e - (m + 1) + 1))%nat by lia.
  rewrite rangeFound_app, applyFound_app.
  replace (s + Z.of_nat (Z.to_nat (m - s + 1))) with (m + 1) by lia.
  split; reflexivity.
Qed.

Lemma scanBlockRange_in_two_pieces_witness :
  5700000 - 1 <= 5700000 /\ 5700000 <= 5700001
  /\ fst (scanBlockRange Examples.chainOverSupply
            (fst (scanBlockRange Examples.chainOverSupply Examples.emptyDb
                    5700000 5700000))
            (5700000 + 1) 5700001)
     = fst (scanBlockRange Examples.chainOverSupply Examples.emptyDb 5700000 5700001).
Proof.
  split; [lia|]. split; [lia|].
  apply (scanBlockRange_in_two_pieces Examples.chainOverSupply Examples.emptyDb
           5700000 5700000 5700001); lia.
Defined.

Lemma voutsFound_In h x vs f :
  In f (fst (voutsFound h x vs)) ->
  f_blockHeight f = h /\ f_txid f = x
  /\ parseDRC20FromHex (f_hex f) = Some (f_data f)
  /\ In (Some (mkScript "nulldata" (f_hex f))) vs.
Proof.
  induction vs as [|v rest IH]; cbn [voutsFound]; [intros []|].
  assert (Hrest : In f (fst (voutsFound h x rest)) ->
                  f_blockHeight f = h /\ f_txid f = x
                  /\ parseDRC20FromHex (f_hex f) = Some (f_data f)
                  /\ In (Some (mkScript "nulldata" (f_hex f))) (v :: rest)).
  { intros H. destruct (IH H) as (A & B & C & D). repeat split; auto. now right. }
  destruct v as [[ty hx]|]; [|exact Hrest]. cbn [type_ hex].
  destruct (String.eqb_spec ty "nulldata") as [->|]; [|exact Hrest].
  cbn [andb]. destruct (negb (String.eqb hx "")); [|exact Hrest].
  destruct (parseDRC20FromHex hx) as [data|] eqn:E; [|exact Hrest].
  assert (Hhere : forall l, In f (mkFound h x data hx :: l) ->
                    (f = mkFound h x data hx \/ In f l)) by (intros l [H|H]; auto).
  destruct (logThrows data); cbn [fst]; intros H; apply Hhere in H as [->|H].
  - cbn. repeat split; auto with datatypes.
  - destruct H.
  - cbn. repeat split; auto with datatypes.
  - now apply Hrest.
Qed.

Lemma txsFound_In h ts f :
  In f (fst (txsFound h ts)) ->
  exists t, In t ts /\ In f (fst (voutsFound h (tx_id t) (vout t))).
Proof.
  induction ts as [|t rest IH]; cbn [txsFound]; [intros []|].
  destruct (voutsFound h (tx_id t) (vout t)) as [l b] eqn:E.
  assert (Hl : In f l -> exists t0, In t0 (t :: rest)
                          /\ In f (fst (voutsFound h (tx_id t0) (vout t0)))).
  { intros H. exists t. split; [now left|]. now rewrite E. }
  destruct b; cbn [fst]; [exact Hl|].
  intros H. apply in_app_iff in H as [H|H]; [now apply Hl|].
  destruct (IH H) as (t0 & A & B). exists t0. split; [now right | exact B].
Qed.

Lemma rangeFound_In c n : forall h f,
  In f (rangeFound c n h) ->
  exists k, h <= k < h + Z.of_nat n /\ In f (blockFound c k).
Proof.
  induction n as [|n IH]; intros h f; cbn [rangeFound]; [intros []|].
  intros H. apply in_app_iff in H as [H|H].
  - exists h. split; [lia | exact H].
  - destruct (IH _ _ H) as (k & Hk & Hf). exists k. split; [lia | exact Hf].
Qed.

(** X5.  Every entry of the list [scanBlockRange] returns comes from a
    null-data output of a transaction of a block of the range: its height is
    within the range, its transaction id is that of the transaction, and its
    data is what [parseDRC20FromHex] makes of the script. *)
Theorem scanBlockRange_entries c d s e f :
  In f (snd (scanBlockRange c d s e)) ->
  s <= f_blockHeight f <= e
  /\ parseDRC20FromHex (f_hex f) = Some (f_data f)
  /\ exists b t,
       blockAt c (f_blockHeight f) = Some b
       /\ In t (block_tx b)
       /\ tx_id t = f_txid f
       /\ In (Some (mkScript "nulldata" (f_hex f))) (vout t).
Proof.
  unfold scanBlockRange. rewrite scanFrom_found. cbn [snd app]. intros H.
  apply rangeFound_In in H as (k & Hk & H). unfold blockFound in H.
  destruct (blockAt c k) as [b|] eqn:Eb; [|destruct H].
  apply txsFound_In in H as (t & Ht & H).
  apply voutsFound_In in H as (A & B & C & D). subst k.
  split; [lia|]. split; [exact C|]. exists b, t. repeat split; auto.
Qed.

Lemma scanBlockRange_entries_witness :
  In (mkFound 5700001 "t1" Examples.mintFOOData Examples.mintFOO)
     (snd (scanBlockRange
             (Examples.chainOf 5700001
                [(5700001, mkBlock "c1" "c0" [Examples.oneTx "t1" Examples.mintFOO])])
             Examples.emptyDb 5700000 5700001))
  /\ 5700000 <= 5700001 <= 5700001.
Proof.
  assert (H : In (mkFound 5700001 "t1" Examples.mintFOOData Examples.mintFOO)
                (snd (scanBlockRange
                        (Examples.chainOf 5700001
                           [(5700001,
                             mkBlock "c1" "c0" [Examples.oneTx "t1" Examples.mintFOO])])
                        Examples.emptyDb 5700000 5700001)))
    by (vm_compute; left; reflexivity).
  split; [exact H|].
  apply (scanBlockRange_entries _ _ _ _ _ H).
Defined.

(** ** Blocks that cannot be fetched *)

Lemma rangeFound_none c n : forall h,
  (forall k, h <= k < h + Z.of_nat n -> blockAt c k = None) ->
  rangeFound c n h = [].
Proof.
  induction n as [|n IH]; intros h H; cbn [rangeFound]; [reflexivity|].
  unfold blockFound. rewrite (H h) by lia. cbn [app]. apply IH.
  intros k Hk. apply H. lia.
Qed.

(** X6.  A block that cannot be fetched is passed over for good.  When none
    of the blocks after the checkpoint can be fetched, [initialScan] stores
    nothing and still moves the checkpoint to the tip. *)
Theorem initialScan_passes_over_failed_blocks c d h0 x tip :
  indexer_state d = Some (h0, x) -> h0 <> 0 ->
  getblockcount c = Some tip -> h0 < tip ->
  (forall k, h0 < k <= tip -> blockAt c k = None) ->
  initialScan c d = withIndexerState d (Some (tip, "")).
Proof.
  intros Hs Hh Hc Ht Hnone. unfold initialScan, Scanner.getLastProcessedBlock.
  rewrite Hc, Hs.
  destruct (Z.eqb_spec h0 0) as [|_]; [contradiction|].
  destruct (Z.leb_spec (h0 + 1) tip) as [_|]; [|lia].
  rewrite scanBlockRange_found, rangeFound_none; [reflexivity|].
  intros k Hk. apply Hnone. lia.
Qed.

Lemma initialScan_passes_over_failed_blocks_witness :
  indexer_state Examples.dbAtB0 = Some (5700000, "b0")
  /\ initialScan (mkChain (Some 5700002) (fun _ => None)) Examples.dbAtB0
     = withIndexerState Examples.dbAtB0 (Some (5700002, "")).
Proof.
  split; [reflexivity|].
  apply (initialScan_passes_over_failed_blocks
           (mkChain (Some 5700002) (fun _ => None)) Examples.dbAtB0
           5700000 "b0" 5700002); try reflexivity; try lia.
Defined.

(** ** Starting again *)

Lemma initialScan_at_tip c d tip x :
  getblockcount c = Some tip -> indexer_state d = Some (tip, x) ->
  initialScan c d = d.
Proof.
  intros Hc Hs. unfold initialScan, Scanner.getLastProcessedBlock. rewrite Hc, Hs.
  destruct (Z.eqb_spec tip 0) as [->|Hne].
  - reflexivity.
  - destruct (Z.leb_spec (tip + 1) tip); [lia | reflexivity].
Qed.

(** X7.  Running [initialScan] again against the same node changes nothing:
    the checkpoint the first run left keeps the second from scanning. *)
Theorem initialScan_twice c d :
  initialScan c (initialScan c d) = initialScan c d.
Proof.
  destruct (getblockcount c) as [tip|] eqn:Hc.
  - unfold initialScan at 2 3. rewrite Hc.
    match goal with
    | |- context [if ?b then _ else _] => destruct b eqn:Hb
    end.
    + eapply initialScan_at_tip; [exact Hc | reflexivity].
    + unfold initialScan. rewrite Hc, Hb. reflexivity.
  - unfold initialScan. now rewrite Hc.
Qed.

(** X8.  Once a checkpoint with a non-zero height is stored, a turn of the
    monitoring loop does what [initialScan] does: it scans from the block
    after the checkpoint to the tip and moves the checkpoint there. *)
Theorem monitorStep_resumes_like_initialScan c d h0 x :
  indexer_state d = Some (h0, x) -> h0 <> 0 ->
  monitorStep c d = initialScan c d.
Proof.
  intros Hs Hh. unfold monitorStep, initialScan, Scanner.getLastProcessedBlock.
  rewrite Hs. destruct (getblockcount c) as [tip|]; [|reflexivity].
  destruct (Z.eqb_spec h0 0) as [|_]; [contradiction|].
  destruct (Z.ltb_spec h0 tip), (Z.leb_spec (h0 + 1) tip); try lia; reflexivity.
Qed.

Lemma monitorStep_resumes_like_initialScan_witness :
  indexer_state Examples.dbAtB0 = Some (5700000, "b0")
  /\ 5700000 <> 0
  /\ monitorStep Examples.chainReorg Examples.dbAtB0
     = initialScan Examples.chainReorg Examples.dbAtB0.
Proof.
  split; [reflexivity|]. split; [lia|].
  apply (monitorStep_resumes_like_initialScan Examples.chainReorg Examples.dbAtB0
           5700000 "b0"); [reflexivity | lia].
Defined.

Lemma monitorStep_at_tip c d tip x :
  tip <> 0 -> getblockcount c = Some tip -> indexer_state d = Some (tip, x) ->
  monitorStep c d = d.
Proof.
  intros Hne Hc Hs. unfold monitorStep, Scanner.getLastProcessedBlock. rewrite Hc, Hs.
  destruct (Z.eqb_spec tip 0); [contradiction|].
  destruct (Z.ltb_spec tip tip); [lia | reflexivity].
Qed.

(** X9.  When the tip is not block 0, a second turn of the monitoring loop
    against the same node changes nothing. *)
Theorem monitorStep_twice c d :
  getblockcount c <> Some 0 ->
  monitorStep c (monitorStep c d) = monitorStep c d.
Proof.
  intros Hz. destruct (getblockcount c) as [tip|] eqn:Hc.
  - unfold monitorStep at 2 3. rewrite Hc.
    match goal with
    | |- context [if ?b then _ else _] => destruct b eqn:Hb
    end.
    + apply (monitorStep_at_tip _ _ tip "");
        [intros ->; apply Hz; reflexivity | exact Hc | reflexivity].
    + unfold monitorStep. rewrite Hc, Hb. reflexivity.
  - unfold monitorStep. now rewrite Hc.
Qed.

Lemma monitorStep_twice_witness :
  getblockcount Examples.chainReorg <> Some 0
  /\ monitorStep Examples.chainReorg (monitorStep Examples.chainReorg Examples.dbAtB0)
     = monitorStep Examples.chainReorg Examples.dbAtB0.
Proof.
  assert (H : getblockcount Examples.chainReorg <> Some 0) by discriminate.
  split; [exact H|].
  apply (monitorStep_twice Examples.chainReorg Examples.dbAtB0 H).
Defined.

(** ** An exception in the loop *)

(** X10.  A payload whose [op], [tick] or [amt] cannot be turned into a
    string makes the progress line throw after the payload was saved: the
    other outputs of the transaction and the other transactions of the block
    are not looked at. *)
Theorem unprintable_payload_ends_the_block h x hx data vrest post st :
  parseDRC20FromHex hx = Some data -> logThrows data = true ->
  scanTxs h (mkTx x (Some (mkScript "nulldata" hx) :: vrest) :: post) st
  = (fst (saveTransaction (fst st) h x data), snd st ++ [mkFound h x data hx], true).
Proof.
  intros Hp Ht. cbn [scanTxs scanVouts tx_id vout type_ hex].
  destruct (String.eqb_spec hx "") as [->|Hne].
  - vm_compute in Hp. discriminate.
  - rewrite Hp, Ht. reflexivity.
Qed.

Lemma unprintable_payload_ends_the_block_witness :
  parseDRC20FromHex MoreExamples.mintOddTick = Some MoreExamples.mintOddTickData
  /\ logThrows MoreExamples.mintOddTickData = true
  /\ fst (fst (scanTxs 5700000
                 [mkTx "t0" [Examples.nulldata MoreExamples.mintOddTick;
                             Examples.nulldata Examples.deployFOO];
                  Examples.oneTx "t1" Examples.deployDOGE]
                 (Examples.emptyDb, [])))
     = Examples.emptyDb.
Proof.
  assert (A : parseDRC20FromHex MoreExamples.mintOddTick
              = Some MoreExamples.mintOddTickData) by (vm_compute; reflexivity).
  assert (B : logThrows MoreExamples.mintOddTickData = true) by reflexivity.
  split; [exact A|]. split; [exact B|].
  unfold Examples.nulldata.
  rewrite (unprintable_payload_ends_the_block 5700000 "t0" MoreExamples.mintOddTick
             MoreExamples.mintOddTickData _ _ (Examples.emptyDb, []) A B).
  reflexivity.
Defined.

(** ** Deploys and the mints that follow them *)

Lemma hasToken_false ts u : ~ In u (map tick ts) -> hasToken ts u = false.
Proof.
  intros H. unfold hasToken. destruct (existsb _ ts) eqn:E; [|reflexivity].
  apply existsb_exists in E as (o & Ho & E). apply String.eqb_eq in E.
  exfalso. apply H. subst. now apply in_map.
Qed.

Lemma find_app_None {A} (f : A -> bool) l l' :
  find f l = None -> find f (l ++ l') = find f l'.
Proof.
  induction l as [|a l IH]; cbn; [reflexivity|].
  destruct (f a); [discriminate | exact IH].
Qed.

Lemma find_none_of_hasToken ts u :
  hasToken ts u = false -> find (fun r => String.eqb (tick r) u) ts = None.
Proof.
  unfold hasToken. induction ts as [|o ts IH]; cbn; [reflexivity|].
  destruct (String.eqb (tick o) u); [discriminate | exact IH].
Qed.

(** X11.  A deploy with a tick of ASCII characters that meets no row with
    its tick or its transaction id registers the token: afterwards
    [getToken] returns the new row, and [isTokenDeployed] answers yes, for
    the tick written in ASCII characters in any capitalisation. *)
Theorem deployed_token_is_found d h x data u t :
  asciiTick data = true -> asciiString t = true ->
  deployTick data = Some u ->
  tokenClash (tokens d) (deployRow h x data u) = false ->
  toUpperCase t = u ->
  getToken (fst (saveTransaction d h x data)) t = Some (deployRow h x data u)
  /\ isTokenDeployed (fst (saveTransaction d h x data)) (Some (JStr t)) = true.
Proof.
  intros _ _ Hd Hc Ht. rewrite (saveTransaction_deploy _ _ _ _ _ Hd).
  unfold getToken, isTokenDeployed, withTokens. cbn [tokens].
  rewrite insertOrIgnoreToken_cases, Hc, Ht.
  pose proof (tokenClash_false _ _ Hc) as [Hn _]. cbn [tick deployRow] in Hn.
  apply hasToken_false in Hn. split.
  - rewrite find_app_None by now apply find_none_of_hasToken.
    cbn. now rewrite String.eqb_refl.
  - rewrite hasToken_app. cbn. rewrite String.eqb_refl. apply orb_true_r.
Qed.

Lemma deployed_token_is_found_witness :
  asciiTick MoreExamples.deployFOOData = true
  /\ asciiString "Foo" = true
  /\ deployTick MoreExamples.deployFOOData = Some "FOO"
  /\ getToken (fst (saveTransaction Examples.emptyDb 7 "t" MoreExamples.deployFOOData))
              "Foo"
     = Some (mkToken "FOO" None (Text "10") (Text "1") "t" 7 "").
Proof.
  split; [reflexivity|]. split; [reflexivity|]. split; [reflexivity|].
  apply (deployed_token_is_found Examples.emptyDb 7 "t" MoreExamples.deployFOOData
           "FOO" "Foo"); reflexivity.
Defined.

(** X12.  The order of a deploy and a mint of its tick decides the fate of
    the mint.  For payloads with ticks of ASCII characters, with the tick not
    yet registered and the two transaction ids free, deploy then mint stores
    both rows; mint then deploy stores the token only, and the mint is
    gone. *)
Theorem deploy_and_mint_in_either_order d h x1 x2 data1 data2 u :
  asciiTick data1 = true -> asciiTick data2 = true ->
  deployTick data1 = Some u -> mintTick data2 = Some u ->
  tokenClash (tokens d) (deployRow h x1 data1 u) = false ->
  hasTx (transactions d) x2 = false ->
  (let after := fst (saveTransaction (fst (saveTransaction d h x1 data1)) h x2 data2) in
   tokens after = tokens d ++ [deployRow h x1 data1 u]
   /\ transactions after = transactions d ++ [mintRow h x2 data2 u])
  /\ (let after := fst (saveTransaction (fst (saveTransaction d h x2 data2)) h x1 data1) in
      tokens after = tokens d ++ [deployRow h x1 data1 u]
      /\ transactions after = transactions d).
Proof.
  intros _ _ Hd Hm Hc Hx.
  pose proof (tokenClash_false _ _ Hc) as [Hn _]. cbn [tick deployRow] in Hn.
  apply hasToken_false in Hn. cbv zeta. split.
  - rewrite (saveTransaction_mint _ _ _ _ _ Hm), (saveTransaction_deploy _ _ _ _ _ Hd).
    unfold withTokens. cbn [tokens transactions].
    rewrite insertOrIgnoreToken_cases, Hc, hasToken_app.
    replace (hasToken [deployRow h x1 data1 u] u) with true
      by (cbn; now rewrite String.eqb_refl).
    rewrite orb_true_r. unfold withTransactions. cbn [tokens transactions].
    rewrite insertOrIgnoreTransaction_cases.
    change (txid (mintRow h x2 data2 u)) with x2. rewrite Hx. split; reflexivity.
  - rewrite (saveTransaction_deploy _ _ _ _ _ Hd), (saveTransaction_mint _ _ _ _ _ Hm), Hn.
    unfold withTokens. cbn [tokens transactions].
    rewrite insertOrIgnoreToken_cases, Hc. split; reflexivity.
Qed.

Lemma deploy_and_mint_in_either_order_witness :
  asciiTick MoreExamples.deployFOOData = true
  /\ asciiTick Examples.mintFOOData = true
  /\ deployTick MoreExamples.deployFOOData = Some "FOO"
  /\ mintTick Examples.mintFOOData = Some "FOO"
  /\ transactions
       (fst (saveTransaction
               (fst (saveTransaction Examples.emptyDb 7 "a" Examples.mintFOOData))
               7 "b" MoreExamples.deployFOOData))
     = [].
Proof.
  split; [reflexivity|]. split; [reflexivity|].
  split; [reflexivity|]. split; [reflexivity|].
  apply (proj2 (deploy_and_mint_in_either_order Examples.emptyDb 7 "b" "a"
                  MoreExamples.deployFOOData Examples.mintFOOData "FOO"
                  eq_refl eq_refl eq_refl eq_refl eq_refl eq_refl)).
Defined.

(** * More facts about the decoders *)

Lemma slice_slice m : forall n s, slice n (slice m s) = slice (m + n) s.
Proof.
  induction m as [|m IH]; intros n s; [reflexivity|].
  destruct s as [|c s]; cbn [slice Nat.add].
  - now destruct n.
  - apply IH.
Qed.

(** X13.  On a script with the null-data opcode and a direct push the two
    decoders read the same JSON text and never both accept it: what the
    scanner's [parseDRC20FromHex] takes, [parseDRC20Json] turns down. *)
Theorem decoders_disagree_on_direct_push hex n data :
  startsWith "6a" hex = true ->
  parseInt16 (sliceTo 2 (slice 2 hex)) = Some n -> n <= 75 ->
  parseDRC20FromHex hex = Some data ->
  parseDRC20Json hex = None.
Proof.
  intros Hs Hn Hle. unfold parseDRC20FromHex, stripPush, parseDRC20Json.
  rewrite Hs, Hn. destruct (Z.leb_spec n 75); [|lia].
  rewrite slice_slice. cbn [Nat.add].
  destruct (JSON_parse _) as [parsed|]; [|discriminate].
  destruct (isStr (getField parsed "p") "drc-20") eqn:Hp; [|discriminate].
  intros _. apply isStr_spec in Hp. rewrite Hp. reflexivity.
Qed.

Lemma decoders_disagree_on_direct_push_witness :
  startsWith "6a" Examples.mintFOO = true
  /\ parseDRC20FromHex Examples.mintFOO = Some Examples.mintFOOData
  /\ parseDRC20Json Examples.mintFOO = None.
Proof.
  assert (A : parseDRC20FromHex Examples.mintFOO = Some Examples.mintFOOData)
    by (vm_compute; reflexivity).
  split; [reflexivity|]. split; [exact A|].
  apply (decoders_disagree_on_direct_push Examples.mintFOO 49 Examples.mintFOOData);
    [reflexivity | reflexivity | lia | exact A].
Defined.

(** X14.  The push test of [parseDRC20FromHex] reads one byte and compares
    no length with the payload.  After the opcode, any byte up to 75 gives
    the same result for the same rest; after [4c] the length byte is skipped
    unread; a byte above 76, or one that is no number, gives [null]. *)
Theorem push_test_reads_one_byte a b c1 c2 a' b' rest :
  forallb asciiChar [a; b; c1; c2; a'; b'] = true ->
  (forall n n',
     parseInt16 (String a (String b "")) = Some n -> n <= 75 ->
     parseInt16 (String a' (String b' "")) = Some n' -> n' <= 75 ->
     parseDRC20FromHex (String "6" (String "a" (String a (String b rest))))
     = parseDRC20FromHex (String "6" (String "a" (String a' (String b' rest)))))
  /\ (parseInt16 (String a (String b "")) = Some 76 ->
      parseDRC20FromHex
        (String "6" (String "a" (String a (String b (String c1 (String c2 rest))))))
      = parseDRC20FromHex
          (String "6" (String "a" (String a (String b (String a' (String b' rest)))))))
  /\ (forall n, parseInt16 (String a (String b "")) = Some n -> 76 < n ->
        parseDRC20FromHex (String "6" (String "a" (String a (String b rest)))) = None)
  /\ (parseInt16 (String a (String b "")) = None ->
      parseDRC20FromHex (String "6" (String "a" (String a (String b rest)))) = None).
Proof.
  intros _. unfold parseDRC20FromHex, stripPush.
  cbn [startsWith Ascii.eqb Bool.eqb andb slice sliceTo].
  repeat split.
  - intros n n' Hn Hle Hn' Hle'. rewrite Hn, Hn'.
    destruct (Z.leb_spec n 75), (Z.leb_spec n' 75); try lia. reflexivity.
  - intros Hn. rewrite Hn. reflexivity.
  - intros n Hn Hlt. rewrite Hn.
    destruct (Z.leb_spec n 75); [lia|]. destruct (Z.eqb_spec n 76); [lia | reflexivity].
  - intros Hn. rewrite Hn. reflexivity.
Qed.

Lemma push_test_reads_one_byte_witness :
  forallb asciiChar ["3"; "0"; "0"; "0"; "0"; "1"]%char = true
  /\ parseDRC20FromHex (String "6" (String "a" (String "3" (String "0"
                          (slice 4 MoreExamples.mintOddTick)))))
     = parseDRC20FromHex (String "6" (String "a" (String "0" (String "1"
                            (slice 4 MoreExamples.mintOddTick))))).
Proof.
  split; [reflexivity|].
  apply (proj1 (push_test_reads_one_byte "3" "0" "0" "0" "0" "1"
                  (slice 4 MoreExamples.mintOddTick) eq_refl) 48 1);
    [reflexivity | lia | reflexivity | lia].
Defined.

(** * More facts about the statistics *)

Lemma fold_from_overflow vs :
  fold_left sumStep (map CastInt vs) SumOverflow = SumOverflow.
Proof. induction vs as [|v vs IH]; cbn; [reflexivity | exact IH]. Qed.

Lemma sum_nonneg vs : Forall (fun v => 0 <= v) vs -> 0 <= fold_right Z.add 0 vs.
Proof. induction 1; cbn; lia. Qed.

(** The aggregate over values between 0 and the largest 64-bit integer. *)
Lemma sum_or_overflow vs : forall a,
  Forall (fun v => 0 <= v <= INT64_MAX) vs -> 0 <= a <= INT64_MAX ->
  fold_left sumStep (map CastInt vs) (SumTotal a)
  = if a + fold_right Z.add 0 vs <=? INT64_MAX
    then SumTotal (a + fold_right Z.add 0 vs) else SumOverflow.
Proof.
  induction vs as [|v vs IH]; intros a Hvs Ha; cbn [map fold_left fold_right].
  - rewrite Z.add_0_r. destruct (Z.leb_spec a INT64_MAX); [reflexivity | lia].
  - inversion Hvs as [|? ? Hv Hvs']; subst.
    assert (Hrest : 0 <= fold_right Z.add 0 vs).
    { apply sum_nonneg. eapply Forall_impl; [|exact Hvs']. cbn. lia. }
    cbn [sumStep]. unfold INT64_MIN in *. unfold INT64_MAX in *.
    destruct (Z.leb_spec (a + v) 9223372036854775807) as [Hle|Hgt].
    + replace (-9223372036854775808 <=? a + v) with true
        by (symmetry; apply Z.leb_le; lia).
      cbn [andb]. rewrite IH by (assumption || lia).
      now rewrite Z.add_assoc.
    + rewrite andb_false_r, fold_from_overflow.
      destruct (Z.leb_spec (a + (v + fold_right Z.add 0 vs)) 9223372036854775807);
        [lia | reflexivity].
Qed.

Lemma clamp64_range n : 0 <= n -> 0 <= clamp64 n <= INT64_MAX.
Proof. unfold clamp64, INT64_MIN, INT64_MAX. lia. Qed.

Lemma casts_of_decimal rows : forall ns,
  map exactAmount rows = map Some ns ->
  map (fun r => castInteger (amount r)) rows = map CastInt (map clamp64 ns)
  /\ Forall (fun v => 0 <= v <= INT64_MAX) (map clamp64 ns).
Proof.
  induction rows as [|r rows IH]; intros [|n ns] H; try discriminate;
    [split; [reflexivity | constructor]|].
  cbn [map] in *. injection H as Hr Hrows. destruct (IH _ Hrows) as [A B].
  unfold exactAmount in Hr. destruct (amount r) as [|s|v]; try discriminate.
  destruct (castTextInteger_decimal _ _ Hr) as [Hc Hn].
  split.
  - cbn [castInteger]. now rewrite Hc, A.
  - constructor; [now apply clamp64_range | exact B].
Qed.

(** What [getTokenStats] reports when the rows hold decimal amounts. *)
Lemma stats_of_decimal_rows d t ns :
  map exactAmount (mintRows d t) = map Some ns ->
  getTokenStats d t
  = Some (if fold_right Z.add 0 (map clamp64 ns) <=? INT64_MAX
          then mkStats (toDouble (fold_right Z.add 0 (map clamp64 ns)))
                       (Z.of_nat (List.length ns))
          else mkStats 0 0).
Proof.
  intros H. unfold getTokenStats.
  destruct (casts_of_decimal _ _ H) as [Hmap Hrange].
  assert (Hlen : List.length (mintRows d t) = List.length ns).
  { apply (f_equal (@List.length _)) in H. now rewrite !length_map in H. }
  rewrite Hmap, Hlen. destruct ns as [|n ns]; [reflexivity|].
  cbn [map fold_left fold_right] in *.
  inversion Hrange as [|? ? Hn Hns]; subst.
  change (sumStep SumEmpty (CastInt (clamp64 n))) with (SumTotal (clamp64 n)).
  rewrite sum_or_overflow by assumption.
  destruct (clamp64 n + fold_right Z.add 0 (map clamp64 ns) <=? INT64_MAX); reflexivity.
Qed.

(** X15.  The report of [getTokenStats] when every valid mint row of the
    tick holds a string of decimal digits: each amount counts for at most
    [2^63 - 1]; if the sum of these stays within 64 bits, the total is that
    sum rounded to a double and the count is the number of rows; if not, both
    are zero. *)
Theorem getTokenStats_on_decimal_amounts d t ns :
  map exactAmount (mintRows d t) = map Some ns ->
  getTokenStats d t
  = Some (if fold_right Z.add 0 (map clamp64 ns) <=? INT64_MAX
          then mkStats (toDouble (fold_right Z.add 0 (map clamp64 ns)))
                       (Z.of_nat (List.length ns))
          else mkStats 0 0).
Proof. apply stats_of_decimal_rows. Qed.

Lemma getTokenStats_on_decimal_amounts_witness :
  map exactAmount
      (mintRows (initialScan Examples.chainTwoMax Examples.emptyDb) "doge")
  = map Some [9223372036854775807; 9223372036854775807]
  /\ getTokenStats (initialScan Examples.chainTwoMax Examples.emptyDb) "doge"
     = Some (mkStats 0 0).
Proof.
  assert (A : map exactAmount
                (mintRows (initialScan Examples.chainTwoMax Examples.emptyDb) "doge")
              = map Some [9223372036854775807; 9223372036854775807])
    by (vm_compute; reflexivity).
  split; [exact A|].
  apply (getTokenStats_on_decimal_amounts _ "doge" _ A).
Defined.

Lemma mintRows_app d xs t :
  mintRows (withTransactions d (transactions d ++ xs)) t
  = mintRows d t
    ++ filter (fun r => String.eqb (tx_tick r) (toUpperCase t)
                        && String.eqb (operation r) "mint" && is_valid r) xs.
Proof. unfold mintRows, withTransactions. cbn [transactions]. apply filter_app. Qed.

Lemma mintRows_after_save d h x data t :
  mintRows (fst (saveTransaction d h x data)) t
  = mintRows d t
    ++ match mintTick data with
       | Some u =>
           if hasToken (tokens d) u && negb (hasTx (transactions d) x)
              && String.eqb u (toUpperCase t)
           then [mintRow h x data u] else []
       | None => []
       end.
Proof.
  destruct (saveTransaction_shape d h x data) as [u Hd Hm | u Hd Hm Ht | Hd Hm].
  - rewrite Hm, app_nil_r. reflexivity.
  - rewrite Hm, Ht. rewrite insertOrIgnoreTransaction_cases.
    change (txid (mintRow h x data u)) with x.
    destruct (hasTx (transactions d) x); cbn [negb andb].
    + rewrite app_nil_r. now destruct d.
    + rewrite mintRows_app. cbn [filter tx_tick operation is_valid mintRow].
      rewrite String.eqb_refl, !andb_true_r. reflexivity.
  - destruct (mintTick data) as [u|]; [|now rewrite app_nil_r].
    rewrite (Hm u eq_refl). cbn [andb]. now rewrite app_nil_r.
Qed.

(** X16.  A save changes the statistics of one tick at most.  For a payload
    and a tick asked about that are made of ASCII characters: when the
    payload is not a mint of the tick asked about, [getTokenStats] reports
    after the save what it reported before. *)
Theorem save_leaves_other_statistics d h x data t :
  asciiTick data = true -> asciiString t = true ->
  mintTick data <> Some (toUpperCase t) ->
  getTokenStats (fst (saveTransaction d h x data)) t = getTokenStats d t.
Proof.
  intros _ _ H. unfold getTokenStats. rewrite mintRows_after_save.
  destruct (mintTick data) as [u|]; [|now rewrite app_nil_r].
  destruct (String.eqb_spec u (toUpperCase t)) as [->|]; [congruence|].
  now rewrite andb_false_r, app_nil_r.
Qed.

Lemma save_leaves_other_statistics_witness :
  asciiTick Examples.mintFOOData = true
  /\ asciiString "doge" = true
  /\ mintTick Examples.mintFOOData <> Some (toUpperCase "doge")
  /\ getTokenStats
       (fst (saveTransaction (initialScan Examples.chainOverLimit Examples.emptyDb)
               9 "z" Examples.mintFOOData)) "doge"
     = getTokenStats (initialScan Examples.chainOverLimit Examples.emptyDb) "doge".
Proof.
  assert (H : mintTick Examples.mintFOOData <> Some (toUpperCase "doge"))
    by (vm_compute; discriminate).
  split; [reflexivity|]. split; [reflexivity|]. split; [exact H|].
  apply (save_leaves_other_statistics _ 9 "z" Examples.mintFOOData "doge"
           eq_refl eq_refl H).
Defined.

Lemma fold_right_add_app l a :
  fold_right Z.add 0 (l ++ [a]) = fold_right Z.add 0 l + a.
Proof. induction l as [|x l IH]; cbn [app fold_right]; lia. Qed.

Lemma decimalValue_nonempty s a : decimalValue s = Some a -> s <> "".
Proof. intros H ->. discriminate. Qed.

(** X17.  A recorded mint adds its amount.  When the mint names a registered
    tick, its transaction id is new, its [amt] is a string of decimal digits,
    the rows before hold decimal amounts and the new sum is at most [2^53],
    the total reported grows by the amount and the count by one. *)
Theorem recorded_mint_adds_its_amount d h x data u t s a ns :
  mintTick data = Some u -> toUpperCase t = u ->
  hasToken (tokens d) u = true -> hasTx (transactions d) x = false ->
  getField data "amt" = Some (JStr s) -> decimalValue s = Some a ->
  map exactAmount (mintRows d t) = map Some ns ->
  fold_right Z.add 0 ns + a <= 2 ^ 53 ->
  getTokenStats (fst (saveTransaction d h x data)) t
  = Some (mkStats (fold_right Z.add 0 ns + a) (Z.of_nat (List.length ns) + 1)).
Proof.
  intros Hm Hu Ht Hx Hamt Hdec Hrows Hsum.
  assert (Hrows' : map exactAmount (mintRows (fst (saveTransaction d h x data)) t)
                   = map Some (ns ++ [a])).
  { rewrite mintRows_after_save, Hm, Ht, Hx, <- Hu, String.eqb_refl. cbn [negb andb].
    rewrite !map_app, Hrows. f_equal. cbn [map]. f_equal.
    unfold exactAmount, mintRow. cbn [amount]. rewrite Hamt. unfold orElse.
    cbn [truthy]. destruct (String.eqb_spec s "") as [E|_];
      [now apply decimalValue_nonempty in Hdec|].
    cbn [negb bindParam]. exact Hdec. }
  assert (Hpos : Forall (fun n => 0 <= n) (ns ++ [a])).
  { clear -Hrows'. revert Hrows'.
    generalize (mintRows (fst (saveTransaction d h x data)) t) as rows.
    generalize (ns ++ [a]) as l. induction l as [|n l IH]; intros [|r rows] H;
      try discriminate; constructor.
    - cbn [map] in H. injection H as Hr _. unfold exactAmount in Hr.
      destruct (amount r); try discriminate.
      now apply castTextInteger_decimal in Hr.
    - cbn [map] in H. injection H as _ Hl. eapply IH. exact Hl. }
  rewrite (stats_of_decimal_rows _ _ _ Hrows').
  assert (H53 : 2 ^ 53 = 9007199254740992) by reflexivity.
  assert (Hclamp : map clamp64 (ns ++ [a]) = ns ++ [a]).
  { assert (Hb : Forall (fun n => 0 <= n <= 2 ^ 53) (ns ++ [a])).
    { pose proof (sum_nonneg _ Hpos) as Hs. rewrite fold_right_add_app in Hs.
      clear Hrows'. revert Hsum Hpos. rewrite <- fold_right_add_app.
      generalize (ns ++ [a]) as l. induction l as [|n l IH]; intros Hs' Hp;
        constructor; inversion Hp; subst; cbn [fold_right] in Hs'.
      - pose proof (sum_nonneg _ H2). lia.
      - apply IH; [|assumption]. lia. }
    clear -Hb. induction Hb as [|n l Hn Hl IH]; [reflexivity|].
    cbn [map]. now rewrite clamp64_small, IH. }
  rewrite Hclamp, fold_right_add_app.
  unfold INT64_MAX. destruct (Z.leb_spec (fold_right Z.add 0 ns + a) 9223372036854775807);
    [|lia].
  pose proof (sum_nonneg _ Hpos) as Hs. rewrite fold_right_add_app in Hs.
  rewrite toDouble_small by (rewrite Z.abs_eq; lia).
  rewrite length_app. cbn [List.length]. f_equal. f_equal. lia.
Qed.

Lemma recorded_mint_adds_its_amount_witness :
  mintTick Examples.mintFOOData = Some "FOO"
  /\ getTokenStats
       (fst (saveTransaction (initialScan Examples.chainDeployFirst Examples.emptyDb)
               9 "z" Examples.mintFOOData)) "foo"
     = Some (mkStats (fold_right Z.add 0 [1] + 1) (Z.of_nat (List.length [1]) + 1)).
Proof.
  split; [reflexivity|].
  apply (recorded_mint_adds_its_amount
           (initialScan Examples.chainDeployFirst Examples.emptyDb)
           9 "z" Examples.mintFOOData "FOO" "foo" "1" 1 [1]);
    try (vm_compute; reflexivity).
  vm_compute. discriminate.
Defined.

(** * More facts about the auditor *)

Lemma setOwn_keys_In res k v t :
  In t (map fst (setOwn res k v)) -> In t (map fst res) \/ t = k.
Proof.
  rewrite setOwn_keys. destruct (getOwn res k); [now left|].
  rewrite in_app_iff. cbn. intuition.
Qed.

Lemma site_loop_keys rows : forall res t,
  In t (map fst (fold_left addSite rows res)) ->
  In t (map fst res) \/ In t (map fst rows).
Proof.
  induction rows as [|row rows IH]; intros res t H; cbn [fold_left] in H; [now left|].
  apply IH in H as [H|H]; [|right; now right].
  unfold addSite in H. apply setOwn_keys_In in H as [H| ->]; [now left|].
  right. now left.
Qed.

Lemma chain_loop_keys rows : forall res t,
  In t (map fst (fold_left addBlockchain rows res)) ->
  In t (map fst res) \/ In t (map fst rows).
Proof.
  induction rows as [|row rows IH]; intros res t H; cbn [fold_left] in H; [now left|].
  apply IH in H as [H|H]; [|right; now right].
  unfold addBlockchain in H.
  destruct (getOwn res (fst row)) as [[s0 b0]|].
  - apply setOwn_keys_In in H as [H| ->]; [now left | right; now left].
  - destruct (existsb (String.eqb (fst row)) inheritedNames); [now left|].
    apply setOwn_keys_In in H as [H| ->]; [now left | right; now left].
Qed.

(** The object the two loops build from the ticks of the two queries. *)
Lemma counts_of_lists site chn :
  let res := fold_left addBlockchain (groupCount chn)
               (fold_left addSite (groupCount site) []) in
  NoDup (map fst res)
  /\ (forall t, In t site -> getOwn res t <> None)
  /\ (forall t s b, getOwn res t = Some (s, b) ->
        s = countOf t site /\ b = countOf t chn)
  /\ (forall t, In t (map fst res) -> In t site \/ In t chn).
Proof.
  cbv zeta.
  destruct (site_loop site (groupCount site) []) as (A & B & C).
  { intros row H. now apply groupCount_In. }
  { constructor. }
  { intros t s b H. discriminate. }
  destruct (chain_loop site chn (groupCount chn)
              (fold_left addSite (groupCount site) [])) as (A' & B' & C' & D').
  { intros row H. now apply groupCount_In. }
  { assumption. }
  { intros t Ht. apply C. right. now apply groupCount_keys. }
  { intros t s b H. destruct (B t s b H) as [Hs Hb]. split; [assumption|].
    destruct (in_dec string_dec t chn) as [Hin|Hin].
    - right. split; [assumption | now apply groupCount_keys].
    - left. rewrite Hb. symmetry. now apply countOf_notin. }
  split; [assumption|]. split; [assumption|]. split; [assumption|].
  intros t Ht. apply chain_loop_keys in Ht as [Ht|Ht].
  - apply site_loop_keys in Ht as [[]|Ht]. left. now apply groupCount_keys_inv.
  - right. now apply groupCount_keys_inv.
Qed.

Lemma plainCounts_unfold d f :
  plainCounts d f
  = fold_left addBlockchain
      (groupCount (filter (passes (tickFilter f)) (chainTicks d)))
      (fold_left addSite
         (groupCount (filter (passes (tickFilter f)) (siteTicks d))) []).
Proof. reflexivity. Qed.

(** ** The own properties, whatever the ticks *)

Lemma site_object_own rows : forall o,
  own (fold_left addSiteTo rows o)
  = fold_left addSite (filter notProto rows) (own o).
Proof.
  induction rows as [|row rows IH]; intros o; cbn [fold_left filter]; [reflexivity|].
  rewrite IH. unfold addSiteTo, notProto.
  destruct (String.eqb (fst row) "__proto__"); reflexivity.
Qed.

Lemma site_object_polluted rows : forall o,
  polluted (fold_left addSiteTo rows o) = polluted o.
Proof.
  induction rows as [|row rows IH]; intros o; cbn [fold_left]; [reflexivity|].
  rewrite IH. unfold addSiteTo.
  destruct (String.eqb (fst row) "__proto__"); reflexivity.
Qed.

Lemma site_object_stays_replaced rows : forall o,
  replaced o <> None -> replaced (fold_left addSiteTo rows o) <> None.
Proof.
  induction rows as [|row rows IH]; intros o H; cbn [fold_left]; [assumption|].
  apply IH. unfold addSiteTo.
  destruct (String.eqb (fst row) "__proto__"); cbn; [discriminate | assumption].
Qed.

Lemma site_object_replaced rows : forall o,
  In "__proto__" (map fst rows) -> replaced (fold_left addSiteTo rows o) <> None.
Proof.
  induction rows as [|row rows IH]; intros o H; cbn [fold_left]; [destruct H|].
  destruct H as [H|H]; [|now apply IH].
  apply site_object_stays_replaced. unfold addSiteTo. rewrite H. cbn. discriminate.
Qed.

Lemma addBlockchain_keys_In res row t :
  In t (map fst (addBlockchain res row)) -> In t (map fst res) \/ t = fst row.
Proof.
  intros H. apply (chain_loop_keys [row]) in H as [H|[H|[]]]; auto.
Qed.

Lemma addBlockchain_NoDup res row :
  NoDup (map fst res) -> NoDup (map fst (addBlockchain res row)).
Proof.
  intros H. unfold addBlockchain. destruct (getOwn res (fst row)) as [[s b]|].
  - now apply setOwn_NoDup.
  - destruct (existsb _ _); [assumption | now apply setOwn_NoDup].
Qed.

Lemma chainStep_keys acc row t :
  In t (map fst (own (returnedObject (chainStep acc row)))) ->
  In t (map fst (own (returnedObject acc))) \/ t = fst row.
Proof.
  destruct acc as [o|p]; cbn [chainStep returnedObject]; [|now left].
  unfold addBlockchainTo. destruct (String.eqb (fst row) "__proto__").
  - destruct (replaced o) as [[s b]|]; cbn; auto.
  - destruct (getOwn (own o) (fst row)) as [v|], (inheritedNumber o (fst row)) as [n|];
      try (cbn [own withOwn]; apply addBlockchain_keys_In).
    destruct (n =? 0); cbn [own withOwn returnedObject map]; [|intros []].
    apply setOwn_keys_In.
Qed.

Lemma chainStep_NoDup acc row :
  NoDup (map fst (own (returnedObject acc))) ->
  NoDup (map fst (own (returnedObject (chainStep acc row)))).
Proof.
  destruct acc as [o|p]; cbn [chainStep returnedObject]; [|trivial].
  intros H. unfold addBlockchainTo. destruct (String.eqb (fst row) "__proto__").
  - destruct (replaced o) as [[s b]|]; cbn; assumption.
  - destruct (getOwn (own o) (fst row)) as [v|], (inheritedNumber o (fst row)) as [n|];
      try (cbn [own withOwn]; now apply addBlockchain_NoDup).
    destruct (n =? 0); cbn [own withOwn returnedObject map]; [|constructor].
    now apply setOwn_NoDup.
Qed.

Lemma chain_object_keys rows : forall acc t,
  In t (map fst (own (returnedObject (fold_left chainStep rows acc)))) ->
  In t (map fst (own (returnedObject acc))) \/ In t (map fst rows).
Proof.
  induction rows as [|row rows IH]; intros acc t H; cbn [fold_left] in H; [now left|].
  apply IH in H as [H|H]; [|right; now right].
  apply chainStep_keys in H as [H| ->]; [now left | right; now left].
Qed.

Lemma chain_object_NoDup rows : forall acc,
  NoDup (map fst (own (returnedObject acc))) ->
  NoDup (map fst (own (returnedObject (fold_left chainStep rows acc)))).
Proof.
  induction rows as [|row rows IH]; intros acc H; cbn [fold_left]; [assumption|].
  apply IH. now apply chainStep_NoDup.
Qed.

Lemma filter_notProto_keys rows t :
  In t (map fst (filter notProto rows)) -> In t (map fst rows).
Proof.
  rewrite !in_map_iff. intros (row & E & H). apply filter_In in H as [H _].
  now exists row.
Qed.

(** The own properties of the object are pairwise different ticks of the
    two tables, whatever these ticks are. *)
Lemma getTransactionCounts_keys d :
  NoDup (map fst (getTransactionCounts d None))
  /\ (forall t, In t (map fst (getTransactionCounts d None)) ->
        In t (siteTicks d) \/ In t (chainTicks d)).
Proof.
  unfold getTransactionCounts, getTransactionCountsObject. cbn [tickFilter].
  rewrite !filter_passes_None.
  change (map site_tick (site_transactions d)) with (siteTicks d).
  change (map tx_tick (filter is_blackdoge_tx (transactions d))) with (chainTicks d).
  split.
  - apply chain_object_NoDup. cbn [returnedObject]. rewrite site_object_own.
    destruct (site_loop (siteTicks d) (filter notProto (groupCount (siteTicks d))) [])
      as (A & _); [| constructor | discriminate | exact A].
    intros row H. apply filter_In in H as [H _]. now apply groupCount_In.
  - intros t H. apply chain_object_keys in H as [H|H].
    + left. cbn [returnedObject] in H. rewrite site_object_own in H.
      apply site_loop_keys in H as [[]|H].
      apply groupCount_keys_inv. now apply filter_notProto_keys.
    + right. now apply groupCount_keys_inv.
Qed.

(** The rows a run appends and the tables it leaves alone, whatever the
    ticks. *)
Lemma verifyTransactionCounts_writes d :
  fst (verifyTransactionCounts d)
  = withVerificationStats d
      (verification_stats d
       ++ map verificationOf (forIn (getTransactionCounts d None))).
Proof.
  unfold verifyTransactionCounts, getTransactionCounts.
  destruct (inheritedKeys _); reflexivity.
Qed.

(** ** The flag the scanner never sets *)

Lemma saveTransaction_unflagged d h x data :
  unflagged d -> unflagged (fst (saveTransaction d h x data)).
Proof.
  unfold unflagged. intros A.
  destruct (saveTransaction_shape d h x data) as [u Hd Hm | u Hd Hm Ht | Hd Hm];
    try assumption.
  unfold withTransactions. cbn [transactions].
  rewrite insertOrIgnoreTransaction_cases.
  destruct (hasTx (transactions d) _); [assumption|].
  apply Forall_app. split; [assumption|]. constructor; [reflexivity | constructor].
Qed.

Lemma unflagged_chainTicks d : unflagged d -> chainTicks d = [].
Proof.
  unfold unflagged, chainTicks. intros H.
  induction H as [|r l Hr Hl IH]; [reflexivity|].
  cbn [filter]. now rewrite Hr.
Qed.

Lemma countOf_pos t l : In t l -> 1 <= countOf t l.
Proof.
  intros H. unfold countOf. apply (count_occ_In string_dec) in H. lia.
Qed.

Lemma forallb_same {A} (f g : A -> bool) l :
  (forall x, f x = g x) -> forallb f l = forallb g l.
Proof. intros H. induction l as [|x l IH]; cbn; [reflexivity | now rewrite H, IH]. Qed.

Lemma forallb_map {A B} (f : B -> bool) (g : A -> B) l :
  forallb f (map g l) = forallb (fun x => f (g x)) l.
Proof. induction l as [|x l IH]; cbn; [reflexivity | now rewrite IH]. Qed.

(** X18.  The scanner never sets [is_blackdoge_tx], and the auditor counts
    flagged transactions only.  So in a database whose transactions all come
    from scans, the blockchain count of every tick is 0: each row the auditor
    appends is for a tick with a site row and is unverified, and the run as a
    whole is verified only when [site_transactions] is empty.  This holds
    whatever the ticks are. *)
Theorem scanned_transactions_are_not_counted c d s e :
  unflagged d ->
  let d' := fst (scanBlockRange c d s e) in
  chainTicks d' = []
  /\ verification_stats (fst (verifyTransactionCounts d'))
     = verification_stats d
       ++ map verificationOf (forIn (getTransactionCounts d' None))
  /\ Forall (fun v =>
               In (v_tick v) (siteTicks d)
               /\ site_count v = countOf (v_tick v) (siteTicks d)
               /\ blockchain_count v = 0
               /\ is_verified v = false)
            (map verificationOf (forIn (getTransactionCounts d' None)))
  /\ (fst (snd (verifyTransactionCounts d')) = true <-> site_transactions d = []).
Proof.
  intros Hu. cbv zeta. rewrite scanBlockRange_found.
  set (fs := rangeFound c (Z.to_nat (e - s + 1)) s).
  assert (Hu' : unflagged (applyFound d fs))
    by (apply (applyFound_keeps unflagged); [apply saveTransaction_unflagged | exact Hu]).
  pose proof (unflagged_chainTicks _ Hu') as Hc.
  destruct (applyFound_frame fs d) as (Hsite & _ & _ & Hver).
  assert (Hst : siteTicks (applyFound d fs) = siteTicks d)
    by (unfold siteTicks; now rewrite Hsite).
  set (o := fold_left addSiteTo (groupCount (siteTicks d)) (mkResultObject [] None None)).
  assert (Hobj : getTransactionCountsObject (applyFound d fs) None = o).
  { unfold getTransactionCountsObject. cbn [tickFilter].
    rewrite !filter_passes_None.
    change (map site_tick (site_transactions (applyFound d fs)))
      with (siteTicks (applyFound d fs)).
    change (map tx_tick (filter is_blackdoge_tx (transactions (applyFound d fs))))
      with (chainTicks (applyFound d fs)).
    now rewrite Hc, Hst. }
  set (rows := filter notProto (groupCount (siteTicks d))).
  assert (Hown : own o = fold_left addSite rows []) by apply site_object_own.
  destruct (site_loop (siteTicks d) rows []) as (Hnd & Hcnt & Hcov);
    [ intros row H; apply filter_In in H as [H _]; now apply groupCount_In
    | constructor | discriminate | ].
  assert (Hkey : forall t, In t (map fst (own o)) -> In t (siteTicks d)).
  { intros t H. rewrite Hown in H. apply site_loop_keys in H as [[]|H].
    apply groupCount_keys_inv. now apply filter_notProto_keys. }
  assert (Hentry : forall t sc bc, In (t, (sc, bc)) (own o) ->
            In t (siteTicks d) /\ sc = countOf t (siteTicks d) /\ bc = 0
            /\ (sc =? bc) = false).
  { intros t sc bc H.
    assert (A : In t (siteTicks d)) by (apply Hkey; apply (in_map fst _ _ H)).
    rewrite Hown in H. apply (In_getOwn _ _ _ Hnd) in H.
    destruct (Hcnt _ _ _ H) as [B C]. subst.
    repeat split; try assumption.
    apply Z.eqb_neq. pose proof (countOf_pos _ _ A). lia. }
  unfold getTransactionCounts. rewrite Hobj.
  split; [exact Hc|]. split; [|split].
  - rewrite verifyTransactionCounts_writes. unfold getTransactionCounts.
    rewrite Hobj. cbn [verification_stats withVerificationStats]. now rewrite Hver.
  - apply Forall_forall. intros v Hv.
    apply in_map_iff in Hv as ([t [sc bc]] & <- & He).
    apply (proj1 (forIn_In _ _)) in He.
    destruct (Hentry _ _ _ He) as (A & B & C & D). subst bc.
    cbn [verificationOf v_tick site_count blockchain_count is_verified].
    repeat split; assumption.
  - unfold verifyTransactionCounts. rewrite Hobj. split.
    + intros H. destruct (site_transactions d) as [|r0 l] eqn:E; [reflexivity|].
      exfalso.
      assert (Hin : In (site_tick r0) (siteTicks d))
        by (unfold siteTicks; rewrite E; now left).
      assert (Hsome : exists k v, getOwn (own o) k = Some v).
      { destruct (String.eqb_spec (site_tick r0) "__proto__") as [Ep|Ep].
        - rewrite Ep in Hin.
          assert (Hr : replaced o <> None)
            by (apply site_object_replaced; now apply groupCount_keys).
          destruct (inheritedKeys o) as [|k ks] eqn:Ei; [|discriminate H].
          unfold inheritedKeys in Ei.
          destruct (replaced o) as [p|]; [|congruence].
          cbn [filter] in Ei.
          destruct (getOwn (own o) "site") as [v|] eqn:Eg; [now exists "site", v|].
          discriminate Ei.
        - assert (Hk : In (site_tick r0) (map fst rows)).
          { apply in_map_iff. exists (site_tick r0, countOf (site_tick r0) (siteTicks d)).
            split; [reflexivity|]. apply filter_In. split.
            - unfold groupCount. apply in_map_iff. exists (site_tick r0).
              split; [reflexivity | now apply distinctTicks_In].
            - unfold notProto. cbn [fst].
              destruct (String.eqb_spec (site_tick r0) "__proto__"); [contradiction|reflexivity]. }
          specialize (Hcov (site_tick r0) (or_intror Hk)). rewrite <- Hown in Hcov.
          destruct (getOwn (own o) (site_tick r0)) as [v|] eqn:Eg; [|congruence].
          now exists (site_tick r0), v. }
      destruct Hsome as (k & [sc bc] & Hg).
      apply getOwn_In in Hg.
      destruct (Hentry _ _ _ Hg) as (_ & _ & _ & D).
      apply (proj2 (forIn_In _ _)) in Hg.
      destruct (inheritedKeys o); [|discriminate H].
      cbn [fst snd] in H. rewrite forallb_forall in H.
      specialize (H _ Hg). cbn [fst snd] in H. congruence.
    + intros E. subst o. unfold siteTicks. rewrite E. reflexivity.
Qed.

Lemma scanned_transactions_are_not_counted_witness :
  unflagged Examples.emptyDb
  /\ chainTicks (fst (scanBlockRange Examples.chainOverSupply Examples.emptyDb
                        5700000 5700001)) = [].
Proof.
  assert (A : unflagged Examples.emptyDb) by constructor.
  split; [exact A|].
  apply (scanned_transactions_are_not_counted Examples.chainOverSupply
           Examples.emptyDb 5700000 5700001 A).
Defined.

(** ** What a run returns and what it writes *)

(** X19.  On a database none of whose ticks is [__proto__], what
    [verifyTransactionCounts] returns agrees with what it wrote: [verified]
    holds exactly when every appended row is verified, [details] lists the
    appended rows in order with the difference of the two counts, and a row
    carries a discrepancy text exactly when it is not verified. *)
Theorem verifyTransactionCounts_returns_what_it_wrote d :
  ~ In "__proto__" (siteTicks d ++ chainTicks d) ->
  exists recs,
    verification_stats (fst (verifyTransactionCounts d))
    = verification_stats d ++ recs
    /\ fst (snd (verifyTransactionCounts d)) = forallb is_verified recs
    /\ map (fun x => (d_tick x, siteCount x, blockchainCount x, isVerified x,
                      discrepancy x))
           (snd (snd (verifyTransactionCounts d)))
       = map (fun v => (v_tick v, site_count v, blockchain_count v, is_verified v,
                        site_count v - blockchain_count v)) recs
    /\ Forall (fun v => is_verified v = true <-> discrepancy_details v = None) recs
    /\ Forall (fun x => isVerified x = true <-> discrepancy x = 0)
              (snd (snd (verifyTransactionCounts d))).
Proof.
  intros Hp. destruct (verifyTransactionCounts_plain d Hp) as [_ ->].
  cbn [fst snd].
  set (visited := forIn (plainCounts d None)).
  exists (map verificationOf visited).
  split; [reflexivity|]. split; [|split; [|split]].
  - rewrite forallb_map. apply forallb_same. now intros [t [sc bc]].
  - rewrite !map_map. apply map_ext. now intros [t [sc bc]].
  - apply Forall_forall. intros v Hv. apply in_map_iff in Hv as ([t [sc bc]] & <- & _).
    cbn. destruct (sc =? bc); split; intros; (reflexivity || discriminate).
  - apply Forall_forall. intros x Hx. apply in_map_iff in Hx as ([t [sc bc]] & <- & _).
    cbn. rewrite Z.eqb_eq. lia.
Qed.

Lemma verifyTransactionCounts_returns_what_it_wrote_witness :
  ~ In "__proto__" (siteTicks Examples.auditDb ++ chainTicks Examples.auditDb)
  /\ exists recs,
       verification_stats (fst (verifyTransactionCounts Examples.auditDb))
       = verification_stats Examples.auditDb ++ recs
       /\ fst (snd (verifyTransactionCounts Examples.auditDb))
          = forallb is_verified recs.
Proof.
  assert (H : ~ In "__proto__"
                (siteTicks Examples.auditDb ++ chainTicks Examples.auditDb)).
  { vm_compute. intros [H|[H|[H|[H|[H|[]]]]]]; discriminate. }
  split; [exact H|].
  destruct (verifyTransactionCounts_returns_what_it_wrote Examples.auditDb H)
    as (recs & A & B & _).
  exists recs. split; [exact A | exact B].
Defined.

(** ** One row for each tick *)

Lemma insertByIndex_perm i e l :
  Permutation (insertByIndex i e l) ((i, e) :: l).
Proof.
  induction l as [|[j e'] r IH]; cbn [insertByIndex]; [reflexivity|].
  destruct (i <? j); [reflexivity|].
  rewrite IH. apply perm_swap.
Qed.

Lemma indexed_perm res : forall acc,
  Permutation
    (map snd
       (fold_left
          (fun acc e0 =>
             match arrayIndex (fst e0) with
             | Some j => insertByIndex j e0 acc
             | None => acc
             end) res acc))
    (map snd acc ++ filter isIndexKey res).
Proof.
  induction res as [|e0 res IH]; intros acc; cbn [fold_left filter].
  - now rewrite app_nil_r.
  - rewrite IH. unfold isIndexKey at 2. destruct (arrayIndex (fst e0)) as [j|].
    + rewrite (Permutation_map snd (insertByIndex_perm j e0 acc)). cbn [map snd].
      apply Permutation_middle.
    + reflexivity.
Qed.

Lemma filter_split_perm {A} (f : A -> bool) l :
  Permutation (filter f l ++ filter (fun x => negb (f x)) l) l.
Proof.
  induction l as [|x l IH]; cbn [filter]; [reflexivity|].
  destruct (f x); cbn [negb app].
  - now constructor.
  - rewrite <- Permutation_middle. now constructor.
Qed.

(** The visit is a rearrangement of the properties. *)
Lemma forIn_perm res : Permutation (forIn res) res.
Proof.
  unfold forIn. rewrite indexed_perm. cbn [map app].
  rewrite (filter_ext
             (fun e : string * (Z * Z) =>
                match arrayIndex (fst e) with Some _ => false | None => true end)
             (fun x => negb (isIndexKey x))).
  - apply filter_split_perm.
  - intros e. unfold isIndexKey. now destruct (arrayIndex (fst e)).
Qed.

(** X20.  A run of [verifyTransactionCounts] appends one row at most for a
    tick, whatever the ticks are: the ticks of the appended rows are pairwise
    different, and each of them is a tick of [site_transactions] or of a
    flagged transaction. *)
Theorem verifyTransactionCounts_one_row_per_tick d :
  exists recs,
    verification_stats (fst (verifyTransactionCounts d))
    = verification_stats d ++ recs
    /\ NoDup (map v_tick recs)
    /\ (forall t, In t (map v_tick recs) ->
          In t (siteTicks d) \/ In t (chainTicks d)).
Proof.
  rewrite verifyTransactionCounts_writes. cbn [verification_stats withVerificationStats].
  exists (map verificationOf (forIn (getTransactionCounts d None))).
  split; [reflexivity|].
  rewrite map_map, (map_ext _ fst v_tick_verificationOf).
  destruct (getTransactionCounts_keys d) as [Hnd Hkeys].
  pose proof (Permutation_map fst (forIn_perm (getTransactionCounts d None))) as Hp.
  split.
  - eapply Permutation_NoDup; [symmetry; exact Hp | exact Hnd].
  - intros t Ht. apply Hkeys. eapply Permutation_in; [exact Hp | exact Ht].
Qed.

(** ** Counts for one tick *)

Lemma filter_passes_In u l t : In t (filter (passes (Some u)) l) -> t = u.
Proof.
  intros H. apply filter_In in H as [_ H]. now apply String.eqb_eq in H.
Qed.

Lemma countOf_filter u l :
  countOf u (filter (passes (Some u)) l) = countOf u l.
Proof.
  unfold countOf. f_equal. induction l as [|x l IH]; [reflexivity|].
  cbn [filter passes count_occ].
  destruct (String.eqb_spec x u) as [->|Hne]; cbn [count_occ].
  - destruct (string_dec u u); [now rewrite IH | congruence].
  - destruct (string_dec x u); [congruence | exact IH].
Qed.

Lemma upper_not_proto t : toUpperCase t <> "__proto__".
Proof.
  intros H. pose proof (toUpperCase_idem t) as E. rewrite H in E. discriminate E.
Qed.

(** X21.  [getTransactionCounts] with a tick: the tick is upper-cased, and
    the result has no key but that one, with the numbers of site rows and of
    flagged transactions of the tick.  An empty tick is no filter at all. *)
Theorem getTransactionCounts_for_one_tick d t :
  t <> "" ->
  NoDup (map fst (getTransactionCounts d (Some t)))
  /\ (forall k v, In (k, v) (getTransactionCounts d (Some t)) ->
        k = toUpperCase t
        /\ v = (countOf k (siteTicks d), countOf k (chainTicks d)))
  /\ (In (toUpperCase t) (siteTicks d) ->
      exists v, In (toUpperCase t, v) (getTransactionCounts d (Some t)))
  /\ getTransactionCounts d (Some "") = getTransactionCounts d None.
Proof.
  intros Hne.
  assert (Hf : tickFilter (Some t) = Some (toUpperCase t)).
  { unfold tickFilter. destruct (String.eqb_spec t ""); [contradiction | reflexivity]. }
  assert (Hobj : getTransactionCounts d (Some t) = plainCounts d (Some t)).
  { unfold getTransactionCounts.
    rewrite getTransactionCountsObject_plain; [reflexivity | |];
      rewrite Hf; intros H; apply filter_passes_In in H; symmetry in H;
      exact (upper_not_proto t H). }
  rewrite Hobj, plainCounts_unfold.
  rewrite Hf. set (u := toUpperCase t).
  pose proof (counts_of_lists (filter (passes (Some u)) (siteTicks d))
                (filter (passes (Some u)) (chainTicks d)))
    as (Hnd & Hcov & Hcnt & Hkeys).
  split; [exact Hnd|]. split; [|split; [|reflexivity]].
  - intros k v H.
    assert (Hk : k = u).
    { pose proof (in_map fst _ _ H) as Hin. cbn [fst] in Hin.
      apply Hkeys in Hin as [Hin|Hin]; eapply filter_passes_In; exact Hin. }
    subst k. split; [reflexivity|].
    apply (In_getOwn _ _ _ Hnd) in H. destruct v as [sc bc].
    destruct (Hcnt _ _ _ H) as [A B]. now rewrite A, B, !countOf_filter.
  - intros Hin.
    assert (Hin' : In u (filter (passes (Some u)) (siteTicks d))).
    { apply filter_In. split; [exact Hin | apply String.eqb_refl]. }
    specialize (Hcov _ Hin').
    match goal with
    | |- exists v, In (u, v) ?r => destruct (getOwn r u) as [v|] eqn:E
    end; [|congruence].
    exists v. now apply getOwn_In.
Qed.

Lemma getTransactionCounts_for_one_tick_witness :
  "a" <> ""
  /\ forall k v, In (k, v) (getTransactionCounts Examples.auditDb (Some "a")) ->
       k = toUpperCase "a"
       /\ v = (countOf k (siteTicks Examples.auditDb),
               countOf k (chainTicks Examples.auditDb)).
Proof.
  assert (H : "a" <> "") by discriminate.
  split; [exact H|].
  apply (proj1 (proj2 (getTransactionCounts_for_one_tick Examples.auditDb "a" H))).
Defined.

(** * More facts about the scan and the checkpoint *)

(** X22.  A scan only appends to [tokens] and [transactions]: the rows that
    were there stay as they are, in their places, and the other tables
    ([site_transactions], [balances], [verification_stats]) and the
    checkpoint are left alone. *)
Theorem scan_only_appends c d s e :
  (exists ts, tokens (fst (scanBlockRange c d s e)) = tokens d ++ ts)
  /\ (exists xs, transactions (fst (scanBlockRange c d s e)) = transactions d ++ xs)
  /\ site_transactions (fst (scanBlockRange c d s e)) = site_transactions d
  /\ balances (fst (scanBlockRange c d s e)) = balances d
  /\ verification_stats (fst (scanBlockRange c d s e)) = verification_stats d
  /\ indexer_state (fst (scanBlockRange c d s e)) = indexer_state d.
Proof.
  rewrite scanBlockRange_found.
  destruct (applyFound_extends (rangeFound c (Z.to_nat (e - s + 1)) s) d) as [A B].
  destruct (applyFound_frame (rangeFound c (Z.to_nat (e - s + 1)) s) d)
    as (C & D & E & F).
  repeat split; assumption.
Qed.

(** X23.  The checkpoint never moves back.  After [initialScan] the stored
    height is at least what it was, whatever the node reports; the same holds
    of a turn of the monitoring loop when the tip reported is not negative. *)
Theorem checkpoint_never_moves_back c d h x :
  indexer_state d = Some (h, x) ->
  (exists h' x', indexer_state (initialScan c d) = Some (h', x') /\ h <= h')
  /\ ((forall tip, getblockcount c = Some tip -> 0 <= tip) ->
      exists h' x', indexer_state (monitorStep c d) = Some (h', x') /\ h <= h').
Proof.
  intros Hs. split.
  - unfold initialScan, Scanner.getLastProcessedBlock. rewrite Hs.
    destruct (getblockcount c) as [tip|]; [|exists h, x; split; [exact Hs | lia]].
    destruct (Z.eqb_spec h 0) as [->|Hne].
    + destruct (Z.leb_spec (Z.max 5700000 (tip - 5000)) tip).
      * exists tip, "". split; [reflexivity | lia].
      * exists 0, x. split; [exact Hs | lia].
    + destruct (Z.leb_spec (h + 1) tip).
      * exists tip, "". split; [reflexivity | lia].
      * exists h, x. split; [exact Hs | lia].
  - intros Hpos. unfold monitorStep, Scanner.getLastProcessedBlock. rewrite Hs.
    destruct (getblockcount c) as [tip|] eqn:Hc; [|exists h, x; split; [exact Hs | lia]].
    specialize (Hpos tip eq_refl).
    destruct (Z.eqb_spec h 0) as [->|Hne].
    + destruct (Z.ltb_spec (tip - 1) tip); [|lia].
      exists tip, "". split; [reflexivity | lia].
    + destruct (Z.ltb_spec h tip).
      * exists tip, "". split; [reflexivity | lia].
      * exists h, x. split; [exact Hs | lia].
Qed.

Lemma checkpoint_never_moves_back_witness :
  indexer_state Examples.dbAtB0 = Some (5700000, "b0")
  /\ exists h' x',
       indexer_state (initialScan (mkChain (Some 12) (fun _ => None)) Examples.dbAtB0)
       = Some (h', x')
       /\ 5700000 <= h'.
Proof.
  split; [reflexivity|].
  apply (proj1 (checkpoint_never_moves_back (mkChain (Some 12) (fun _ => None))
                  Examples.dbAtB0 5700000 "b0" eq_refl)).
Defined.

Lemma rangeFound_same_blocks c c' n : forall h,
  (forall k, h <= k < h + Z.of_nat n -> blockAt c k = blockAt c' k) ->
  rangeFound c n h = rangeFound c' n h.
Proof.
  induction n as [|n IH]; intros h H; cbn [rangeFound]; [reflexivity|].
  unfold blockFound at 1 2. rewrite (H h) by lia. f_equal.
  apply IH. intros k Hk. apply H. lia.
Qed.

(** X24.  What a first run reads.  Without a checkpoint, [initialScan] reads
    no block below height 5,700,000 nor more than 5000 below the tip, and a
    turn of the monitoring loop reads the tip block only: two nodes with the
    same tip that agree on those blocks give the same result. *)
Theorem first_run_window c c' d tip :
  indexer_state d = None ->
  getblockcount c = Some tip -> getblockcount c' = Some tip ->
  ((forall k, Z.max 5700000 (tip - 5000) <= k <= tip -> blockAt c k = blockAt c' k) ->
   initialScan c d = initialScan c' d)
  /\ (blockAt c tip = blockAt c' tip -> monitorStep c d = monitorStep c' d).
Proof.
  intros Hs Hc Hc'. split.
  - intros H. unfold initialScan, Scanner.getLastProcessedBlock. rewrite Hs, Hc, Hc'.
    destruct (Z.leb_spec (Z.max 5700000 (tip - 5000)) tip); [|reflexivity].
    rewrite !scanBlockRange_found. f_equal. f_equal.
    apply rangeFound_same_blocks. intros k Hk. apply H. lia.
  - intros H. unfold monitorStep, Scanner.getLastProcessedBlock. rewrite Hs, Hc, Hc'.
    destruct (Z.ltb_spec (tip - 1) tip); [|lia].
    rewrite !scanBlockRange_found. f_equal. f_equal.
    apply rangeFound_same_blocks. intros k Hk. assert (k = tip) by lia. now subst.
Qed.

Lemma first_run_window_witness :
  indexer_state Examples.emptyDb = None
  /\ monitorStep Examples.chainReorg Examples.emptyDb
     = monitorStep
         (mkChain (Some 5700001)
            (fun k => if k =? 5700001 then blockAt Examples.chainReorg k else None))
         Examples.emptyDb.
Proof.
  split; [reflexivity|].
  apply (proj2 (first_run_window Examples.chainReorg
                  (mkChain (Some 5700001)
                     (fun k => if k =? 5700001
                               then blockAt Examples.chainReorg k else None))
                  Examples.emptyDb 5700001 eq_refl eq_refl eq_refl)).
  reflexivity.
Defined.

(** ** One deploy and one mint for a transaction *)

Lemma hasTx_app xs xs' x : hasTx (xs ++ xs') x = hasTx xs x || hasTx xs' x.
Proof. unfold hasTx. apply existsb_app. Qed.



(** * Resuming a scan that was cut short *)



Lemma initialScan_unfold c d tip :
  getblockcount c = Some tip ->
  initialScan c d
  = if startBlock d tip <=? tip
    then Scanner.updateLastProcessedBlock
           (fst (scanBlockRange c d (startBlock d tip) tip)) tip
    else d.
Proof. intros H. unfold initialScan, startBlock. now rewrite H. Qed.




(** * What a scan that runs does *)

Lemma voutsFound_complete h x hx data vs :
  snd (voutsFound h x vs) = false ->
  In (Some (mkScript "nulldata" hx)) vs -> hx <> "" ->
  parseDRC20FromHex hx = Some data ->
  In (mkFound h x data hx) (fst (voutsFound h x vs)).
Proof.
  intros Hs Hin Hne Hp. induction vs as [|v vs IH]; [destruct Hin|].
  cbn [voutsFound] in *. destruct Hin as [-> | Hin].
  - cbn [type_ hex] in *. rewrite String.eqb_refl in *.
    destruct (String.eqb_spec hx "") as [E|_]; [contradiction|].
    cbn [negb andb] in *. rewrite Hp in *.
    destruct (logThrows data); [discriminate Hs|]. now left.
  - destruct v as [spk|]; [|now apply IH].
    destruct (String.eqb (type_ spk) "nulldata" && negb (String.eqb (hex spk) ""));
      [|now apply IH].
    destruct (parseDRC20FromHex (hex spk)) as [data'|]; [|now apply IH].
    destruct (logThrows data'); [discriminate Hs|].
    cbn [fst snd] in *. right. now apply IH.
Qed.

Lemma txsFound_complete h t hx data ts :
  snd (txsFound h ts) = false ->
  In t ts -> In (Some (mkScript "nulldata" hx)) (vout t) -> hx <> "" ->
  parseDRC20FromHex hx = Some data ->
  In (mkFound h (tx_id t) data hx) (fst (txsFound h ts)).
Proof.
  intros Hs Hin Hv Hne Hp. induction ts as [|t0 ts IH]; [destruct Hin|].
  cbn [txsFound] in *.
  destruct (voutsFound h (tx_id t0) (vout t0)) as [l b] eqn:E.
  destruct b; [discriminate Hs|]. cbn [fst snd] in *.
  apply in_or_app. destruct Hin as [-> | Hin].
  - left. change l with (fst (l, false)). rewrite <- E.
    apply voutsFound_complete; [now rewrite E | assumption..].
  - right. now apply IH.
Qed.

Lemma rangeFound_block c n : forall h k f,
  h <= k < h + Z.of_nat n -> In f (blockFound c k) -> In f (rangeFound c n h).
Proof.
  induction n as [|n IH]; intros h k f Hk Hf; [lia|].
  cbn [rangeFound]. apply in_or_app.
  destruct (Z.eq_dec k h) as [->|Hne]; [now left|].
  right. apply (IH (h + 1) k); [lia | assumption].
Qed.

(** C6, as amended.  The scanner makes no continuity check.  It reads
    neither the hash nor the previous-hash of a block: two nodes that agree
    on the tip and on the transactions of every block give the same result.
    It does not read the hash stored with the checkpoint either: whatever it
    is, the same tokens and transactions come out.  When the start block is
    not beyond the tip the scan runs: the database it leaves is the one the
    saves of the payloads of the range give, block after block, with the
    checkpoint set to the tip and the empty string as hash.  Every payload of
    a block of the range that can be fetched is among those saved, as long
    as no log line of the block throws: each null-data output with a script
    that [parseDRC20FromHex] accepts.  When the start block is beyond the
    tip nothing is done. *)
Theorem initialScan_reads_no_hash c c' d :
  sameTransactions c c' ->
  initialScan c d = initialScan c' d
  /\ (forall h0 x y,
        sameLedger (initialScan c (withIndexerState d (Some (h0, x))))
                   (initialScan c (withIndexerState d (Some (h0, y)))))
  /\ (forall tip, getblockcount c = Some tip -> startBlock d tip <= tip ->
        let saved := rangeFound c (Z.to_nat (tip - startBlock d tip + 1))
                       (startBlock d tip) in
        initialScan c d = withIndexerState (applyFound d saved) (Some (tip, ""))
        /\ snd (scanBlockRange c d (startBlock d tip) tip) = saved
        /\ (forall k b t hx data,
              startBlock d tip <= k <= tip ->
              blockAt c k = Some b ->
              snd (txsFound k (block_tx b)) = false ->
              In t (block_tx b) ->
              In (Some (mkScript "nulldata" hx)) (vout t) -> hx <> "" ->
              parseDRC20FromHex hx = Some data ->
              In (mkFound k (tx_id t) data hx) saved))
  /\ (forall tip, getblockcount c = Some tip -> tip < startBlock d tip ->
        initialScan c d = d).
Proof.
  intros H. split; [|split; [|split]].
  - unfold initialScan. destruct (proj1 H).
    destruct (getblockcount c) as [tip|]; [|reflexivity].
    match goal with |- (if ?b then _ else _) = _ => destruct b end; [|reflexivity].
    rewrite !scanBlockRange_found.
    now rewrite (rangeFound_sameTransactions c c' _ _ H).
  - intros h0 x y. unfold initialScan, Scanner.getLastProcessedBlock.
    cbn [indexer_state withIndexerState].
    destruct (getblockcount c) as [tip|]; [|split; reflexivity].
    match goal with |- sameLedger (if ?b then _ else _) _ => destruct b end;
      [|split; reflexivity].
    rewrite !scanBlockRange_found, !applyFound_withIndexerState.
    split; reflexivity.
  - intros tip Hc Hle. cbv zeta.
    rewrite (initialScan_unfold c d tip Hc).
    destruct (Z.leb_spec (startBlock d tip) tip) as [_|Hgt]; [|lia].
    split; [|split].
    + now rewrite scanBlockRange_found.
    + unfold scanBlockRange. now rewrite scanFrom_found.
    + intros k b t hx data Hk Hb Hs Ht Hv Hne Hp.
      apply (rangeFound_block c _ _ k); [lia|].
      unfold blockFound. rewrite Hb. now apply txsFound_complete.
  - intros tip Hc Hlt. rewrite (initialScan_unfold c d tip Hc).
    destruct (Z.leb_spec (startBlock d tip) tip) as [Hle|_]; [lia | reflexivity].
Qed.

Lemma initialScan_reads_no_hash_witness :
  sameTransactions Examples.chainReorg Examples.chainNoReorg
  /\ initialScan Examples.chainReorg Examples.dbAtB0
     = initialScan Examples.chainNoReorg Examples.dbAtB0
  /\ startBlock Examples.dbAtB0 5700001 <= 5700001
  /\ initialScan Examples.chainReorg Examples.dbAtB0
     = withIndexerState
         (applyFound Examples.dbAtB0
            (rangeFound Examples.chainReorg
               (Z.to_nat (5700001 - startBlock Examples.dbAtB0 5700001 + 1))
               (startBlock Examples.dbAtB0 5700001)))
         (Some (5700001, "")).
Proof.
  pose proof (initialScan_reads_no_hash Examples.chainReorg Examples.chainNoReorg
                Examples.dbAtB0 chainReorg_sameTransactions) as (A & _ & B & _).
  assert (L : startBlock Examples.dbAtB0 5700001 <= 5700001)
    by (vm_compute; discriminate).
  split; [exact chainReorg_sameTransactions|]. split; [exact A|].
  split; [exact L|].
  exact (proj1 (B 5700001 eq_refl L)).
Defined.
